(** * Parking-sensor reference application: detection core

    A shallow embedding of [parking-sensor-algorithm.c] (Acconeer reference
    application) and the properties of its detection core: the range mapper
    [format_data], the statistics [get_average_amplitude] and [get_max_peak],
    the classifier [car_present], the calibration file reader and writer,
    the detection loop, and the command line and [main] around them.

    C [float] is IEEE-754 binary32; it is modelled with the executable
    specification of the Standard Library ([SpecFloat], precision 24,
    maximal exponent 128, round to nearest even), so every arithmetic
    operation of the source rounds the way the compiled program does. *)

From Stdlib Require Import ZArith List Bool Lia String Ascii.
From Stdlib Require Import Floats.SpecFloat.
Import ListNotations.

Local Open Scope Z_scope.

(** ** Single-precision floating point *)

Module F32.

Definition prec : Z := 24.
Definition emax : Z := 128.

Definition float : Type := spec_float.

Definition add : float -> float -> float := SFadd prec emax.
Definition sub : float -> float -> float := SFsub prec emax.
Definition mul : float -> float -> float := SFmul prec emax.
Definition div : float -> float -> float := SFdiv prec emax.

(** The C comparisons; each is false as soon as one side is a NaN, except
    [!=], which is then true. *)
Definition lt (a b : float) : bool := SFltb a b.
Definition le (a b : float) : bool := SFleb a b.
Definition gt (a b : float) : bool := SFltb b a.
Definition eq (a b : float) : bool := SFeqb a b.
Definition ne (a b : float) : bool := negb (SFeqb a b).

(** Conversion of an integer to [float] (exact below 2^24, rounded above). *)
Definition of_int (z : Z) : float := binary_normalize prec emax z 0 false.

Definition valid (x : float) : bool := valid_binary prec emax x.

Definition is_nan (x : float) : bool :=
  match x with S754_nan => true | _ => false end.

(** Finite in the sense of C's [isfinite]: neither an infinity nor a NaN. *)
Definition is_finite (x : float) : bool :=
  match x with
  | S754_zero _ | S754_finite _ _ _ => true
  | S754_infinity _ | S754_nan => false
  end.

(** The value of a decimal numeral [(-1)^neg * n * 10^e10], [0 <= n],
    correctly rounded, as [strtof] delivers it. *)
Definition of_decimal (neg : bool) (n e10 : Z) : float :=
  match n with
  | Zpos p =>
      if 0 <=? e10
      then binary_normalize prec emax
             ((if neg then Z.opp else id) (Zpos p * 10 ^ e10)) 0 neg
      else
        let '(q, e, l) :=
          SFdiv_core_binary prec emax (Zpos p) 0 (10 ^ (- e10)) 0 in
        binary_round_aux prec emax neg q e l
  | _ => S754_zero neg
  end.

End F32.

Definition float : Type := F32.float.

Declare Scope f32_scope.
Delimit Scope f32_scope with f32.
Infix "+" := F32.add : f32_scope.
Infix "-" := F32.sub : f32_scope.
Infix "*" := F32.mul : f32_scope.
Infix "/" := F32.div : f32_scope.
Infix "<" := F32.lt : f32_scope.
Infix "<=" := F32.le : f32_scope.
Infix ">" := F32.gt : f32_scope.
Infix "!=" := F32.ne (at level 70) : f32_scope.

(** ** Data model *)

Definition MAX_DATA_SIZE : Z := 3000.

Definition uint16_t (z : Z) : Z := z mod 65536.
Definition unsigned (z : Z) : Z := z mod 4294967296.

(** [inline uint16_t min(uint16_t a, uint16_t b)]: both arguments are
    converted to 16 bits at the call. *)
Definition min (a b : Z) : Z :=
  let a := uint16_t a in
  let b := uint16_t b in
  if a <? b then a else b.

Record radar_configuration_t : Type := {
  start_range : float;
  length_range : float;
  nbr_of_sweeps : Z;
  frequency : Z;
  sensor : Z
}.

Record app_configuration_t : Type := {
  calibrate : bool;
  read_calibration_file : bool;
  radar_config : radar_configuration_t;
  loglevel : Z;
  calibration_file_name : string;
  time_delay : Z;
  delay : bool
}.

Record Datapoint : Type := {
  dist : float;
  amp : float
}.

Definition set_start_range (c : app_configuration_t) (v : float) :=
  {| calibrate := calibrate c;
     read_calibration_file := read_calibration_file c;
     radar_config :=
       {| start_range := v;
          length_range := length_range (radar_config c);
          nbr_of_sweeps := nbr_of_sweeps (radar_config c);
          frequency := frequency (radar_config c);
          sensor := sensor (radar_config c) |};
     loglevel := loglevel c;
     calibration_file_name := calibration_file_name c;
     time_delay := time_delay c;
     delay := delay c |}.

Definition set_length_range (c : app_configuration_t) (v : float) :=
  {| calibrate := calibrate c;
     read_calibration_file := read_calibration_file c;
     radar_config :=
       {| start_range := start_range (radar_config c);
          length_range := v;
          nbr_of_sweeps := nbr_of_sweeps (radar_config c);
          frequency := frequency (radar_config c);
          sensor := sensor (radar_config c) |};
     loglevel := loglevel c;
     calibration_file_name := calibration_file_name c;
     time_delay := time_delay c;
     delay := delay c |}.

(** ** Presence classifier, range mapper and statistics *)

(** [car_present]: 0 when [avg_peak_amp <= avg_calib_amp * avg_amp_factor * 4],
    1 otherwise. *)
Definition car_present (avg_peak_amp avg_calib_amp avg_amp_factor : float) : Z :=
  if (avg_peak_amp <= avg_calib_amp * avg_amp_factor * F32.of_int 4)%f32
  then 0 else 1.

(** The [for] loop of [format_data], from index [i], [k] iterations to go.
    Reading [amp] past its end does not happen in this program (the callers
    pass a buffer of [MAX_DATA_SIZE] cells and a length clamped to it); the
    model reads 0 there. *)
Fixpoint format_data_loop (amp : list Z) (start step : float) (i : Z) (k : nat)
  : list Datapoint :=
  match k with
  | O => []
  | S k' =>
      {| dist := (start + step * F32.of_int i)%f32;
         amp := F32.of_int (nth (Z.to_nat i) amp 0) |}
        :: format_data_loop amp start step (i + 1) k'
  end.

(** [format_data]: the [length] cells of [data] the function writes. *)
Definition format_data (amp : list Z) (length : Z) (start end_ : float)
  : list Datapoint :=
  let range := (end_ - start)%f32 in
  let step := (range / F32.of_int length)%f32 in
  format_data_loop amp start step 0 (Z.to_nat length).

(** [get_average_amplitude] and [get_max_peak] go through the first
    [length] cells of [data], front to back. *)
Definition get_average_amplitude (data : list Datapoint) (length : Z) : float :=
  let sum :=
    fold_left (fun sum p => (sum + amp p)%f32)
              (firstn (Z.to_nat length) data) (F32.of_int 0) in
  (sum / F32.of_int length)%f32.

Definition sentinel : Datapoint :=
  {| dist := F32.of_int (-1); amp := F32.of_int (-1) |}.

Definition max_step (max p : Datapoint) : Datapoint :=
  if (amp p > amp max)%f32 then p else max.

Definition get_max_peak (data : list Datapoint) (length : Z) : Datapoint :=
  fold_left max_step (firstn (Z.to_nat length) data) sentinel.

(** ** The C library's formatted text input and output

    A stream opened for reading is the text that remains to be read.
    [fscanf] follows ISO C 7.21.6.2: a white-space directive skips any white
    space, an ordinary character must match the next character, [%f], [%u]
    and [%hu] skip white space and then take the longest prefix of the input
    that is a numeral or the beginning of one; the characters of a prefix
    that turns out not to be a numeral stay consumed.  The call returns the
    number of items assigned, or [EOF] when the input ends before the first
    conversion.  [%f] text is a decimal numeral with optional fraction and
    exponent; for the spellings of infinities, NaNs and hexadecimal
    numerals the model gives no answer ([NotModelled]) rather than a wrong
    one.  A numeral too large for [%u] or [%hu] is reduced modulo the width
    of its object. *)

Module Stdio.

Definition EOF : Z := -1.

Definition nl : string := String (ascii_of_nat 10) EmptyString.

Definition isspace (c : ascii) : bool :=
  let n := Z.of_nat (nat_of_ascii c) in
  (n =? 32) || ((9 <=? n) && (n <=? 13)).

Definition isdigit (c : ascii) : bool :=
  let n := Z.of_nat (nat_of_ascii c) in
  (48 <=? n) && (n <=? 57).

Definition digit_value (c : ascii) : Z := Z.of_nat (nat_of_ascii c) - 48.

Definition digit_char (d : Z) : ascii := ascii_of_nat (Z.to_nat (48 + d)).

Fixpoint skip_space (s : string) : string :=
  match s with
  | String c t => if isspace c then skip_space t else s
  | EmptyString => s
  end.

(** The leading decimal digits of [s]: their value on top of [acc], how
    many there are on top of [cnt], and what follows them. *)
Fixpoint digits (s : string) (acc cnt : Z) : Z * Z * string :=
  match s with
  | String c t =>
      if isdigit c then digits t (10 * acc + digit_value c) (cnt + 1)
      else (acc, cnt, s)
  | EmptyString => (acc, cnt, s)
  end.

(** An optional sign. *)
Definition sign (s : string) : bool * string :=
  match s with
  | String "-" t => (true, t)
  | String "+" t => (false, t)
  | _ => (false, s)
  end.

Inductive conversion (A : Type) : Type :=
| Converted (v : A) (rest : string)
| MatchingFailure (rest : string)
| InputFailure
| NotModelled.
Arguments Converted {A} v rest.
Arguments MatchingFailure {A} rest.
Arguments InputFailure {A}.
Arguments NotModelled {A}.

(** [%u] and [%hu] ([bits] is the width of the object): [strtoul] syntax
    in base 10. *)
Definition scan_unsigned (bits : Z) (s : string) : conversion Z :=
  match skip_space s with
  | EmptyString => InputFailure
  | s0 =>
      let '(neg, s1) := sign s0 in
      let '(v, cnt, s2) := digits s1 0 0 in
      if cnt =? 0 then MatchingFailure s2
      else Converted ((if neg then - v else v) mod 2 ^ bits) s2
  end.

Definition special_spelling (s : string) : bool :=
  match s with
  | String "i" _ | String "I" _ | String "n" _ | String "N" _ => true
  | String "0" (String "x" _) | String "0" (String "X" _) => true
  | _ => false
  end.

(** [%f]: [strtof] syntax, decimal numerals. *)
Definition scan_float (s : string) : conversion float :=
  match skip_space s with
  | EmptyString => InputFailure
  | s0 =>
      let '(neg, s1) := sign s0 in
      if special_spelling s1 then NotModelled else
      let '(ip, icnt, s2) := digits s1 0 0 in
      let '(m, fcnt, s3) :=
        match s2 with
        | String "." t => digits t ip 0
        | _ => (ip, 0, s2)
        end in
      if icnt + fcnt =? 0 then MatchingFailure s3
      else
        match s3 with
        | String c t =>
            if (Ascii.eqb c "e" || Ascii.eqb c "E")%bool then
              let '(eneg, t1) := sign t in
              let '(ev, ecnt, t2) := digits t1 0 0 in
              if ecnt =? 0 then MatchingFailure t2
              else Converted
                     (F32.of_decimal neg m ((if eneg then - ev else ev) - fcnt))
                     t2
            else Converted (F32.of_decimal neg m (- fcnt)) s3
        | EmptyString => Converted (F32.of_decimal neg m (- fcnt)) s3
        end
  end.

Inductive directive : Type :=
| White
| Ordinary (c : ascii)
| Conv_f
| Conv_u
| Conv_hu.

Inductive item : Type :=
| Float (f : float)
| UInt (n : Z).

(** What a call of [fscanf] leaves behind: the value it returns, the items
    it assigned, in order, and the rest of the stream. *)
Record scanned : Type := {
  returned : Z;
  assigned : list item;
  rest : string
}.

Definition stop (done : list item) (input_failure : bool) (s : string)
  : scanned :=
  {| returned :=
       match done with
       | [] => if input_failure then EOF else 0
       | _ => Z.of_nat (List.length done)
       end;
     assigned := done;
     rest := s |}.

Definition convert {A} (wrap : A -> item) (c : conversion A)
  (continue : list item -> string -> option scanned)
  (done : list item) (s : string) : option scanned :=
  match c with
  | Converted v s' => continue (done ++ [wrap v]) s'
  | MatchingFailure s' => Some (stop done false s')
  | InputFailure => Some (stop done true EmptyString)
  | NotModelled => None
  end.

Fixpoint fscanf_from (fmt : list directive) (done : list item) (s : string)
  : option scanned :=
  match fmt with
  | [] => Some (stop done false s)
  | White :: fmt' => fscanf_from fmt' done (skip_space s)
  | Ordinary c :: fmt' =>
      match s with
      | String c' s' =>
          if Ascii.eqb c c' then fscanf_from fmt' done s'
          else Some (stop done false s)
      | EmptyString => Some (stop done true s)
      end
  | Conv_f :: fmt' => convert Float (scan_float s) (fscanf_from fmt') done s
  | Conv_u :: fmt' =>
      convert UInt (scan_unsigned 32 s) (fscanf_from fmt') done s
  | Conv_hu :: fmt' =>
      convert UInt (scan_unsigned 16 s) (fscanf_from fmt') done s
  end.

(** [fscanf(stream, fmt, ...)]; [None] when the text is outside the model. *)
Definition fscanf (stream : string) (fmt : list directive) : option scanned :=
  fscanf_from fmt [] stream.

(** The directives of a format string without conversions. *)
Fixpoint text (s : string) : list directive :=
  match s with
  | String c t => (if isspace c then White else Ordinary c) :: text t
  | EmptyString => []
  end.

(** *** Output *)

Fixpoint decimal_from (fuel : nat) (n : Z) (acc : string) : string :=
  match fuel with
  | O => acc
  | S fuel' =>
      let acc' := String (digit_char (n mod 10)) acc in
      if n <? 10 then acc' else decimal_from fuel' (n / 10) acc'
  end.

(** [%u] and [%d] of a non-negative number. *)
Definition print_u (n : Z) : string :=
  decimal_from (S (Z.to_nat (Z.log2 n))) n EmptyString.

Definition print_d (n : Z) : string :=
  if n <? 0 then ("-" ++ print_u (- n))%string else print_u n.

(** Exactly [k] decimal digits of [n], zero padded. *)
Fixpoint padded (k : nat) (n : Z) (acc : string) : string :=
  match k with
  | O => acc
  | S k' => padded k' (n / 10) (String (digit_char (n mod 10)) acc)
  end.

(** [m * 2^e * 10^6] rounded to the nearest integer, ties to even. *)
Definition micro_units (m : positive) (e : Z) : Z :=
  if 0 <=? e then Zpos m * 2 ^ e * 1000000
  else
    let d := 2 ^ (- e) in
    let q := (Zpos m * 1000000) / d in
    let r := (Zpos m * 1000000) mod d in
    if 2 * r <? d then q
    else if d <? 2 * r then q + 1
    else if Z.even q then q else q + 1.

(** [%f] of [(double)x]: six digits after the point, correctly rounded. *)
Definition print_f (x : float) : string :=
  let minus (s : bool) := (if s then "-" else EmptyString)%string in
  (match x with
   | S754_nan => "nan"
   | S754_infinity s => minus s ++ "inf"
   | S754_zero s => minus s ++ "0.000000"
   | S754_finite s m e =>
       let u := micro_units m e in
       minus s ++ print_u (u / 1000000) ++ "."
         ++ padded 6 (u mod 1000000) EmptyString
   end)%string.

End Stdio.

(** ** Outcomes of the stateful functions *)

Inductive outcome (A : Type) : Type :=
| Done (a : A)
    (* the function returns *)
| Fatal (message : string)
    (* [handle_fatal_error]: message on stderr, [exit(EXIT_FAILURE)] *)
| OutOfBounds (i : Z)
    (* a store to cell [i] of an array that has no such cell *)
| Unmodelled
    (* input text outside the model of [fscanf] *)
| Exhausted.
    (* the scripted sensor has no further reply *)
Arguments Done {A} a.
Arguments Fatal {A} message.
Arguments OutOfBounds {A} i.
Arguments Unmodelled {A}.
Arguments Exhausted {A}.

Definition bind {A B} (m : outcome A) (k : A -> outcome B) : outcome B :=
  match m with
  | Done a => k a
  | Fatal message => Fatal message
  | OutOfBounds i => OutOfBounds i
  | Unmodelled => Unmodelled
  | Exhausted => Exhausted
  end.

Notation "x <- m ;; k" := (bind m (fun x => k))
  (at level 61, m at next level, right associativity).
Notation "' p <- m ;; k" := (bind m (fun x => let 'p := x in k))
  (at level 61, p pattern, m at next level, right associativity).

Definition handle_fatal_error {A} (message : string) : outcome A :=
  Fatal message.

Definition scan (stream : string) (fmt : list Stdio.directive)
  : outcome Stdio.scanned :=
  match Stdio.fscanf stream fmt with
  | Some r => Done r
  | None => Unmodelled
  end.

(** ** Arrays of 16-bit cells *)

Fixpoint store {A} (a : list A) (i : nat) (v : A) : list A :=
  match a, i with
  | [], _ => []
  | _ :: t, O => v :: t
  | h :: t, S i' => h :: store t i' v
  end.

(** A local array of [cells] cells whose initial content is indeterminate:
    [garbage i] is the 16-bit value cell [i] happens to hold. *)
Definition local_array (garbage : Z -> Z) (cells : Z) : list Z :=
  map (fun i => garbage (Z.of_nat i)) (seq 0 (Z.to_nat cells)).

Inductive endianness : Type := LittleEndian | BigEndian.

(** Clearing the byte at the lower address of a 16-bit cell. *)
Definition clear_first_byte (e : endianness) (x : Z) : Z :=
  match e with
  | LittleEndian => x - x mod 256
  | BigEndian => x mod 256
  end.

(** [memset(a, 0, bytes)] on an array of 16-bit cells: cell [i] lies at
    bytes [2i] and [2i+1]. *)
Fixpoint memset_zero (e : endianness) (a : list Z) (bytes : nat) : list Z :=
  match a, bytes with
  | _, O => a
  | [], _ => []
  | x :: t, S O => clear_first_byte e x :: t
  | _ :: t, S (S bytes') => 0 :: memset_zero e t bytes'
  end.

(** ** Calibration store: reading *)

Definition format_error : string :=
  ("Calibration data file format error." ++ Stdio.nl)%string.

Definition fmt_start : list Stdio.directive :=
  Stdio.text "start " ++ [Stdio.Conv_f] ++ Stdio.text Stdio.nl.
Definition fmt_length : list Stdio.directive :=
  Stdio.text "length " ++ [Stdio.Conv_f] ++ Stdio.text Stdio.nl.
Definition fmt_n : list Stdio.directive :=
  Stdio.text "n " ++ [Stdio.Conv_u] ++ Stdio.text Stdio.nl.

(** The object a conversion assigns to keeps its value when the conversion
    does not take place. *)
Definition assigned_float (r : Stdio.scanned) (old : float) : float :=
  match Stdio.assigned r with
  | [Stdio.Float f] => f
  | _ => old
  end.

Definition assigned_uint (r : Stdio.scanned) (old : Z) : Z :=
  match Stdio.assigned r with
  | [Stdio.UInt n] => n
  | _ => old
  end.

(** The loop [for (i = 0; i < n; i++) res += fscanf(fin, "%hu",
    &threshold_data[i])], from index [i] with [k] iterations to go.  [res]
    is a [uint16_t], so each return value, [EOF] included, is added modulo
    65536.  A conversion that takes place stores its value in cell [i]; a
    store to a cell the array does not have is reported as [OutOfBounds]
    (a call that converts nothing stores nothing and goes unreported). *)
Fixpoint read_samples (k : nat) (i : Z) (fin : string)
  (threshold_data : list Z) (res : Z) : outcome (Z * list Z * string) :=
  match k with
  | O => Done (res, threshold_data, fin)
  | S k' =>
      r <- scan fin [Stdio.Conv_hu] ;;
      let res := uint16_t (res + Stdio.returned r) in
      match Stdio.assigned r with
      | [Stdio.UInt v] =>
          if i <? Z.of_nat (List.length threshold_data)
          then read_samples k' (i + 1) (Stdio.rest r)
                 (store threshold_data (Z.to_nat i) v) res
          else OutOfBounds i
      | _ => read_samples k' (i + 1) (Stdio.rest r) threshold_data res
      end
  end.

(** The first half of [read_and_calculate_threshold] (up to the second
    format check): what the file yields for [start], [length], [n] and
    [threshold_data].  The three locals are indeterminate until assigned and
    are read only after all three conversions took place. *)
Definition read_calibration_file_content (files : string -> option string)
  (garbage : Z -> Z) (app_config : app_configuration_t)
  : outcome (float * float * Z * list Z) :=
  let threshold_data := local_array garbage MAX_DATA_SIZE in
  match files (calibration_file_name app_config) with
  | None => handle_fatal_error "Unable to read calibration data file"
  | Some fin =>
      r <- scan fin fmt_start ;;
      let start := assigned_float r S754_nan in
      let res := uint16_t (Stdio.returned r) in
      r <- scan (Stdio.rest r) fmt_length ;;
      let length := assigned_float r S754_nan in
      let res := uint16_t (res + Stdio.returned r) in
      r <- scan (Stdio.rest r) fmt_n ;;
      let n := assigned_uint r 0 in
      let res := uint16_t (res + Stdio.returned r) in
      if negb (res =? 3) then handle_fatal_error format_error
      else
        let res := 0 in
        '(res, threshold_data, fin) <-
          read_samples (Z.to_nat n) 0 (Stdio.rest r) threshold_data res ;;
        if negb (res =? n) then handle_fatal_error format_error
        else Done (start, length, n, threshold_data)
  end.

(** The threshold model the function delivers through its three output
    parameters. *)
Record threshold_t : Type := {
  avg_calib_amp : float;
  peak_amp : Datapoint;
  avg_amp_factor : float
}.

(** [read_and_calculate_threshold]: the adjusted configuration and the
    threshold model.  The two messages on stdout that report an adjustment
    are left out. *)
Definition read_and_calculate_threshold (e : endianness)
  (files : string -> option string) (garbage : Z -> Z)
  (app_config : app_configuration_t)
  : outcome (app_configuration_t * threshold_t) :=
  '(start, length, n, threshold_data) <-
    read_calibration_file_content files garbage app_config ;;
  let app_config :=
    if (start != start_range (radar_config app_config))%f32
    then set_start_range app_config start else app_config in
  let app_config :=
    if (length < length_range (radar_config app_config))%f32
    then set_length_range app_config length else app_config in
  let n := min n MAX_DATA_SIZE in
  let threshold_data := memset_zero e threshold_data (Z.to_nat n) in
  let th_data :=
    format_data threshold_data n
      (start_range (radar_config app_config))
      (start_range (radar_config app_config)
       + length_range (radar_config app_config))%f32 in
  let avg := get_average_amplitude th_data n in
  let peak := get_max_peak th_data n in
  Done (app_config,
        {| avg_calib_amp := avg;
           peak_amp := peak;
           avg_amp_factor := (amp peak / avg)%f32 |}).

(** ** The sensor service (external collaborator)

    The radar service is outside this program.  It is represented by the
    script of what it will answer: whether a sweep configuration and a
    service can be had, and for each coming call of
    [acc_service_envelope_get_next] either the samples it delivers or a
    failure status.  The length the metadata announce is the number of
    samples of the coming sweep. *)

Record sensor_t : Type := {
  sweep_configuration_available : bool;
  service_created : bool;
  replies : list (option (list Z))
}.

Definition acc_service_handle_t : Type := list (option (list Z)).

Definition create_sensor_service (sensor : sensor_t)
  : outcome acc_service_handle_t :=
  if negb (sweep_configuration_available sensor)
  then handle_fatal_error "Sweep configuration not available"
  else if negb (service_created sensor)
  then handle_fatal_error "acc_service_create() failed."
  else Done (replies sensor).

(** [get_one_sweep]: the service writes the announced number of samples to
    the front of [envelope_data]; the function returns the announced length
    clamped to [data_length]. *)
Definition get_one_sweep (envelope_handle : acc_service_handle_t)
  (envelope_data : list Z) (data_length : Z)
  : outcome (Z * list Z * acc_service_handle_t) :=
  match envelope_handle with
  | [] => Exhausted
  | reply :: envelope_handle' =>
      match reply with
      | None => handle_fatal_error "acc_service_envelope_get_next() failed."
      | Some samples =>
          let metadata_data_length := Z.of_nat (List.length samples) in
          let actual_data_length := min metadata_data_length data_length in
          if Z.of_nat (List.length envelope_data) <? metadata_data_length
          then OutOfBounds (Z.of_nat (List.length envelope_data))
          else
            Done (actual_data_length,
                  map uint16_t samples
                    ++ skipn (List.length samples) envelope_data,
                  envelope_handle')
      end
  end.

(** ** Calibration store: writing *)

Definition update (files : string -> option string) (name content : string)
  : string -> option string :=
  fun name' => if String.eqb name' name then Some content else files name'.

(** The loop [for (i = 0; i < data_len; i++) fprintf(fout, "%d ", data[i])]
    over the cells it prints. *)
Fixpoint print_samples (data : list Z) : string :=
  match data with
  | [] => EmptyString
  | d :: data' => (Stdio.print_d d ++ " " ++ print_samples data')%string
  end.

(** The four [fprintf] steps of [write_calibration_data]. *)
Definition calibration_text (start length : float) (data_len : Z)
  (data : list Z) : string :=
  ("start " ++ Stdio.print_f start ++ Stdio.nl
   ++ "length " ++ Stdio.print_f length ++ Stdio.nl
   ++ "n " ++ Stdio.print_u data_len ++ Stdio.nl
   ++ print_samples (firstn (Z.to_nat data_len) data))%string.

(** [write_calibration_data]; [writable] tells whether [fopen(name, "w")]
    succeeds. *)
Definition write_calibration_data (files : string -> option string)
  (writable : string -> bool) (garbage : Z -> Z) (sensor : sensor_t)
  (app_config : app_configuration_t) : outcome (string -> option string) :=
  let data_len := MAX_DATA_SIZE in
  let data := local_array garbage data_len in
  envelope_handle <- create_sensor_service sensor ;;
  '(data_len, data, envelope_handle) <-
    get_one_sweep envelope_handle data data_len ;;
  if negb (writable (calibration_file_name app_config))
  then handle_fatal_error
         ("Unable to write calibration data to file" ++ Stdio.nl)%string
  else
    Done (update files (calibration_file_name app_config)
            (calibration_text (start_range (radar_config app_config))
               (length_range (radar_config app_config)) data_len data)).

(** ** Detection loop *)

Inductive event : Type :=
| Printed (result : Z)      (* [printf("%d\n", result)] *)
| Slept (seconds : Z).      (* [sleep(seconds)] *)

(** One acquisition and classification, as it stands before and inside the
    [while] loop of [get_detection]. *)
Definition sweep_and_classify (app_config : app_configuration_t)
  (avg_calib_amp avg_amp_factor : float)
  (envelope_handle : acc_service_handle_t) (envelope_data : list Z)
  (data_len : Z) : outcome (Z * Z * list Z * acc_service_handle_t) :=
  '(data_len, envelope_data, envelope_handle) <-
    get_one_sweep envelope_handle envelope_data data_len ;;
  let data :=
    format_data envelope_data data_len
      (start_range (radar_config app_config))
      (start_range (radar_config app_config)
       + length_range (radar_config app_config))%f32 in
  let avg_peak := get_max_peak data data_len in
  let result := car_present (amp avg_peak) avg_calib_amp avg_amp_factor in
  Done (result, data_len, envelope_data, envelope_handle).

(** The loop [while (first_res != result) { ... }]; each iteration takes one
    reply of the sensor, so [fuel] beyond the number of replies is never
    needed. *)
Fixpoint detection_loop (fuel : nat) (app_config : app_configuration_t)
  (avg_calib_amp avg_amp_factor : float)
  (envelope_handle : acc_service_handle_t) (envelope_data : list Z)
  (data_len first_res result : Z) (trace : list event)
  : outcome (Z * acc_service_handle_t * list event) :=
  if negb (first_res =? result) then
    match fuel with
    | O => Exhausted
    | S fuel' =>
        let first_res := result in
        let trace := trace ++ [Slept (unsigned (time_delay app_config))] in
        '(result, data_len, envelope_data, envelope_handle) <-
          sweep_and_classify app_config avg_calib_amp avg_amp_factor
            envelope_handle envelope_data data_len ;;
        let trace := trace ++ [Printed result] in
        detection_loop fuel' app_config avg_calib_amp avg_amp_factor
          envelope_handle envelope_data data_len first_res result trace
    end
  else Done (result, envelope_handle, trace).

(** [get_detection]: the result, the replies of the sensor it did not use
    and what it printed and slept, in order.  Closing the service at the end
    has no effect the model keeps. *)
Definition get_detection (garbage : Z -> Z) (sensor : sensor_t)
  (app_config : app_configuration_t) (avg_calib_amp avg_amp_factor : float)
  : outcome (Z * acc_service_handle_t * list event) :=
  let data_len := MAX_DATA_SIZE in
  let envelope_data := local_array garbage data_len in
  envelope_handle <- create_sensor_service sensor ;;
  '(result, data_len, envelope_data, envelope_handle) <-
    sweep_and_classify app_config avg_calib_amp avg_amp_factor
      envelope_handle envelope_data MAX_DATA_SIZE ;;
  let trace := [Printed result] in
  if delay app_config then
    let first_res := -2 in
    detection_loop (S (List.length envelope_handle)) app_config
      avg_calib_amp avg_amp_factor envelope_handle envelope_data
      data_len first_res result trace
  else Done (result, envelope_handle, trace).

(** ** Command line and program

    [getopt_long] is outside this program.  It is represented by the
    script of what its successive calls return before they return -1: the
    character code of an option and the text [optarg] points to (which the
    options without an argument do not look at).  Strings stand for C
    strings, so they hold no NUL character. *)

(** [atoi]: white space, an optional sign and decimal digits; 0 when there
    are no digits.  The C standard leaves the result undefined when the
    number is outside [int]; the model gives no answer then. *)
Definition atoi (nptr : string) : option Z :=
  let '(neg, s1) := Stdio.sign (Stdio.skip_space nptr) in
  let '(v, _, _) := Stdio.digits s1 0 0 in
  let r := if neg then - v else v in
  if (- 2147483648 <=? r) && (r <=? 2147483647) then Some r else None.

(** [strtof]: the longest prefix that is a decimal numeral, correctly
    rounded; zero when no conversion can be performed.  No answer for the
    spellings of infinities, NaNs and hexadecimal numerals. *)
Definition strtof (nptr : string) : option float :=
  let '(neg, s1) := Stdio.sign (Stdio.skip_space nptr) in
  if Stdio.special_spelling s1 then None else
  let '(ip, icnt, s2) := Stdio.digits s1 0 0 in
  let '(m, fcnt, s3) :=
    match s2 with
    | String "." t => Stdio.digits t ip 0
    | _ => (ip, 0, s2)
    end in
  if icnt + fcnt =? 0 then Some (S754_zero false)
  else
    match s3 with
    | String c t =>
        if (Ascii.eqb c "e" || Ascii.eqb c "E")%bool then
          let '(eneg, t1) := Stdio.sign t in
          let '(ev, ecnt, _) := Stdio.digits t1 0 0 in
          if ecnt =? 0 then Some (F32.of_decimal neg m (- fcnt))
          else Some (F32.of_decimal neg m
                       ((if eneg then - ev else ev) - fcnt))
        else Some (F32.of_decimal neg m (- fcnt))
    | EmptyString => Some (F32.of_decimal neg m (- fcnt))
    end.

Definition from_library {A} (v : option A) : outcome A :=
  match v with
  | Some a => Done a
  | None => Unmodelled
  end.

(** A [double] constant written [n * 10^e10], and its conversion to
    [float]. *)
Definition double_constant (n : positive) (e10 : Z) : spec_float :=
  if 0 <=? e10 then binary_normalize 53 1024 (Zpos n * 10 ^ e10) 0 false
  else
    let '(q, e, l) := SFdiv_core_binary 53 1024 (Zpos n) 0 (10 ^ (- e10)) 0 in
    binary_round_aux 53 1024 false q e l.

Definition to_float (d : spec_float) : float :=
  match d with
  | S754_finite s m e =>
      binary_normalize F32.prec F32.emax (cond_Zopp s (Zpos m)) e s
  | other => other
  end.

Definition MAX_FILE_NAME_LENGTH : nat := 200.

Definition DEFAULT_START_RANGE : float := to_float (double_constant 12 (-2)).
Definition DEFAULT_LENGTH_RANGE : float := to_float (double_constant 48 (-2)).
Definition DEFAULT_CALIBRATION_FILE_NAME : string := "parking.cal".
Definition DEFAULT_SENSOR : Z := 1.
Definition NBR_OF_SWEEPS : Z := 1.
Definition FREQUENCY : Z := 100.
Definition DEFAULT_DELAY : Z := 10.

Definition EXIT_SUCCESS : Z := 0.
Definition EXIT_FAILURE : Z := 1.

Definition set_radar_config (c : app_configuration_t)
  (r : radar_configuration_t) : app_configuration_t :=
  {| calibrate := calibrate c;
     read_calibration_file := read_calibration_file c;
     radar_config := r;
     loglevel := loglevel c;
     calibration_file_name := calibration_file_name c;
     time_delay := time_delay c;
     delay := delay c |}.

(** [sensor] holds the [int] that was assigned, before its conversion to
    [acc_sensor_t], a type of the service's headers. *)
Definition set_sensor (c : app_configuration_t) (v : Z) : app_configuration_t :=
  set_radar_config c
    {| start_range := start_range (radar_config c);
       length_range := length_range (radar_config c);
       nbr_of_sweeps := nbr_of_sweeps (radar_config c);
       frequency := frequency (radar_config c);
       sensor := v |}.

Definition set_calibrate (c : app_configuration_t) (v : bool)
  : app_configuration_t :=
  {| calibrate := v;
     read_calibration_file := read_calibration_file c;
     radar_config := radar_config c;
     loglevel := loglevel c;
     calibration_file_name := calibration_file_name c;
     time_delay := time_delay c;
     delay := delay c |}.

Definition set_calibration_file (c : app_configuration_t) (name : string)
  : app_configuration_t :=
  {| calibrate := calibrate c;
     read_calibration_file := true;
     radar_config := radar_config c;
     loglevel := loglevel c;
     calibration_file_name := name;
     time_delay := time_delay c;
     delay := delay c |}.

Definition set_delay (c : app_configuration_t) (seconds : Z)
  : app_configuration_t :=
  {| calibrate := calibrate c;
     read_calibration_file := read_calibration_file c;
     radar_config := radar_config c;
     loglevel := loglevel c;
     calibration_file_name := calibration_file_name c;
     time_delay := seconds;
     delay := true |}.

Definition set_loglevel (c : app_configuration_t) (level : Z)
  : app_configuration_t :=
  {| calibrate := calibrate c;
     read_calibration_file := read_calibration_file c;
     radar_config := radar_config c;
     loglevel := level;
     calibration_file_name := calibration_file_name c;
     time_delay := time_delay c;
     delay := delay c |}.

(** [strncpy(dst, src, n); dst[n] = 0]: the first [n] characters of
    [src]. *)
Definition strncpy (src : string) (n : nat) : string := substring 0 n src.

(** How [parse_options] ends: it returns with the configuration, or it has
    printed the usage and called [exit(0)]. *)
Inductive parsed : Type :=
| Parsed (app_config : app_configuration_t)
| Usage.

(** How [main] ends. *)
Inductive finished : Type :=
| UsagePrinted
    (* [parse_options] has called [exit(0)] *)
| CalibrationDone (files : string -> option string)
    (* the calibration file is written; [return EXIT_SUCCESS] *)
| NoCalibrationFile
    (* "Please specify calibration file.", the usage,
       [exit(EXIT_FAILURE)] *)
| Detected (trace : list event) (car : bool).
    (* what [get_detection] printed and slept, then "Car detected." when
       [car] and "Nothing detected." otherwise; [return EXIT_SUCCESS] *)

Section Program.

(** The two log levels of [acc_log.h] the program uses. *)
Variables ACC_LOG_LEVEL_ERROR ACC_LOG_LEVEL_INFO : Z.

Definition init_configuration : app_configuration_t :=
  {| calibrate := false;
     read_calibration_file := false;
     radar_config :=
       {| start_range := DEFAULT_START_RANGE;
          length_range := DEFAULT_LENGTH_RANGE;
          nbr_of_sweeps := NBR_OF_SWEEPS;
          frequency := FREQUENCY;
          sensor := DEFAULT_SENSOR |};
     loglevel := ACC_LOG_LEVEL_ERROR;
     calibration_file_name := DEFAULT_CALIBRATION_FILE_NAME;
     time_delay := DEFAULT_DELAY;
     delay := false |}.

(** The [switch] of [parse_options] on one option. *)
Definition option_case (app_config : app_configuration_t)
  (character_code : ascii) (optarg : string) : outcome parsed :=
  match character_code with
  | "s"%char =>
      v <- from_library (atoi optarg) ;;
      Done (Parsed (set_sensor app_config v))
  | "c"%char => Done (Parsed (set_calibrate app_config true))
  | "f"%char =>
      Done (Parsed (set_calibration_file app_config
                      (strncpy optarg MAX_FILE_NAME_LENGTH)))
  | "a"%char =>
      v <- from_library (strtof optarg) ;;
      Done (Parsed (set_start_range app_config v))
  | "d"%char =>
      v <- from_library (atoi optarg) ;;
      Done (Parsed (set_delay app_config v))
  | "h"%char | "?"%char => Done Usage
  | "v"%char => Done (Parsed (set_loglevel app_config ACC_LOG_LEVEL_INFO))
  | _ => Done (Parsed app_config)
  end.

(** The [while] loop of [parse_options] over what [getopt_long] returns. *)
Fixpoint parse_options_loop (getopt_long : list (ascii * string))
  (app_config : app_configuration_t) : outcome parsed :=
  match getopt_long with
  | [] => Done (Parsed app_config)
  | (character_code, optarg) :: getopt_long' =>
      p <- option_case app_config character_code optarg ;;
      match p with
      | Parsed app_config => parse_options_loop getopt_long' app_config
      | Usage => Done Usage
      end
  end.

Definition parse_options (getopt_long : list (ascii * string))
  : outcome parsed :=
  parse_options_loop getopt_long init_configuration.

(** [main].  [acc_rss_activate] and
    [acc_service_envelope_configuration_create] tell whether the calls of
    these names succeed; [garbage] and [garbage'] are what the buffers of
    the calibration reader and of the sweeps happen to hold.  What the
    program prints besides the lines of [get_detection] and its verdict is
    left out. *)
Definition main (e : endianness) (files : string -> option string)
  (writable : string -> bool) (garbage garbage' : Z -> Z)
  (getopt_long : list (ascii * string))
  (acc_rss_activate acc_service_envelope_configuration_create : bool)
  (sensor : sensor_t) : outcome finished :=
  p <- parse_options getopt_long ;;
  match p with
  | Usage => Done UsagePrinted
  | Parsed app_config =>
      if negb acc_rss_activate
      then handle_fatal_error "acc_rss_activate() failed"
      else if negb acc_service_envelope_configuration_create
      then handle_fatal_error
             "acc_service_envelope_configuration_create() failed."
      else if calibrate app_config then
        files' <- write_calibration_data files writable garbage' sensor
                    app_config ;;
        Done (CalibrationDone files')
      else if read_calibration_file app_config then
        '(app_config, th) <-
          read_and_calculate_threshold e files garbage app_config ;;
        '(result, _, trace) <-
          get_detection garbage' sensor app_config
            (avg_calib_amp th) (avg_amp_factor th) ;;
        Done (Detected trace (result =? 1))
      else Done NoCalibrationFile
  end.

End Program.

(** The status the process ends with. *)
Definition exit_status (o : outcome finished) : option Z :=
  match o with
  | Done UsagePrinted => Some 0
  | Done (CalibrationDone _) => Some EXIT_SUCCESS
  | Done NoCalibrationFile => Some EXIT_FAILURE
  | Done (Detected _ _) => Some EXIT_SUCCESS
  | Fatal _ => Some EXIT_FAILURE
  | _ => None
  end.

(** ** Example values *)

Definition f32_0_1 : float := F32.of_decimal false 1 (-1).
Definition f32_0_5 : float := F32.of_decimal false 5 (-1).
Definition f32_0_12 : float := F32.of_decimal false 12 (-2).
Definition f32_0_48 : float := F32.of_decimal false 48 (-2).
Definition f32_0_1234567 : float := F32.of_decimal false 1234567 (-7).
Definition f32_0_123457 : float := F32.of_decimal false 123457 (-6).

Definition example_config (start length : float) (dly : bool)
  : app_configuration_t :=
  {| calibrate := false;
     read_calibration_file := true;
     radar_config :=
       {| start_range := start;
          length_range := length;
          nbr_of_sweeps := 1;
          frequency := 100;
          sensor := 1 |};
     loglevel := 0;
     calibration_file_name := "parking.cal";
     time_delay := 10;
     delay := dly |}.

Definition no_files : string -> option string := fun _ => None.
Definition zero_garbage : Z -> Z := fun _ => 0.

Definition sensor_of (sweeps : list (list Z)) : sensor_t :=
  {| sweep_configuration_available := true;
     service_created := true;
     replies := map Some sweeps |}.

(** ** Vocabulary of the specification *)

(** The two detection results, as [car_present] encodes them. *)
Definition Occupied : Z := 1.
Definition Empty : Z := 0.

(** The decision threshold of the classifier. *)
Definition threshold (avg_calib_amp avg_amp_factor : float) : float :=
  (avg_calib_amp * avg_amp_factor * F32.of_int 4)%f32.

(** [r] is the first point of [data] whose amplitude is strictly greater
    than all earlier amplitudes and not exceeded by any later one. *)
Definition first_peak (data : list Datapoint) (r : Datapoint) : Prop :=
  exists k : nat,
    (k < List.length data)%nat
    /\ r = nth k data sentinel
    /\ (forall j, (j < k)%nat ->
                  (amp (nth j data sentinel) < amp r)%f32 = true)
    /\ (forall j, (k < j < List.length data)%nat ->
                  (amp (nth j data sentinel) > amp r)%f32 = false).

(** A point with the given amplitude. *)
Definition point (d a : Z) : Datapoint :=
  {| dist := F32.of_int d; amp := F32.of_int a |}.

(** The results of classifying, one after the other, the sweeps the sensor
    is going to deliver, up to the first acquisition that fails. *)
Fixpoint classifications (app_config : app_configuration_t)
  (avg_calib_amp avg_amp_factor : float)
  (envelope_handle : acc_service_handle_t) (envelope_data : list Z)
  (data_len : Z) : list Z :=
  match envelope_handle with
  | [] => []
  | reply :: envelope_handle' =>
      match sweep_and_classify app_config avg_calib_amp avg_amp_factor
              [reply] envelope_data data_len with
      | Done (result, data_len', envelope_data', _) =>
          result :: classifications app_config avg_calib_amp avg_amp_factor
                      envelope_handle' envelope_data' data_len'
      | _ => []
      end
  end.

(** What a run prints and sleeps when its sweeps classify as [cs]: a sleep
    of [seconds] between two sweeps. *)
Definition later_sweeps (seconds : Z) (cs : list Z) : list event :=
  flat_map (fun c => [Slept seconds; Printed c]) cs.

Definition debounce_trace (seconds : Z) (cs : list Z) : list event :=
  match cs with
  | [] => []
  | c :: cs' => Printed c :: later_sweeps seconds cs'
  end.

(** The text of a calibration file kept under the default name. *)
Definition stored (content : string) : string -> option string :=
  update no_files "parking.cal" content.

(** [x] survives being printed with [%f] at the end of a line and read back
    with [%f]. *)
Definition survives_text (x : float) : Prop :=
  forall rest : string,
    Stdio.scan_float (Stdio.print_f x ++ Stdio.nl ++ rest)%string
    = Stdio.Converted x (Stdio.nl ++ rest)%string.

(** What [strtof] makes of the text [%f] prints for [x]: [x] rounded to six
    decimals, and that decimal rounded to single precision. *)
Definition six_decimals (x : float) : float :=
  match x with
  | S754_finite s m e => F32.of_decimal s (Stdio.micro_units m e) (-6)
  | _ => x
  end.

Definition is_uint16 (v : Z) : Prop := 0 <= v < 65536.

(** ** Vocabulary of rounding

    The notions in which the monotonicity of single-precision rounding is
    stated and proved. *)

Module RoundDefs.

(** [m / 2^j] rounded to the nearest integer, ties to even. *)
Definition rne (m j : Z) : Z :=
  let q := m / 2 ^ j in
  let r := m mod 2 ^ j in
  if 2 * r <? 2 ^ j then q
  else if 2 ^ j <? 2 * r then q + 1
  else if Z.even q then q else q + 1.

(** The state of the shifter after [j] steps from an exact [m]: the
    quotient, and where the remainder lies in its interval. *)
Definition shifted (m : Z) (j : nat) (st : shr_record) : Prop :=
  exists q r : Z,
    m = 2 ^ Z.of_nat j * q + r /\ 0 <= r < 2 ^ Z.of_nat j /\ 0 <= q
    /\ shr_m st = q
    /\ (shr_r st = true <-> 2 ^ Z.of_nat j <= 2 * r)
    /\ (shr_s st = true <-> (r <> 0 /\ 2 * r <> 2 ^ Z.of_nat j)).

(** The last step of [binary_round_aux]: the rounded mantissa [q] at exponent
    [f] is brought back into the format and checked for overflow. *)
Definition finish (s : bool) (q f : Z) : float :=
  let '(mrs, e) := shr_fexp F32.prec F32.emax q f loc_Exact in
  match shr_m mrs with
  | Z0 => S754_zero s
  | Zpos m => if e <=? F32.emax - F32.prec then S754_finite s m e
              else S754_infinity s
  | Zneg _ => S754_nan
  end.

(** How far [binary_round_aux] shifts an exact [m] at exponent [e]. *)
Definition shift_of (m e : Z) : Z :=
  Z.max 0 (fexp F32.prec F32.emax (Zdigits2 m + e) - e).

(** The exponent the format gives to the magnitude of [m * 2^e]. *)
Definition target (m e : Z) : Z := Z.max (Zdigits2 m + e - 24) (-149).

(** [m * 2^e] has at least the digits the format keeps at its magnitude:
    rounding it only shifts to the right. *)
Definition wide (m e : Z) : Prop := 0 < m /\ e <= target m e.

(** The mantissa before the final normalisation. *)
Definition rounded (m e : Z) : Z := rne m (target m e - e).

(** [m1 * 2^e1 <= m2 * 2^e2], on the common exponent of the two. *)
Definition le_scaled (m1 e1 m2 e2 : Z) : Prop :=
  m1 * 2 ^ (e1 - Z.min e1 e2) <= m2 * 2 ^ (e2 - Z.min e1 e2).

Definition zero : float := S754_zero false.

(** The non-negative numbers of the format: +0, the positive floats of the
    format and +infinity. *)
Definition nonneg_valid (x : float) : bool :=
  match x with
  | S754_zero false | S754_infinity false => true
  | S754_finite false m e => F32.valid x
  | _ => false
  end.

(** +0, a positive finite value or +infinity. *)
Definition plus_shape (x : float) : bool :=
  match x with
  | S754_zero false | S754_finite false _ _ | S754_infinity false => true
  | _ => false
  end.

End RoundDefs.

(** ** Vocabulary of the further properties *)

(** The sum of the samples of a sweep. *)
Definition total (samples : list Z) : Z := fold_right Z.add 0 samples.

(** The largest sample of a sweep; -1, the amplitude of the sentinel, when
    the sweep has no samples. *)
Definition peak_sample (samples : list Z) : Z := fold_left Z.max samples (-1).

(** The sweeps as the detection loop looks at them: each cut to the length
    of the shortest sweep so far, [d] being the length to begin with. *)
Fixpoint cut (d : nat) (sweeps : list (list Z)) : list (list Z) :=
  match sweeps with
  | [] => []
  | samples :: sweeps' =>
      let d' := Nat.min (List.length samples) d in
      firstn d' samples :: cut d' sweeps'
  end.

(** The argument of the last option with the character code [code] that
    [getopt_long] returns, if there is one. *)
Fixpoint last_option (code : ascii) (getopt_long : list (ascii * string))
  : option string :=
  match getopt_long with
  | [] => None
  | (character_code, optarg) :: getopt_long' =>
      match last_option code getopt_long' with
      | Some optarg' => Some optarg'
      | None => if Ascii.eqb character_code code then Some optarg else None
      end
  end.

(** Whether an option with the character code [code] is returned. *)
Definition has_option (code : ascii) (getopt_long : list (ascii * string))
  : bool :=
  existsb (fun o => Ascii.eqb (fst o) code) getopt_long.

(** The configuration [app_config'] is [app_config] with the options
    applied that [getopt_long] returns: each flag is set when its option
    occurs, each value is that of the last option that sets it, and what
    no option sets is as it was.  [level] is the log level of the verbose
    option. *)
Definition options_applied (level : Z) (app_config : app_configuration_t)
  (getopt_long : list (ascii * string)) (app_config' : app_configuration_t)
  : Prop :=
  calibrate app_config' = (calibrate app_config || has_option "c" getopt_long)%bool
  /\ read_calibration_file app_config'
     = (read_calibration_file app_config || has_option "f" getopt_long)%bool
  /\ calibration_file_name app_config'
     = match last_option "f" getopt_long with
       | Some optarg => substring 0 200 optarg
       | None => calibration_file_name app_config
       end
  /\ match last_option "a" getopt_long with
     | Some optarg =>
         strtof optarg = Some (start_range (radar_config app_config'))
     | None =>
         start_range (radar_config app_config')
         = start_range (radar_config app_config)
     end
  /\ length_range (radar_config app_config')
     = length_range (radar_config app_config)
  /\ nbr_of_sweeps (radar_config app_config')
     = nbr_of_sweeps (radar_config app_config)
  /\ frequency (radar_config app_config') = frequency (radar_config app_config)
  /\ match last_option "s" getopt_long with
     | Some optarg => atoi optarg = Some (sensor (radar_config app_config'))
     | None =>
         sensor (radar_config app_config') = sensor (radar_config app_config)
     end
  /\ delay app_config' = (delay app_config || has_option "d" getopt_long)%bool
  /\ match last_option "d" getopt_long with
     | Some optarg => atoi optarg = Some (time_delay app_config')
     | None => time_delay app_config' = time_delay app_config
     end
  /\ loglevel app_config'
     = (if has_option "v" getopt_long then level else loglevel app_config).

(** The message of a failed acquisition. *)
Definition acquisition_failed : string :=
  "acc_service_envelope_get_next() failed.".

(** * Properties *)

(** ** The order of single-precision values *)

Module F32Facts.

Lemma compare_cont_is_compare (m1 m2 : positive) :
  Pos.compare_cont Eq m1 m2 = Pos.compare m1 m2.
Proof. reflexivity. Qed.

Ltac order_cases :=
  repeat match goal with
         | |- context [Pos.compare_cont Eq ?a ?b] =>
             rewrite (compare_cont_is_compare a b)
         | H : context [Pos.compare_cont Eq ?a ?b] |- _ =>
             rewrite (compare_cont_is_compare a b) in H
         end;
  repeat match goal with
         | |- context [Z.compare ?a ?b] =>
             destruct (Z.compare_spec a b); subst
         | H : context [Z.compare ?a ?b] |- _ =>
             destruct (Z.compare_spec a b); subst
         | |- context [Pos.compare ?a ?b] =>
             destruct (Pos.compare_spec a b); subst
         | H : context [Pos.compare ?a ?b] |- _ =>
             destruct (Pos.compare_spec a b); subst
         end;
  simpl in *; try reflexivity; try discriminate; try lia.

Ltac by_cases x := destruct x as [[|]|[|]| |[|] ? ?].

(** On values that are not NaN, [<=] is the negation of [>]. *)
Lemma le_not_gt (a b : float) :
  F32.is_nan a = false -> F32.is_nan b = false ->
  F32.le a b = negb (F32.gt a b).
Proof.
  unfold F32.le, F32.gt, SFleb, SFltb.
  by_cases a; by_cases b; simpl; intros; try reflexivity; try discriminate;
    order_cases.
Qed.

Lemma lt_le (a b : float) : F32.lt a b = true -> F32.le a b = true.
Proof.
  unfold F32.lt, F32.le, SFltb, SFleb.
  destruct (SFcompare a b) as [[ | | ]|]; intros; try reflexivity;
    discriminate.
Qed.

Lemma lt_not_nan (a b : float) :
  F32.lt a b = true -> F32.is_nan a = false /\ F32.is_nan b = false.
Proof.
  unfold F32.lt, SFltb.
  by_cases a; by_cases b; simpl; intros; try discriminate; split; reflexivity.
Qed.

Lemma le_not_nan (a b : float) :
  F32.le a b = true -> F32.is_nan a = false /\ F32.is_nan b = false.
Proof.
  unfold F32.le, SFleb.
  by_cases a; by_cases b; simpl; intros; try discriminate; split; reflexivity.
Qed.

Lemma le_refl (a : float) : F32.is_nan a = false -> F32.le a a = true.
Proof.
  unfold F32.le, SFleb.
  by_cases a; simpl; intros; try reflexivity; try discriminate;
    rewrite Z.compare_refl, compare_cont_is_compare, Pos.compare_refl;
    reflexivity.
Qed.

Lemma le_trans (a b c : float) :
  F32.le a b = true -> F32.le b c = true -> F32.le a c = true.
Proof.
  unfold F32.le, SFleb.
  by_cases a; by_cases b; simpl; intros; try reflexivity; try discriminate;
    by_cases c; simpl in *; try reflexivity; try discriminate; order_cases.
Qed.

Lemma lt_trans (a b c : float) :
  F32.lt a b = true -> F32.lt b c = true -> F32.lt a c = true.
Proof.
  unfold F32.lt, SFltb.
  by_cases a; by_cases b; simpl; intros; try reflexivity; try discriminate;
    by_cases c; simpl in *; try reflexivity; try discriminate; order_cases.
Qed.

Lemma le_lt_trans (a b c : float) :
  F32.le a b = true -> F32.lt b c = true -> F32.lt a c = true.
Proof.
  unfold F32.le, F32.lt, SFleb, SFltb.
  by_cases a; by_cases b; simpl; intros; try reflexivity; try discriminate;
    by_cases c; simpl in *; try reflexivity; try discriminate; order_cases.
Qed.

Lemma lt_le_trans (a b c : float) :
  F32.lt a b = true -> F32.le b c = true -> F32.lt a c = true.
Proof.
  unfold F32.le, F32.lt, SFleb, SFltb.
  by_cases a; by_cases b; simpl; intros; try reflexivity; try discriminate;
    by_cases c; simpl in *; try reflexivity; try discriminate; order_cases.
Qed.

End F32Facts.

(** ** Rounding never produces a NaN *)

Module Rounding.

Lemma shr_1_nonneg (mrs : shr_record) :
  0 <= shr_m mrs -> 0 <= shr_m (shr_1 mrs).
Proof.
  destruct mrs as [m r s]; simpl.
  destruct m as [|p|p]; try destruct p; simpl; lia.
Qed.

Lemma iter_shr_1_nonneg (p : positive) :
  forall mrs, 0 <= shr_m mrs -> 0 <= shr_m (iter_pos shr_1 p mrs).
Proof.
  induction p as [p IH|p IH|]; simpl; intros mrs H.
  - apply IH, IH, shr_1_nonneg, H.
  - apply IH, IH, H.
  - apply shr_1_nonneg, H.
Qed.

Lemma shr_nonneg (mrs : shr_record) (e n : Z) :
  0 <= shr_m mrs -> 0 <= shr_m (fst (shr mrs e n)).
Proof.
  intros H. destruct n; simpl; try assumption.
  apply iter_shr_1_nonneg, H.
Qed.

Lemma shr_fexp_nonneg (m e : Z) (l : location) :
  0 <= m -> 0 <= shr_m (fst (shr_fexp F32.prec F32.emax m e l)).
Proof.
  intros H. unfold shr_fexp. apply shr_nonneg.
  destruct l as [|[ | | ]]; simpl; assumption.
Qed.

Lemma round_nearest_even_nonneg (m : Z) (l : location) :
  0 <= m -> 0 <= round_nearest_even m l.
Proof.
  intros H. destruct l as [|[ | | ]]; simpl; try lia.
  destruct (Z.even m); lia.
Qed.

Lemma binary_round_aux_not_nan (s : bool) (m e : Z) (l : location) :
  0 <= m ->
  F32.is_nan (binary_round_aux F32.prec F32.emax s m e l) = false.
Proof.
  intros H. unfold binary_round_aux.
  pose proof (shr_fexp_nonneg m e l H) as H1.
  destruct (shr_fexp F32.prec F32.emax m e l) as [mrs1 e1]; simpl in H1.
  pose proof (shr_fexp_nonneg
                (round_nearest_even (shr_m mrs1) (loc_of_shr_record mrs1))
                e1 loc_Exact
                (round_nearest_even_nonneg _ _ H1)) as H2.
  destruct (shr_fexp F32.prec F32.emax _ e1 loc_Exact) as [mrs2 e2];
    simpl in H2.
  destruct (shr_m mrs2) as [|p|p]; try reflexivity; try lia.
  destruct (e2 <=? F32.emax - F32.prec); reflexivity.
Qed.

(** The product of two finite values is a number: zero, finite, or an
    infinity when it overflows. *)
Lemma mul_finite_not_nan (a b : float) :
  F32.is_finite a = true -> F32.is_finite b = true ->
  F32.is_nan (F32.mul a b) = false.
Proof.
  destruct a as [sa|sa| |sa ma ea]; destruct b as [sb|sb| |sb mb eb];
    simpl; intros; try reflexivity; try discriminate.
  apply binary_round_aux_not_nan. lia.
Qed.

(** So is the product of a number and a non-zero finite value. *)
Lemma mul_number_not_nan (a : float) (s : bool) (m : positive) (e : Z) :
  F32.is_nan a = false ->
  F32.is_nan (F32.mul a (S754_finite s m e)) = false.
Proof.
  destruct a as [sa|sa| |sa ma ea]; simpl; intros;
    try reflexivity; try discriminate.
  apply binary_round_aux_not_nan. lia.
Qed.

Lemma finite_not_nan (a : float) :
  F32.is_finite a = true -> F32.is_nan a = false.
Proof. destruct a; simpl; intros; try reflexivity; discriminate. Qed.

(** Rounding a non-negative magnitude under the positive sign gives a
    number that is at least zero. *)
Lemma binary_round_aux_nonnegative (m e : Z) (l : location) :
  0 <= m ->
  F32.le (F32.of_int 0) (binary_round_aux F32.prec F32.emax false m e l)
  = true.
Proof.
  intros H. unfold binary_round_aux.
  pose proof (shr_fexp_nonneg m e l H) as H1.
  destruct (shr_fexp F32.prec F32.emax m e l) as [mrs1 e1]; simpl in H1.
  pose proof (shr_fexp_nonneg
                (round_nearest_even (shr_m mrs1) (loc_of_shr_record mrs1))
                e1 loc_Exact
                (round_nearest_even_nonneg _ _ H1)) as H2.
  destruct (shr_fexp F32.prec F32.emax _ e1 loc_Exact) as [mrs2 e2];
    simpl in H2.
  destruct (shr_m mrs2) as [|p|p]; try reflexivity; try lia.
  destruct (e2 <=? F32.emax - F32.prec); reflexivity.
Qed.

(** The conversion of a non-negative integer is at least zero. *)
Lemma of_int_nonnegative (z : Z) :
  0 <= z -> F32.le (F32.of_int 0) (F32.of_int z) = true.
Proof.
  intros H. destruct z as [|p|p]; [reflexivity| |lia].
  unfold F32.of_int, binary_normalize, binary_round.
  destruct (shl_align p 0 _) as [mz ez].
  apply binary_round_aux_nonnegative. lia.
Qed.

End Rounding.

(** ** Rounding to nearest is monotone *)

Module Digits.

Import RoundDefs.

(** The number of binary digits of a positive number. *)
Lemma digits2_pos_bounds (p : positive) :
  2 ^ (Zpos (digits2_pos p) - 1) <= Zpos p < 2 ^ Zpos (digits2_pos p).
Proof.
  induction p as [p IH|p IH|]; cbn [digits2_pos].
  - rewrite Pos2Z.inj_succ.
    replace (Z.succ (Zpos (digits2_pos p)) - 1)
      with (Z.succ (Zpos (digits2_pos p) - 1)) by lia.
    rewrite !Z.pow_succ_r by lia. lia.
  - rewrite Pos2Z.inj_succ.
    replace (Z.succ (Zpos (digits2_pos p)) - 1)
      with (Z.succ (Zpos (digits2_pos p) - 1)) by lia.
    rewrite !Z.pow_succ_r by lia. lia.
  - simpl. lia.
Qed.

Lemma Zdigits2_bounds (m : Z) :
  0 < m -> 2 ^ (Zdigits2 m - 1) <= m < 2 ^ Zdigits2 m.
Proof.
  destruct m as [|p|p]; intros H; try lia. apply digits2_pos_bounds.
Qed.

Lemma Zdigits2_pos (m : Z) : 0 < m -> 0 < Zdigits2 m.
Proof. destruct m; simpl; lia. Qed.

Lemma Zdigits2_unique (m d : Z) :
  2 ^ (d - 1) <= m < 2 ^ d -> 0 < d -> Zdigits2 m = d.
Proof.
  intros H Hd.
  assert (Hm : 0 < m) by (pose proof (Z.pow_pos_nonneg 2 (d - 1)); lia).
  pose proof (Zdigits2_bounds m Hm) as Hb.
  pose proof (Zdigits2_pos m Hm) as Hp.
  destruct (Z.lt_trichotomy (Zdigits2 m) d) as [Hlt|[Heq|Hgt]];
    [exfalso|exact Heq|exfalso].
  - assert (2 ^ Zdigits2 m <= 2 ^ (d - 1))
      by (apply Z.pow_le_mono_r; lia). lia.
  - assert (2 ^ d <= 2 ^ (Zdigits2 m - 1))
      by (apply Z.pow_le_mono_r; lia). lia.
Qed.

Lemma Zdigits2_mono (m1 m2 : Z) :
  0 < m1 <= m2 -> Zdigits2 m1 <= Zdigits2 m2.
Proof.
  intros H.
  pose proof (Zdigits2_bounds m1 ltac:(lia)) as H1.
  pose proof (Zdigits2_bounds m2 ltac:(lia)) as H2.
  pose proof (Zdigits2_pos m1 ltac:(lia)) as P1.
  destruct (Z_le_gt_dec (Zdigits2 m1) (Zdigits2 m2)) as [Hle|Hgt];
    [exact Hle|exfalso].
  assert (2 ^ Zdigits2 m2 <= 2 ^ (Zdigits2 m1 - 1))
    by (apply Z.pow_le_mono_r; lia). lia.
Qed.

Lemma Zdigits2_mul_pow2 (m k : Z) :
  0 < m -> 0 <= k -> Zdigits2 (m * 2 ^ k) = Zdigits2 m + k.
Proof.
  intros Hm Hk.
  pose proof (Zdigits2_bounds m Hm) as Hb.
  pose proof (Zdigits2_pos m Hm) as Hp.
  apply Zdigits2_unique; [|lia].
  replace (Zdigits2 m + k - 1) with (Zdigits2 m - 1 + k) by lia.
  rewrite !Z.pow_add_r by lia.
  pose proof (Z.pow_pos_nonneg 2 k). nia.
Qed.

End Digits.

Module Nearest.

Import RoundDefs Digits.

Lemma rne_cases (m j : Z) :
  0 <= j ->
  exists q r : Z,
    m = 2 ^ j * q + r /\ 0 <= r < 2 ^ j
    /\ ((2 * r < 2 ^ j /\ rne m j = q)
        \/ (2 ^ j < 2 * r /\ rne m j = q + 1)
        \/ (2 * r = 2 ^ j /\ Z.even q = true /\ rne m j = q)
        \/ (2 * r = 2 ^ j /\ Z.even q = false /\ rne m j = q + 1)).
Proof.
  intros Hj. pose proof (Z.pow_pos_nonneg 2 j ltac:(lia) Hj) as HP.
  exists (m / 2 ^ j), (m mod 2 ^ j).
  split; [apply Z.div_mod; lia|].
  split; [apply Z.mod_pos_bound; lia|].
  unfold rne.
  destruct (Z.ltb_spec (2 * (m mod 2 ^ j)) (2 ^ j)); [left; split; [lia|reflexivity]|].
  destruct (Z.ltb_spec (2 ^ j) (2 * (m mod 2 ^ j)));
    [right; left; split; [lia|reflexivity]|].
  destruct (Z.even (m / 2 ^ j)) eqn:E;
    [right; right; left | right; right; right]; repeat split; lia.
Qed.

Lemma quotient_unique (P q1 r1 q2 r2 : Z) :
  0 < P -> 0 <= r1 < P -> 0 <= r2 < P ->
  P * q1 + r1 = P * q2 + r2 -> q1 = q2 /\ r1 = r2.
Proof. intros. assert (q1 = q2) by nia. subst. lia. Qed.

Lemma quotient_le (P q1 r1 q2 r2 : Z) :
  0 < P -> 0 <= r1 < P -> 0 <= r2 < P ->
  P * q1 + r1 <= P * q2 + r2 -> q1 < q2 \/ (q1 = q2 /\ r1 <= r2).
Proof. intros. assert (q1 <= q2) by nia. destruct (Z.eq_dec q1 q2); [right; subst; lia|left; lia]. Qed.

Lemma rne_mono (m1 m2 j : Z) :
  0 <= j -> m1 <= m2 -> rne m1 j <= rne m2 j.
Proof.
  intros Hj Hm. pose proof (Z.pow_pos_nonneg 2 j ltac:(lia) Hj) as HP.
  destruct (rne_cases m1 j Hj) as (q1 & r1 & E1 & B1 & C1).
  destruct (rne_cases m2 j Hj) as (q2 & r2 & E2 & B2 & C2).
  destruct (quotient_le (2 ^ j) q1 r1 q2 r2 HP B1 B2 ltac:(lia))
    as [Hlt|[-> Hr]].
  - destruct C1 as [[_ ->]|[[_ ->]|[(_ & _ & ->)|(_ & _ & ->)]]];
      destruct C2 as [[_ ->]|[[_ ->]|[(_ & _ & ->)|(_ & _ & ->)]]]; lia.
  - destruct C1 as [[? ->]|[[? ->]|[(? & ? & ->)|(? & ? & ->)]]];
      destruct C2 as [[? ->]|[[? ->]|[(? & ? & ->)|(? & ? & ->)]]];
      try lia; congruence.
Qed.

Lemma rne_exact (n j : Z) : 0 <= j -> rne (n * 2 ^ j) j = n.
Proof.
  intros Hj. pose proof (Z.pow_pos_nonneg 2 j ltac:(lia) Hj) as HP.
  destruct (rne_cases (n * 2 ^ j) j Hj) as (q & r & E & B & C).
  destruct (quotient_unique (2 ^ j) n 0 q r HP ltac:(lia) B ltac:(lia))
    as [-> <-].
  destruct C as [[? ->]|[[? ->]|[(? & ? & ->)|(? & ? & ->)]]]; lia.
Qed.

Lemma rne_0 (m : Z) : rne m 0 = m.
Proof. rewrite <- (rne_exact m 0) at 2 by lia. rewrite Z.pow_0_r, Z.mul_1_r. reflexivity. Qed.

Lemma rne_ge (m n j : Z) : 0 <= j -> n * 2 ^ j <= m -> n <= rne m j.
Proof.
  intros Hj H. rewrite <- (rne_exact n j Hj). apply rne_mono; assumption.
Qed.

Lemma rne_le (m n j : Z) : 0 <= j -> m <= n * 2 ^ j -> rne m j <= n.
Proof.
  intros Hj H. rewrite <- (rne_exact n j Hj). apply rne_mono; assumption.
Qed.

Lemma rne_scale (m i j : Z) :
  0 <= i -> 0 <= j -> rne (m * 2 ^ i) (j + i) = rne m j.
Proof.
  intros Hi Hj.
  pose proof (Z.pow_pos_nonneg 2 j ltac:(lia) Hj) as HP.
  pose proof (Z.pow_pos_nonneg 2 i ltac:(lia) Hi) as HQ.
  destruct (rne_cases m j Hj) as (q & r & E & B & C).
  destruct (rne_cases (m * 2 ^ i) (j + i) ltac:(lia)) as (q' & r' & E' & B' & C').
  rewrite Z.pow_add_r in * by lia.
  destruct (quotient_unique (2 ^ j * 2 ^ i) q (r * 2 ^ i) q' r'
              ltac:(nia) ltac:(nia) B' ltac:(nia)) as [<- <-].
  destruct C as [[? ->]|[[? ->]|[(? & ? & ->)|(? & ? & ->)]]];
    destruct C' as [[? ->]|[[? ->]|[(? & ? & ->)|(? & ? & ->)]]];
    try reflexivity; try nia; congruence.
Qed.

Lemma rne_nonneg (m j : Z) : 0 <= j -> 0 <= m -> 0 <= rne m j.
Proof. intros Hj Hm. apply rne_ge; [exact Hj|lia]. Qed.

End Nearest.

Module Shift.

Import RoundDefs Digits Nearest.

Lemma iter_pos_nat {A} (f : A -> A) (p : positive) :
  forall x, iter_pos f p x = Nat.iter (Pos.to_nat p) f x.
Proof.
  induction p as [p IH|p IH|]; intros x; cbn [iter_pos].
  - rewrite !IH, Pos2Nat.inj_xI, <- Nat.iter_add.
    replace (2 * Pos.to_nat p)%nat with (Pos.to_nat p + Pos.to_nat p)%nat
      by lia.
    rewrite <- Nat.iter_succ_r. reflexivity.
  - rewrite !IH, Pos2Nat.inj_xO, <- Nat.iter_add.
    replace (2 * Pos.to_nat p)%nat with (Pos.to_nat p + Pos.to_nat p)%nat
      by lia.
    reflexivity.
  - reflexivity.
Qed.

Lemma shr_1_shifted (m : Z) (j : nat) (st : shr_record) :
  shifted m j st -> shifted m (S j) (shr_1 st).
Proof.
  intros (q & r & E & B & Hq & Hm & Hr & Hs). unfold shifted.
  rewrite Nat2Z.inj_succ, Z.pow_succ_r by lia.
  pose proof (Z.pow_pos_nonneg 2 (Z.of_nat j) ltac:(lia) ltac:(lia)) as HP.
  set (P := 2 ^ Z.of_nat j) in *.
  destruct st as [m0 r0 s0]. cbn [shr_m shr_r shr_s] in *. subst m0.
  assert (Hor : orb r0 s0 = true <-> r <> 0).
  { rewrite orb_true_iff, Hr, Hs. lia. }
  assert (Hfin : forall q' r' b,
             m = 2 * P * q' + r' -> 0 <= r' < 2 * P -> 0 <= q' ->
             (b = true <-> 2 * P <= 2 * r') ->
             (r <> 0 <-> r' <> 0 /\ 2 * r' <> 2 * P) ->
             exists q0 r1,
               m = 2 * P * q0 + r1 /\ 0 <= r1 < 2 * P /\ 0 <= q0
               /\ q' = q0
               /\ (b = true <-> 2 * P <= 2 * r1)
               /\ (orb r0 s0 = true <-> r1 <> 0 /\ 2 * r1 <> 2 * P)).
  { intros q' r' b H1 H2 H3 H4 H5. exists q', r'.
    rewrite Hor. repeat split; try lia; try apply H4; try apply H5; tauto. }
  destruct q as [|[p|p|]|p]; cbn [shr_1 shr_m shr_r shr_s]; try lia.
  - apply (Hfin 0 r false); try lia; split; intros; try discriminate; lia.
  - apply (Hfin (Zpos p) (r + P) true); try lia; split; intros; try reflexivity; lia.
  - apply (Hfin (Zpos p) r false); try lia; split; intros; try discriminate; lia.
  - apply (Hfin 0 (r + P) true); try lia; split; intros; try reflexivity; lia.
Qed.

Lemma iter_shifted (m : Z) (j : nat) :
  0 <= m ->
  shifted m j (Nat.iter j shr_1 (Build_shr_record m false false)).
Proof.
  intros Hm. induction j as [|j IH].
  - exists m, 0. cbn [shr_m shr_r shr_s]. change (2 ^ Z.of_nat 0) with 1.
    repeat split; try lia; intros; try discriminate; exfalso; lia.
  - cbn [Nat.iter nat_rect]. apply shr_1_shifted, IH.
Qed.

(** Shifting an exact [m] right by [j] places and rounding what is left. *)
Lemma round_shifted (m : Z) (j : nat) (st : shr_record) :
  shifted m j st ->
  shr_m st = m / 2 ^ Z.of_nat j
  /\ round_nearest_even (shr_m st) (loc_of_shr_record st) = rne m (Z.of_nat j).
Proof.
  intros (q & r & E & B & Hq & Hm & Hr & Hs).
  pose proof (Z.pow_pos_nonneg 2 (Z.of_nat j) ltac:(lia) ltac:(lia)) as HP.
  destruct (rne_cases m (Z.of_nat j) ltac:(lia)) as (q' & r' & E' & B' & C).
  destruct (quotient_unique _ q r q' r' HP B B' ltac:(lia)) as [<- <-].
  split.
  - rewrite Hm. apply Z.div_unique with r; [lia|exact E].
  - destruct st as [m0 r0 s0]. cbn [shr_m shr_r shr_s] in *. subst m0.
    destruct r0, s0; cbn [loc_of_shr_record round_nearest_even];
      destruct C as [[? ->]|[[? ->]|[(? & He & ->)|(? & He & ->)]]];
      try rewrite He; try reflexivity;
      try (exfalso; destruct Hr as [Hr1 Hr2]; destruct Hs as [Hs1 Hs2];
           first [ specialize (Hr1 eq_refl); lia
                 | specialize (Hs1 eq_refl); lia
                 | assert (false = true) by (apply Hr2; lia); discriminate
                 | assert (false = true) by (apply Hs2; lia); discriminate ]).
Qed.

Lemma shr_exact (m e n : Z) :
  0 <= m -> 0 <= n ->
  let st := fst (shr (Build_shr_record m false false) e n) in
  snd (shr (Build_shr_record m false false) e n) = e + n
  /\ shr_m st = m / 2 ^ n
  /\ round_nearest_even (shr_m st) (loc_of_shr_record st) = rne m n.
Proof.
  intros Hm Hn. destruct n as [|p|p]; [| |lia]; cbn [shr fst snd].
  - rewrite Z.add_0_r, Z.pow_0_r, Z.div_1_r, rne_0. repeat split.
  - rewrite iter_pos_nat.
    pose proof (round_shifted m (Pos.to_nat p) _ (iter_shifted m _ Hm)) as H.
    rewrite positive_nat_Z in H. split; [reflexivity|exact H].
Qed.

End Shift.

Module RoundExact.

Import RoundDefs Digits Nearest Shift.

(** The exponent of the format at magnitude [x]. *)
Lemma fexp_eq (x : Z) : fexp F32.prec F32.emax x = Z.max (x - 24) (-149).
Proof. reflexivity. Qed.

Lemma shr_fexp_exact (m e : Z) :
  0 <= m ->
  let st := fst (shr_fexp F32.prec F32.emax m e loc_Exact) in
  snd (shr_fexp F32.prec F32.emax m e loc_Exact) = e + shift_of m e
  /\ shr_m st = m / 2 ^ shift_of m e
  /\ round_nearest_even (shr_m st) (loc_of_shr_record st)
     = rne m (shift_of m e).
Proof.
  intros Hm. unfold shr_fexp, shift_of. cbn [shr_record_of_loc].
  set (n := fexp F32.prec F32.emax (Zdigits2 m + e) - e).
  destruct (Z_le_gt_dec 0 n) as [Hn|Hn].
  - rewrite Z.max_r by lia. apply shr_exact; assumption.
  - rewrite Z.max_l by lia. destruct n as [|p|p]; try lia.
    cbn [shr fst snd round_nearest_even loc_of_shr_record shr_m shr_r shr_s].
    rewrite Z.add_0_r, Z.pow_0_r, Z.div_1_r, rne_0. repeat split.
Qed.

(** [binary_round_aux] on an exact value: shift, round to nearest even,
    finish. *)
Lemma binary_round_aux_exact (s : bool) (m e : Z) :
  0 <= m ->
  binary_round_aux F32.prec F32.emax s m e loc_Exact
  = finish s (rne m (shift_of m e)) (e + shift_of m e).
Proof.
  intros Hm. unfold binary_round_aux, finish.
  destruct (shr_fexp_exact m e Hm) as (He & _ & Hr).
  destruct (shr_fexp F32.prec F32.emax m e loc_Exact) as [mrs1 e1].
  cbn [fst snd] in *. rewrite Hr, He. reflexivity.
Qed.

Lemma finish_eq (s : bool) (q f : Z) :
  0 <= q ->
  finish s q f
  = match q / 2 ^ shift_of q f with
    | Z0 => S754_zero s
    | Zpos m =>
        if f + shift_of q f <=? 104 then S754_finite s m (f + shift_of q f)
        else S754_infinity s
    | Zneg _ => S754_nan
    end.
Proof.
  intros Hq. unfold finish.
  destruct (shr_fexp_exact q f Hq) as (He & Hm & _).
  destruct (shr_fexp F32.prec F32.emax q f loc_Exact) as [mrs e].
  cbn [fst snd] in *. rewrite He, Hm. reflexivity.
Qed.

End RoundExact.

Module RoundForm.

Import RoundDefs Digits Nearest Shift RoundExact.

Lemma shift_of_wide (m e : Z) : wide m e -> shift_of m e = target m e - e.
Proof. intros [Hm He]. unfold shift_of. rewrite fexp_eq. fold (target m e). lia. Qed.

Lemma pow2_24 : 2 ^ 24 = 16777216.
Proof. reflexivity. Qed.

Lemma pow2_23 : 2 ^ 23 = 8388608.
Proof. reflexivity. Qed.

Lemma pow2_split (a b : Z) : 0 <= a -> 0 <= b -> 2 ^ (a + b) = 2 ^ a * 2 ^ b.
Proof. intros. apply Z.pow_add_r; assumption. Qed.

Lemma rounded_bounds (m e : Z) :
  wide m e ->
  0 <= rounded m e <= 2 ^ 24
  /\ (-149 < target m e -> 2 ^ 23 <= rounded m e).
Proof.
  intros [Hm He]. unfold rounded.
  pose proof (Zdigits2_bounds m Hm) as Hb.
  pose proof (Zdigits2_pos m Hm) as Hd.
  set (d := Zdigits2 m) in *. set (k := target m e - e).
  assert (Hk : 0 <= k) by (unfold k; lia).
  split; [split|].
  - apply rne_nonneg; lia.
  - destruct (Z_le_gt_dec k d) as [Hkd|Hkd].
    + apply Z.le_trans with (2 ^ (d - k)).
      * apply rne_le; [exact Hk|]. rewrite <- pow2_split by lia.
        replace (d - k + k) with d by lia. lia.
      * apply Z.pow_le_mono_r; [lia|]. unfold k, target. fold d. lia.
    + apply Z.le_trans with 1; [|rewrite pow2_24; lia].
      apply rne_le; [exact Hk|].
      assert (2 ^ d <= 2 ^ k) by (apply Z.pow_le_mono_r; lia). lia.
  - intros Hn. unfold target in *. fold d in k, Hn |- *.
    assert (Hk' : k = d - 24) by (unfold k; lia).
    apply rne_ge; [exact Hk|]. rewrite <- pow2_split by lia.
    replace (23 + k) with (d - 1) by lia. lia.
Qed.

Lemma target_lower (m e : Z) : -149 <= target m e.
Proof. unfold target. lia. Qed.

Lemma shift_of_rounded (q f : Z) :
  0 < q <= 2 ^ 24 -> -149 <= f ->
  shift_of q f = if q =? 2 ^ 24 then 1 else 0.
Proof.
  intros Hq Hf. unfold shift_of. rewrite fexp_eq.
  pose proof (Zdigits2_bounds q ltac:(lia)) as Hb.
  pose proof (Zdigits2_pos q ltac:(lia)) as Hd.
  destruct (Z.eqb_spec q (2 ^ 24)) as [->|Hne].
  - replace (Zdigits2 (2 ^ 24)) with 25 by reflexivity. lia.
  - assert (Zdigits2 q <= 24).
    { destruct (Z_le_gt_dec (Zdigits2 q) 24) as [H|H]; [exact H|exfalso].
      assert (2 ^ 24 <= 2 ^ (Zdigits2 q - 1))
        by (apply Z.pow_le_mono_r; lia). lia. }
    lia.
Qed.

(** The three shapes of the result of rounding a wide exact value. *)
Lemma round_wide (s : bool) (m e : Z) :
  wide m e ->
  binary_round_aux F32.prec F32.emax s m e loc_Exact
  = if rounded m e =? 0 then S754_zero s
    else if rounded m e =? 2 ^ 24
         then if target m e + 1 <=? 104
              then S754_finite s 8388608 (target m e + 1)
              else S754_infinity s
         else if target m e <=? 104
              then S754_finite s (Z.to_pos (rounded m e)) (target m e)
              else S754_infinity s.
Proof.
  intros Hw. pose proof Hw as [Hm He].
  rewrite binary_round_aux_exact by lia.
  rewrite (shift_of_wide m e Hw).
  replace (e + (target m e - e)) with (target m e) by lia.
  fold (rounded m e).
  destruct (rounded_bounds m e Hw) as [Hq _].
  rewrite finish_eq by lia.
  destruct (Z.eqb_spec (rounded m e) 0) as [->|Hz].
  - rewrite Z.div_0_l by (apply Z.pow_nonzero; unfold shift_of; lia).
    reflexivity.
  - rewrite (shift_of_rounded (rounded m e) (target m e))
      by (try apply target_lower; lia).
    destruct (Z.eqb_spec (rounded m e) (2 ^ 24)) as [->|Hc].
    + change (2 ^ 24 / 2 ^ 1) with (Zpos 8388608). reflexivity.
    + rewrite Z.pow_0_r, Z.div_1_r, Z.add_0_r.
      destruct (rounded m e) as [|p|p] eqn:E; try lia. reflexivity.
Qed.

End RoundForm.

Module RoundMonotone.

Import RoundDefs Digits Nearest Shift RoundExact RoundForm.

Lemma leb_finite (m1 m2 : positive) (e1 e2 : Z) :
  SFleb (S754_finite false m1 e1) (S754_finite false m2 e2) = true
  <-> e1 < e2 \/ (e1 = e2 /\ (m1 <= m2)%positive).
Proof.
  unfold SFleb, SFcompare.
  rewrite F32Facts.compare_cont_is_compare.
  destruct (Z.compare_spec e1 e2); [destruct (Pos.compare_spec m1 m2)| |];
    split; intros; try reflexivity; try discriminate; lia.
Qed.

(** A larger value has at least the magnitude of a smaller one. *)
Lemma magnitude_mono (m1 e1 m2 e2 : Z) :
  0 < m1 -> 0 < m2 -> le_scaled m1 e1 m2 e2 ->
  Zdigits2 m1 + e1 <= Zdigits2 m2 + e2.
Proof.
  intros H1 H2 Hle. unfold le_scaled in Hle.
  pose proof (Zdigits2_bounds m1 H1) as B1.
  pose proof (Zdigits2_bounds m2 H2) as B2.
  pose proof (Zdigits2_pos m1 H1) as D1.
  pose proof (Zdigits2_pos m2 H2) as D2.
  set (e0 := Z.min e1 e2) in *.
  destruct (Z_le_gt_dec (Zdigits2 m1 + e1) (Zdigits2 m2 + e2)) as [H|H];
    [exact H|exfalso].
  assert (P1 : 0 < 2 ^ (e1 - e0)) by (apply Z.pow_pos_nonneg; lia).
  assert (P2 : 0 < 2 ^ (e2 - e0)) by (apply Z.pow_pos_nonneg; lia).
  assert (L1 : 2 ^ (Zdigits2 m1 - 1 + (e1 - e0)) <= m1 * 2 ^ (e1 - e0))
    by (rewrite pow2_split by lia; nia).
  assert (L2 : m2 * 2 ^ (e2 - e0) < 2 ^ (Zdigits2 m2 + (e2 - e0)))
    by (rewrite pow2_split by lia; nia).
  assert (L3 : 2 ^ (Zdigits2 m2 + (e2 - e0))
               <= 2 ^ (Zdigits2 m1 - 1 + (e1 - e0)))
    by (apply Z.pow_le_mono_r; lia).
  lia.
Qed.

(** On a common target exponent the rounded mantissas are ordered as the
    values are. *)
Lemma rounded_mono (m1 e1 m2 e2 : Z) :
  wide m1 e1 -> wide m2 e2 -> le_scaled m1 e1 m2 e2 ->
  target m1 e1 = target m2 e2 ->
  rounded m1 e1 <= rounded m2 e2.
Proof.
  intros [H1 W1] [H2 W2] Hle Ht. unfold rounded, le_scaled in *.
  set (e0 := Z.min e1 e2) in *. set (f := target m2 e2) in *.
  rewrite Ht in *.
  rewrite <- (rne_scale m1 (e1 - e0) (f - e1)) by lia.
  rewrite <- (rne_scale m2 (e2 - e0) (f - e2)) by lia.
  replace (f - e1 + (e1 - e0)) with (f - e0) by lia.
  replace (f - e2 + (e2 - e0)) with (f - e0) by lia.
  apply rne_mono; [lia|exact Hle].
Qed.

(** Rounding wide exact values is monotone. *)
Lemma round_wide_mono (m1 e1 m2 e2 : Z) :
  wide m1 e1 -> wide m2 e2 -> le_scaled m1 e1 m2 e2 ->
  SFleb (binary_round_aux F32.prec F32.emax false m1 e1 loc_Exact)
        (binary_round_aux F32.prec F32.emax false m2 e2 loc_Exact)
  = true.
Proof.
  intros W1 W2 Hle.
  pose proof (magnitude_mono m1 e1 m2 e2 (proj1 W1) (proj1 W2) Hle) as Hmag.
  destruct (rounded_bounds m1 e1 W1) as [B1 N1].
  destruct (rounded_bounds m2 e2 W2) as [B2 N2].
  assert (Ht : target m1 e1 <= target m2 e2) by (unfold target; lia).
  assert (Hq : target m1 e1 = target m2 e2 -> rounded m1 e1 <= rounded m2 e2)
    by (apply rounded_mono; assumption).
  rewrite (round_wide false m1 e1 W1), (round_wide false m2 e2 W2).
  rewrite pow2_24, pow2_23 in *.
  set (q1 := rounded m1 e1) in *. set (q2 := rounded m2 e2) in *.
  set (f1 := target m1 e1) in *. set (f2 := target m2 e2) in *.
  assert (L1 : -149 <= f1) by apply target_lower.
  destruct (Z.eqb_spec q1 0) as [Z1|Z1];
    destruct (Z.eqb_spec q2 0) as [Z2|Z2];
    destruct (Z.eqb_spec q1 16777216) as [C1|C1];
    destruct (Z.eqb_spec q2 16777216) as [C2|C2];
    destruct (Z.leb_spec (f1 + 1) 104);
    destruct (Z.leb_spec (f2 + 1) 104);
    destruct (Z.leb_spec f1 104);
    destruct (Z.leb_spec f2 104);
    try lia; try reflexivity;
    try (apply leb_finite;
         destruct (Z.eq_dec f1 f2) as [E|E];
         [ right; split; [lia|]; try (apply Pos2Z.pos_le_pos;
             rewrite ?Z2Pos.id by lia; lia)
         | try (left; lia) ]).
  all: try (exfalso; lia).
  all: try (destruct (Z.eq_dec (f1 + 1) f2) as [E'|E'];
            [ right; split; [lia|]; apply Pos2Z.pos_le_pos;
              rewrite ?Z2Pos.id by lia; lia
            | left; lia ]).
  all: try (apply Pos.le_refl).
  all: try (apply leb_finite; left; lia).
Qed.

End RoundMonotone.

Module Normalize.

Import RoundDefs Digits Nearest Shift RoundExact RoundForm RoundMonotone.

Lemma valid_finite (s : bool) (m : positive) (e : Z) :
  F32.valid (S754_finite s m e) = true
  <-> Z.max (Zpos (digits2_pos m) + e - 24) (-149) = e /\ e <= 104.
Proof.
  unfold F32.valid, valid_binary, bounded, canonical_mantissa.
  rewrite fexp_eq, andb_true_iff, Z.eqb_eq, Z.leb_le.
  change (F32.emax - F32.prec) with 104. reflexivity.
Qed.

(** Rounding a wide exact value gives a float of the format. *)
Lemma round_wide_valid (s : bool) (m e : Z) :
  wide m e ->
  F32.valid (binary_round_aux F32.prec F32.emax s m e loc_Exact) = true.
Proof.
  intros W. rewrite (round_wide s m e W).
  destruct (rounded_bounds m e W) as [B N].
  pose proof (target_lower m e) as L.
  rewrite pow2_24, pow2_23 in *.
  set (q := rounded m e) in *. set (f := target m e) in *.
  destruct (Z.eqb_spec q 0); [reflexivity|].
  destruct (Z.eqb_spec q 16777216).
  - destruct (Z.leb_spec (f + 1) 104); [|reflexivity].
    apply valid_finite. change (Zpos (digits2_pos 8388608)) with 24. lia.
  - destruct (Z.leb_spec f 104); [|reflexivity].
    apply valid_finite.
    pose proof (Zdigits2_bounds q ltac:(lia)) as Hb.
    pose proof (Zdigits2_pos q ltac:(lia)) as Hd.
    assert (Hq : Zpos (Z.to_pos q) = q) by (apply Z2Pos.id; lia).
    change (Zpos (digits2_pos (Z.to_pos q))) with (Zdigits2 (Zpos (Z.to_pos q))).
    rewrite Hq. split; [|lia].
    assert (Zdigits2 q <= 24).
    { destruct (Z_le_gt_dec (Zdigits2 q) 24) as [H'|H']; [exact H'|exfalso].
      assert (2 ^ 24 <= 2 ^ (Zdigits2 q - 1))
        by (apply Z.pow_le_mono_r; lia). rewrite pow2_24 in *. lia. }
    destruct (Z.eq_dec f (-149)) as [E|E]; [lia|].
    assert (24 <= Zdigits2 q).
    { destruct (Z_le_gt_dec 24 (Zdigits2 q)) as [H'|H']; [exact H'|exfalso].
      assert (2 ^ Zdigits2 q <= 2 ^ 23)
        by (apply Z.pow_le_mono_r; lia). rewrite pow2_23 in *.
      specialize (N ltac:(lia)). lia. }
    lia.
Qed.

(** A float of the format is wide, and rounding gives it back. *)
Lemma valid_wide (s : bool) (m : positive) (e : Z) :
  F32.valid (S754_finite s m e) = true -> wide (Zpos m) e.
Proof.
  intros H. apply valid_finite in H. split; [lia|]. unfold target.
  change (Zdigits2 (Zpos m)) with (Zpos (digits2_pos m)). lia.
Qed.

Lemma valid_mantissa (s : bool) (m : positive) (e : Z) :
  F32.valid (S754_finite s m e) = true ->
  Zpos m < 2 ^ 24 /\ (-149 < e -> 2 ^ 23 <= Zpos m).
Proof.
  intros H. apply valid_finite in H.
  pose proof (digits2_pos_bounds m) as Hb.
  split.
  - assert (2 ^ Zpos (digits2_pos m) <= 2 ^ 24)
      by (apply Z.pow_le_mono_r; lia). lia.
  - intros He. replace (Zpos (digits2_pos m)) with 24 in Hb by lia.
    exact (proj1 Hb).
Qed.

Lemma round_valid (s : bool) (m : positive) (e : Z) :
  F32.valid (S754_finite s m e) = true ->
  binary_round_aux F32.prec F32.emax s (Zpos m) e loc_Exact
  = S754_finite s m e.
Proof.
  intros H. pose proof (valid_wide s m e H) as W.
  pose proof (valid_mantissa s m e H) as [Hm _].
  apply valid_finite in H.
  rewrite (round_wide s (Zpos m) e W).
  assert (Ht : target (Zpos m) e = e)
    by (unfold target; change (Zdigits2 (Zpos m)) with (Zpos (digits2_pos m)); lia).
  unfold rounded. rewrite Ht, Z.sub_diag, rne_0.
  destruct (Z.eqb_spec (Zpos m) 0); [lia|].
  destruct (Z.eqb_spec (Zpos m) (2 ^ 24)); [lia|].
  destruct (Z.leb_spec e 104); [|lia]. reflexivity.
Qed.

(** Aligning to the left. *)
Lemma iter_xO (d : positive) (m : positive) :
  Zpos (Pos.iter xO m d) = Zpos m * 2 ^ Zpos d.
Proof.
  induction d as [|d IH] using Pos.peano_ind.
  - cbn [Pos.iter]. rewrite Pos2Z.inj_xO. lia.
  - rewrite Pos.iter_succ, Pos2Z.inj_succ, Z.pow_succ_r by lia.
    rewrite Pos2Z.inj_xO, IH. lia.
Qed.

Lemma shl_align_spec (m : positive) (e e' : Z) :
  let '(m', e'') := shl_align m e e' in
  e'' = Z.min e e' /\ Zpos m' = Zpos m * 2 ^ (e - e'').
Proof.
  unfold shl_align. destruct (e' - e) as [|d|d] eqn:E.
  - split; [lia|]. replace (e - e) with 0 by lia. lia.
  - split; [lia|]. replace (e - e) with 0 by lia. lia.
  - split; [lia|]. rewrite iter_xO. f_equal. f_equal. lia.
Qed.

(** [binary_round] as the rounding of a wide value. *)
Lemma binary_round_wide (s : bool) (m : positive) (e : Z) :
  exists (m' : positive) (e' : Z),
    binary_round F32.prec F32.emax s m e
    = binary_round_aux F32.prec F32.emax s (Zpos m') e' loc_Exact
    /\ wide (Zpos m') e'
    /\ e' <= e
    /\ Zpos m' = Zpos m * 2 ^ (e - e').
Proof.
  unfold binary_round.
  pose proof (shl_align_spec m e
                (fexp F32.prec F32.emax (Zpos (digits2_pos m) + e))) as H.
  destruct (shl_align m e _) as [m' e'].
  destruct H as [He Hm]. exists m', e'.
  split; [reflexivity|]. split; [|split; [lia|exact Hm]].
  split; [lia|]. unfold target.
  rewrite Hm, Zdigits2_mul_pow2 by lia.
  change (Zdigits2 (Zpos m)) with (Zpos (digits2_pos m)).
  rewrite fexp_eq in He. lia.
Qed.

End Normalize.

Module Signed.

Import RoundDefs Digits Nearest Shift RoundExact RoundForm RoundMonotone
  Normalize.

(** Comparing on any exponent below the two amounts to the same. *)
Lemma le_scaled_base (m1 e1 m2 e2 b : Z) :
  b <= e1 -> b <= e2 ->
  (le_scaled m1 e1 m2 e2 <-> m1 * 2 ^ (e1 - b) <= m2 * 2 ^ (e2 - b)).
Proof.
  intros H1 H2. unfold le_scaled. set (e0 := Z.min e1 e2).
  assert (P : 0 < 2 ^ (e0 - b)) by (apply Z.pow_pos_nonneg; lia).
  replace (e1 - b) with ((e1 - e0) + (e0 - b)) by lia.
  replace (e2 - b) with ((e2 - e0) + (e0 - b)) by lia.
  rewrite !pow2_split by lia.
  split; intros H; nia.
Qed.

Lemma round_aux_opp (m e : Z) (l : location) :
  binary_round_aux F32.prec F32.emax true m e l
  = SFopp (binary_round_aux F32.prec F32.emax false m e l).
Proof.
  unfold binary_round_aux.
  destruct (shr_fexp F32.prec F32.emax m e l) as [mrs1 e1].
  destruct (shr_fexp F32.prec F32.emax _ e1 loc_Exact) as [mrs2 e2].
  destruct (shr_m mrs2); try reflexivity.
  destruct (e2 <=? F32.emax - F32.prec); reflexivity.
Qed.

(** The sign of a rounded value is the sign it was given. *)
Lemma round_aux_sign (s : bool) (m e : Z) (l : location) :
  match binary_round_aux F32.prec F32.emax s m e l with
  | S754_zero s' | S754_infinity s' | S754_finite s' _ _ => s' = s
  | S754_nan => True
  end.
Proof.
  unfold binary_round_aux.
  destruct (shr_fexp F32.prec F32.emax m e l) as [mrs1 e1].
  destruct (shr_fexp F32.prec F32.emax _ e1 loc_Exact) as [mrs2 e2].
  destruct (shr_m mrs2); try reflexivity; try exact I.
  destruct (e2 <=? F32.emax - F32.prec); reflexivity.
Qed.

Lemma binary_round_opp (m : positive) (e : Z) :
  binary_round F32.prec F32.emax true m e
  = SFopp (binary_round F32.prec F32.emax false m e).
Proof.
  unfold binary_round. destruct (shl_align m e _) as [mz ez].
  apply round_aux_opp.
Qed.

Lemma leb_opp (a b : float) :
  SFleb b a = true -> SFleb (SFopp a) (SFopp b) = true.
Proof.
  unfold SFleb.
  destruct a as [[|]|[|]| |[|] ? ?]; destruct b as [[|]|[|]| |[|] ? ?];
    simpl; intros; try reflexivity; try discriminate;
    F32Facts.order_cases.
Qed.

Lemma binary_round_nonnegative (m : positive) (e : Z) :
  SFleb zero (binary_round F32.prec F32.emax false m e) = true.
Proof.
  unfold binary_round. destruct (shl_align m e _) as [mz ez].
  apply (Rounding.binary_round_aux_nonnegative (Zpos mz) ez loc_Exact). lia.
Qed.

Lemma binary_round_nonpositive (m : positive) (e : Z) :
  SFleb (binary_round F32.prec F32.emax true m e) zero = true.
Proof.
  rewrite binary_round_opp. change zero with (SFopp (S754_zero true)).
  apply leb_opp.
  pose proof (binary_round_nonnegative m e) as H. unfold zero in H.
  destruct (binary_round F32.prec F32.emax false m e) as [[|]|[|]| |[|] ? ?];
    try discriminate H; reflexivity.
Qed.

(** Rounding positive values is monotone. *)
Lemma binary_round_mono (m1 m2 : positive) (e1 e2 : Z) :
  le_scaled (Zpos m1) e1 (Zpos m2) e2 ->
  SFleb (binary_round F32.prec F32.emax false m1 e1)
        (binary_round F32.prec F32.emax false m2 e2) = true.
Proof.
  intros H.
  destruct (binary_round_wide false m1 e1) as (m1' & e1' & -> & W1 & L1 & V1).
  destruct (binary_round_wide false m2 e2) as (m2' & e2' & -> & W2 & L2 & V2).
  apply round_wide_mono; try assumption.
  set (b := Z.min e1' e2').
  apply (le_scaled_base _ _ _ _ b); [lia|lia|].
  apply (le_scaled_base _ _ _ _ b) in H; [|lia|lia].
  rewrite V1, V2, <- !Z.mul_assoc, <- !pow2_split by lia.
  replace (e1 - e1' + (e1' - b)) with (e1 - b) by lia.
  replace (e2 - e2' + (e2' - b)) with (e2 - b) by lia.
  exact H.
Qed.

Lemma le_scaled_sign (m1 e1 m2 e2 : Z) :
  le_scaled m1 e1 m2 e2 -> (0 < m1 -> 0 < m2) /\ (m2 < 0 -> m1 < 0).
Proof.
  unfold le_scaled. intros H.
  assert (P1 : 0 < 2 ^ (e1 - Z.min e1 e2)) by (apply Z.pow_pos_nonneg; lia).
  assert (P2 : 0 < 2 ^ (e2 - Z.min e1 e2)) by (apply Z.pow_pos_nonneg; lia).
  split; intros; nia.
Qed.

Lemma le_scaled_opp (m1 e1 m2 e2 : Z) :
  le_scaled m1 e1 m2 e2 -> le_scaled (- m2) e2 (- m1) e1.
Proof. unfold le_scaled. rewrite (Z.min_comm e2 e1). intros H. lia. Qed.

(** Rounding signed values is monotone. *)
Lemma binary_normalize_mono (z1 e1 z2 e2 : Z) :
  le_scaled z1 e1 z2 e2 ->
  SFleb (binary_normalize F32.prec F32.emax z1 e1 false)
        (binary_normalize F32.prec F32.emax z2 e2 false) = true.
Proof.
  intros H. pose proof (le_scaled_sign _ _ _ _ H) as [Hp Hn].
  destruct z1 as [|p1|p1]; destruct z2 as [|p2|p2]; cbn [binary_normalize];
    try (exfalso; lia).
  - reflexivity.
  - apply binary_round_nonnegative.
  - apply binary_round_mono, H.
  - apply binary_round_nonpositive.
  - apply (F32Facts.le_trans _ zero);
      [apply binary_round_nonpositive|apply binary_round_nonnegative].
  - rewrite !binary_round_opp. apply leb_opp, binary_round_mono.
    apply le_scaled_opp in H. exact H.
Qed.

(** Among floats of the format the order is the order of the values. *)
Lemma leb_le_scaled (m1 m2 : positive) (e1 e2 : Z) :
  F32.valid (S754_finite false m1 e1) = true ->
  F32.valid (S754_finite false m2 e2) = true ->
  SFleb (S754_finite false m1 e1) (S754_finite false m2 e2) = true ->
  le_scaled (Zpos m1) e1 (Zpos m2) e2.
Proof.
  intros V1 V2 H. apply leb_finite in H.
  destruct (valid_mantissa _ _ _ V1) as [U1 _].
  destruct (valid_mantissa _ _ _ V2) as [_ N2].
  apply valid_finite in V1. apply valid_finite in V2.
  rewrite pow2_24, pow2_23 in *.
  unfold le_scaled. destruct H as [H|[-> H]].
  - rewrite Z.min_l by lia. rewrite Z.sub_diag, Z.pow_0_r.
    assert (2 ^ 1 <= 2 ^ (e2 - e1)) by (apply Z.pow_le_mono_r; lia).
    change (2 ^ 1) with 2 in *. specialize (N2 ltac:(lia)). nia.
  - rewrite Z.min_id, Z.sub_diag, Z.pow_0_r. lia.
Qed.

End Signed.

Module Operations.

Import RoundDefs Digits Nearest Shift RoundExact RoundForm RoundMonotone
  Normalize Signed.

Lemma round_wide_nonneg_valid (m e : Z) :
  wide m e ->
  nonneg_valid (binary_round_aux F32.prec F32.emax false m e loc_Exact) = true.
Proof.
  intros W. pose proof (round_wide_valid false m e W) as V.
  pose proof (Rounding.binary_round_aux_not_nan false m e loc_Exact
                ltac:(destruct W; lia)) as N.
  pose proof (round_aux_sign false m e loc_Exact) as S.
  destruct (binary_round_aux F32.prec F32.emax false m e loc_Exact)
    as [[|]|[|]| |[|] ? ?]; try discriminate N; try discriminate S;
    try reflexivity; exact V.
Qed.

(** A rounded wide value above the subnormal range and below overflow is a
    normal float. *)
Lemma round_wide_normal (s : bool) (m e : Z) :
  wide m e -> -149 < target m e -> target m e + 1 <= 104 ->
  exists (q : positive) (e' : Z),
    binary_round_aux F32.prec F32.emax s m e loc_Exact = S754_finite s q e'
    /\ -149 < e'.
Proof.
  intros W L U. rewrite (round_wide s m e W).
  destruct (rounded_bounds m e W) as [B N]. specialize (N L).
  rewrite pow2_24, pow2_23 in *.
  destruct (Z.eqb_spec (rounded m e) 0); [lia|].
  destruct (Z.eqb_spec (rounded m e) 16777216).
  - destruct (Z.leb_spec (target m e + 1) 104); [|lia].
    eexists _, _. split; [reflexivity|lia].
  - destruct (Z.leb_spec (target m e) 104); [|lia].
    eexists _, _. split; [reflexivity|lia].
Qed.

(** *** Conversion of integers *)

Lemma of_int_mono (z1 z2 : Z) :
  z1 <= z2 -> SFleb (F32.of_int z1) (F32.of_int z2) = true.
Proof.
  intros H. apply binary_normalize_mono. unfold le_scaled.
  rewrite Z.min_id, Z.sub_diag, Z.pow_0_r. lia.
Qed.

(** The conversion of a positive [int] is a positive normal float. *)
Lemma of_int_normal (z : Z) :
  1 <= z <= 2147483647 ->
  exists (q : positive) (e : Z),
    F32.of_int z = S754_finite false q e
    /\ F32.valid (S754_finite false q e) = true
    /\ -149 < e.
Proof.
  intros Hz. destruct z as [|p|p]; try lia.
  unfold F32.of_int. cbn [binary_normalize].
  destruct (binary_round_wide false p 0) as (m' & e' & E & W & L & V).
  pose proof (round_wide_valid false (Zpos m') e' W) as Hv.
  assert (Hmag : Zdigits2 (Zpos m') + e' = Zdigits2 (Zpos p)).
  { rewrite V, Zdigits2_mul_pow2 by lia. lia. }
  pose proof (Zdigits2_bounds (Zpos p) ltac:(lia)) as Hb.
  pose proof (Zdigits2_pos (Zpos p) ltac:(lia)) as Hd.
  assert (Hu : Zdigits2 (Zpos p) <= 31).
  { destruct (Z_le_gt_dec (Zdigits2 (Zpos p)) 31) as [H|H]; [exact H|exfalso].
    assert (2 ^ 31 <= 2 ^ (Zdigits2 (Zpos p) - 1))
      by (apply Z.pow_le_mono_r; lia).
    change (2 ^ 31) with 2147483648 in *. lia. }
  destruct (round_wide_normal false (Zpos m') e' W) as (q & e & Hq & He);
    try (unfold target; lia).
  exists q, e. rewrite E, Hq in *. repeat split; assumption.
Qed.

(** *** Multiplication by a non-negative step *)

Lemma product_wide (ms ma : positive) (es ea : Z) :
  F32.valid (S754_finite false ma ea) = true -> -149 < ea ->
  wide (Zpos (ms * ma)) (es + ea).
Proof.
  intros V N. destruct (valid_mantissa _ _ _ V) as [_ L]. specialize (L N).
  split; [lia|]. unfold target.
  assert (24 <= Zdigits2 (Zpos (ms * ma))).
  { apply Z.le_trans with (Zdigits2 (2 ^ 23)); [reflexivity|].
    apply Zdigits2_mono. rewrite Pos2Z.inj_mul. rewrite pow2_23 in *. nia. }
  lia.
Qed.

Lemma mul_mono (ms ma mb : positive) (es ea eb : Z) :
  F32.valid (S754_finite false ma ea) = true -> -149 < ea ->
  F32.valid (S754_finite false mb eb) = true -> -149 < eb ->
  SFleb (S754_finite false ma ea) (S754_finite false mb eb) = true ->
  SFleb (F32.mul (S754_finite false ms es) (S754_finite false ma ea))
        (F32.mul (S754_finite false ms es) (S754_finite false mb eb))
  = true.
Proof.
  intros Va Na Vb Nb H. unfold F32.mul, SFmul. cbn [xorb].
  apply round_wide_mono; try (apply product_wide; assumption).
  pose proof (leb_le_scaled _ _ _ _ Va Vb H) as Hle.
  set (b := es + Z.min ea eb).
  apply (le_scaled_base _ _ _ _ b); [lia|lia|].
  apply (le_scaled_base _ _ _ _ (Z.min ea eb)) in Hle; [|lia|lia].
  replace (es + ea - b) with (ea - Z.min ea eb) by lia.
  replace (es + eb - b) with (eb - Z.min ea eb) by lia.
  rewrite !Pos2Z.inj_mul, <- !Z.mul_assoc.
  apply Z.mul_le_mono_nonneg_l; [lia|exact Hle].
Qed.

End Operations.

Module Sums.

Import RoundDefs Digits Nearest Shift RoundExact RoundForm RoundMonotone
  Normalize Signed Operations.

Lemma shl_align_fst (m : positive) (e ez : Z) :
  ez <= e -> Zpos (fst (shl_align m e ez)) = Zpos m * 2 ^ (e - ez).
Proof.
  intros H. pose proof (shl_align_spec m e ez) as S.
  destruct (shl_align m e ez) as [m' e']. destruct S as [He Hm].
  cbn [fst]. rewrite Hm, He, Z.min_r by lia. reflexivity.
Qed.

Lemma add_finite_eq (sx sy : bool) (mx my : positive) (ex ey : Z) :
  F32.add (S754_finite sx mx ex) (S754_finite sy my ey)
  = binary_normalize F32.prec F32.emax
      (cond_Zopp sx (Zpos mx * 2 ^ (ex - Z.min ex ey))
       + cond_Zopp sy (Zpos my * 2 ^ (ey - Z.min ex ey)))
      (Z.min ex ey) false.
Proof.
  unfold F32.add, SFadd. cbv zeta.
  rewrite !shl_align_fst by lia. reflexivity.
Qed.

Lemma sub_finite_eq (sx sy : bool) (mx my : positive) (ex ey : Z) :
  F32.sub (S754_finite sx mx ex) (S754_finite sy my ey)
  = binary_normalize F32.prec F32.emax
      (cond_Zopp sx (Zpos mx * 2 ^ (ex - Z.min ex ey))
       - cond_Zopp sy (Zpos my * 2 ^ (ey - Z.min ex ey)))
      (Z.min ex ey) false.
Proof.
  unfold F32.sub, SFsub. cbv zeta.
  rewrite !shl_align_fst by lia. reflexivity.
Qed.

(** A float of the format is the rounding of its own value. *)
Lemma normalize_valid (s : bool) (m : positive) (e : Z) :
  F32.valid (S754_finite s m e) = true ->
  binary_normalize F32.prec F32.emax (cond_Zopp s (Zpos m)) e false
  = S754_finite s m e.
Proof.
  intros V. pose proof V as V'. apply valid_finite in V'.
  assert (E : binary_round F32.prec F32.emax s m e = S754_finite s m e).
  { unfold binary_round. rewrite fexp_eq.
    replace (Z.max (Zpos (digits2_pos m) + e - 24) (-149)) with e by lia.
    unfold shl_align. rewrite Z.sub_diag. apply round_valid, V. }
  destruct s; cbn [cond_Zopp Z.opp binary_normalize]; exact E.
Qed.

Lemma normalize_not_nan (z e : Z) :
  F32.is_nan (binary_normalize F32.prec F32.emax z e false) = false.
Proof.
  destruct z as [|p|p]; cbn [binary_normalize]; [reflexivity| |];
    unfold binary_round; destruct (shl_align p e _) as [mz ez];
    apply Rounding.binary_round_aux_not_nan; lia.
Qed.

Lemma leb_infinity (r : float) :
  F32.is_nan r = false -> SFleb r (S754_infinity false) = true.
Proof. destruct r as [[|]|[|]| |[|] ? ?]; intros H; try discriminate H; reflexivity. Qed.

Lemma pow2_pos (a : Z) : 0 <= a -> 0 < 2 ^ a.
Proof. intros. apply Z.pow_pos_nonneg; lia. Qed.

(** Adding a larger non-negative number to [start] gives a result that is
    not smaller. *)
Lemma add_mono (start x y : float) :
  F32.valid start = true -> F32.is_finite start = true ->
  nonneg_valid x = true -> nonneg_valid y = true ->
  SFleb x y = true ->
  SFleb (F32.add start x) (F32.add start y) = true.
Proof.
  intros Vs Fs Nx Ny H.
  destruct start as [s0|s0| |ss ms es]; try discriminate Fs.
  - destruct x as [[|]|[|]| |[|] mx ex]; try discriminate Nx;
      destruct y as [[|]|[|]| |[|] my ey]; try discriminate Ny;
      try discriminate H; destruct s0; try reflexivity; exact H.
  - destruct x as [[|]|[|]| |[|] mx ex]; try discriminate Nx;
      destruct y as [[|]|[|]| |[|] my ey]; try discriminate Ny;
      try discriminate H.
    + apply F32Facts.le_refl. reflexivity.
    + change (F32.add (S754_finite ss ms es) (S754_infinity false))
        with (S754_infinity false).
      apply leb_infinity. reflexivity.
    + change (F32.add (S754_finite ss ms es) (S754_zero false))
        with (S754_finite ss ms es).
      rewrite add_finite_eq, <- (normalize_valid ss ms es Vs) at 1.
      apply binary_normalize_mono.
      apply (le_scaled_base _ _ _ _ (Z.min es ey)); [lia|lia|].
      rewrite Z.sub_diag, Z.pow_0_r, Z.mul_1_r.
      pose proof (pow2_pos (es - Z.min es ey) ltac:(lia)).
      pose proof (pow2_pos (ey - Z.min es ey) ltac:(lia)).
      destruct ss; cbn [cond_Zopp]; nia.
    + reflexivity.
    + change (F32.add (S754_finite ss ms es) (S754_infinity false))
        with (S754_infinity false).
      rewrite add_finite_eq. apply leb_infinity, normalize_not_nan.
    + rewrite !add_finite_eq. apply binary_normalize_mono.
      pose proof (leb_le_scaled _ _ _ _ Nx Ny H) as Hle.
      set (b := Z.min (Z.min es ex) (Z.min es ey)).
      apply (le_scaled_base _ _ _ _ b); [lia|lia|].
      apply (le_scaled_base _ _ _ _ b) in Hle; [|lia|lia].
      rewrite !Z.mul_add_distr_r.
      assert (Hs : forall e, b <= Z.min es e ->
                 cond_Zopp ss (Zpos ms * 2 ^ (es - Z.min es e))
                 * 2 ^ (Z.min es e - b)
                 = cond_Zopp ss (Zpos ms * 2 ^ (es - b))).
      { intros e Hb.
        replace (es - b) with ((es - Z.min es e) + (Z.min es e - b)) by lia.
        rewrite pow2_split by lia. destruct ss; cbn [cond_Zopp]; lia. }
      rewrite (Hs ex), (Hs ey) by lia. cbn [cond_Zopp].
      rewrite <- !Z.mul_assoc, <- !pow2_split by lia.
      replace (ex - Z.min es ex + (Z.min es ex - b)) with (ex - b) by lia.
      replace (ey - Z.min es ey + (Z.min es ey - b)) with (ey - b) by lia.
      lia.
Qed.

End Sums.

Module Steps.

Import RoundDefs Digits Nearest Shift RoundExact RoundForm RoundMonotone
  Normalize Signed Operations Sums.

Lemma normalize_plus_shape (z e : Z) :
  0 <= z -> plus_shape (binary_normalize F32.prec F32.emax z e false) = true.
Proof.
  intros H. destruct z as [|p|p]; [reflexivity| |lia].
  cbn [binary_normalize]. unfold binary_round.
  destruct (shl_align p e _) as [mz ez].
  pose proof (Rounding.binary_round_aux_not_nan false (Zpos mz) ez loc_Exact
                ltac:(lia)) as N.
  pose proof (round_aux_sign false (Zpos mz) ez loc_Exact) as S.
  destruct (binary_round_aux F32.prec F32.emax false (Zpos mz) ez loc_Exact)
    as [[|]|[|]| |[|] ? ?]; try discriminate N; try discriminate S;
    reflexivity.
Qed.

Lemma ltb_negative (m1 m2 : positive) (e1 e2 : Z) :
  SFltb (S754_finite true m1 e1) (S754_finite true m2 e2) = true ->
  SFleb (S754_finite false m2 e2) (S754_finite false m1 e1) = true.
Proof.
  unfold SFltb, SFleb. simpl. intros H. F32Facts.order_cases.
Qed.

(** The difference of a greater and a smaller float of the format is +0,
    positive or +infinity; it is +infinity when one of the two is
    infinite. *)
Lemma sub_plus_shape (start end_ : float) :
  F32.valid start = true -> F32.valid end_ = true ->
  F32.gt end_ start = true ->
  plus_shape (F32.sub end_ start) = true
  /\ (F32.is_finite start = false -> F32.sub end_ start = S754_infinity false).
Proof.
  intros Vs Ve H. unfold F32.gt, SFltb in H.
  destruct end_ as [se|se| |se me ee]; destruct start as [ss|ss| |ss ms es];
    simpl in H; try discriminate H.
  all: try (destruct se; destruct ss; simpl in H; try discriminate H;
            (split; [reflexivity
                    |intros F; simpl in F;
                     first [discriminate F|reflexivity]])).
  split; [|intros F; simpl in F; discriminate F].
  rewrite sub_finite_eq. apply normalize_plus_shape.
  pose proof (pow2_pos (ee - Z.min ee es) ltac:(lia)).
  pose proof (pow2_pos (es - Z.min ee es) ltac:(lia)).
  destruct se, ss; cbn [cond_Zopp]; try discriminate H; try nia.
  - assert (L : SFleb (S754_finite false me ee) (S754_finite false ms es) = true)
      by (apply ltb_negative; unfold SFltb; exact H).
    apply leb_le_scaled in L; [|assumption|assumption].
    unfold le_scaled in L. lia.
  - assert (L : SFleb (S754_finite false ms es) (S754_finite false me ee) = true)
      by (apply F32Facts.lt_le; unfold F32.lt, SFltb; exact H).
    apply leb_le_scaled in L; [|assumption|assumption].
    unfold le_scaled in L. rewrite (Z.min_comm es ee) in L. lia.
Qed.

(** A finite step between two floats of the format, the second greater than
    the first, is +0 or positive, and the first of the two is finite. *)
Lemma step_shape (start end_ : float) (n : Z) :
  F32.valid start = true -> F32.valid end_ = true ->
  F32.gt end_ start = true ->
  1 <= n <= 2147483647 ->
  F32.is_finite (F32.div (F32.sub end_ start) (F32.of_int n)) = true ->
  F32.is_finite start = true
  /\ (F32.div (F32.sub end_ start) (F32.of_int n) = S754_zero false
      \/ exists ms es,
          F32.div (F32.sub end_ start) (F32.of_int n)
          = S754_finite false ms es).
Proof.
  intros Vs Ve H Hn F.
  destruct (sub_plus_shape start end_ Vs Ve H) as [P I].
  destruct (of_int_normal n Hn) as (q & e & Eq & _ & _). rewrite Eq in *.
  destruct (F32.is_finite start) eqn:Fs.
  - split; [reflexivity|].
    destruct (F32.sub end_ start) as [[|]|[|]| |[|] mr er];
      try discriminate P; try discriminate F.
    + left. reflexivity.
    + unfold F32.div, SFdiv in *. cbn [xorb] in *.
      destruct (SFdiv_core_binary _ _ _ _ _ _) as [[mz ez] lz].
      pose proof (round_aux_sign false mz ez lz) as S.
      destruct (binary_round_aux F32.prec F32.emax false mz ez lz)
        as [[|]|[|]| |[|] mq eq]; try discriminate S; try discriminate F.
      * left. reflexivity.
      * right. eexists _, _. reflexivity.
  - rewrite (I eq_refl) in F. discriminate F.
Qed.

End Steps.

Module Distances.

Import RoundDefs Digits Nearest Shift RoundExact RoundForm RoundMonotone
  Normalize Signed Operations Sums Steps.

Lemma nonneg_valid_leb_zero (y : float) :
  nonneg_valid y = true -> SFleb (S754_zero false) y = true.
Proof.
  destruct y as [[|]|[|]| |[|] ? ?]; intros H; try discriminate H; reflexivity.
Qed.

(** The product of a non-negative step and the index grows with the
    index. *)
Lemma step_times_index (step : float) (i : Z) :
  (step = S754_zero false \/ exists ms es, step = S754_finite false ms es) ->
  0 <= i -> i + 1 <= 2147483647 ->
  nonneg_valid (F32.mul step (F32.of_int i)) = true
  /\ nonneg_valid (F32.mul step (F32.of_int (i + 1))) = true
  /\ SFleb (F32.mul step (F32.of_int i)) (F32.mul step (F32.of_int (i + 1)))
     = true.
Proof.
  intros Hs Hi Hu.
  destruct (of_int_normal (i + 1) ltac:(lia)) as (qb & eb & Eb & Vb & Nb).
  assert (Hab : SFleb (F32.of_int i) (F32.of_int (i + 1)) = true)
    by (apply of_int_mono; lia).
  rewrite Eb in *.
  destruct Hs as [->|(ms & es & ->)].
  - destruct (Z.eq_dec i 0) as [->|Hz].
    + repeat split.
    + destruct (of_int_normal i ltac:(lia)) as (qa & ea & -> & _ & _).
      repeat split.
  - assert (Wb : wide (Zpos (ms * qb)) (es + eb))
      by (apply product_wide; assumption).
    assert (Ny : nonneg_valid
                   (F32.mul (S754_finite false ms es)
                      (S754_finite false qb eb)) = true)
      by (apply round_wide_nonneg_valid, Wb).
    destruct (Z.eq_dec i 0) as [->|Hz].
    + change (F32.mul (S754_finite false ms es) (F32.of_int 0))
        with (S754_zero false).
      split; [reflexivity|]. split; [exact Ny|].
      apply nonneg_valid_leb_zero, Ny.
    + destruct (of_int_normal i ltac:(lia)) as (qa & ea & Ea & Va & Na).
      rewrite Ea in *.
      split; [apply round_wide_nonneg_valid, product_wide; assumption|].
      split; [exact Ny|].
      apply mul_mono; assumption.
Qed.

(** Consecutive distances of the range mapper do not decrease. *)
Lemma distance_mono (start step : float) (i : Z) :
  F32.valid start = true -> F32.is_finite start = true ->
  (step = S754_zero false \/ exists ms es, step = S754_finite false ms es) ->
  0 <= i -> i + 1 <= 2147483647 ->
  F32.le (F32.add start (F32.mul step (F32.of_int i)))
         (F32.add start (F32.mul step (F32.of_int (i + 1)))) = true.
Proof.
  intros Vs Fs Hs Hi Hu.
  destruct (step_times_index step i Hs Hi Hu) as (Nx & Ny & Hle).
  apply add_mono; assumption.
Qed.

End Distances.

(** ** Decimal text *)

Module StdioFacts.

Import Stdio.

Lemma skip_space_idempotent (s : string) :
  skip_space (skip_space s) = skip_space s.
Proof.
  induction s as [|c t IH]; simpl; [reflexivity|].
  destruct (isspace c) eqn:E; [exact IH|]. simpl. rewrite E. reflexivity.
Qed.

Lemma digit_char_spec (d : Z) :
  0 <= d < 10 ->
  isdigit (digit_char d) = true
  /\ isspace (digit_char d) = false
  /\ digit_value (digit_char d) = d.
Proof.
  intros H.
  assert (E : d = 0 \/ d = 1 \/ d = 2 \/ d = 3 \/ d = 4 \/ d = 5 \/ d = 6
              \/ d = 7 \/ d = 8 \/ d = 9) by lia.
  repeat (destruct E as [E|E]; [subst d; repeat split|]).
  subst d; repeat split.
Qed.

Lemma sign_of_digit (c : ascii) (t : string) :
  isdigit c = true -> sign (String c t) = (false, String c t).
Proof.
  destruct c as [[|] [|] [|] [|] [|] [|] [|] [|]]; simpl; intros H;
    try discriminate H; reflexivity.
Qed.

Lemma digit_not_space (c : ascii) : isdigit c = true -> isspace c = false.
Proof.
  destruct c as [[|] [|] [|] [|] [|] [|] [|] [|]]; simpl; intros H;
    try discriminate H; reflexivity.
Qed.

Lemma decimal_from_step (fuel : nat) (n : Z) (acc : string) :
  decimal_from (S fuel) n acc
  = if n <? 10 then String (digit_char (n mod 10)) acc
    else decimal_from fuel (n / 10) (String (digit_char (n mod 10)) acc).
Proof. reflexivity. Qed.

(** Reading back the digits [decimal_from] has produced. *)
Lemma digits_decimal_from (fuel : nat) :
  forall (n : Z) (acc t : string) (a c : Z),
    0 <= n < 2 ^ Z.of_nat (S fuel) ->
    exists k : Z,
      0 < k
      /\ digits (decimal_from (S fuel) n acc ++ t) a c
         = digits (acc ++ t) (a * 10 ^ k + n) (c + k).
Proof.
  induction fuel as [|fuel IH]; intros n acc t a c Hn;
    rewrite decimal_from_step; destruct (n <? 10) eqn:E;
    try (apply Z.ltb_lt in E); try (apply Z.ltb_ge in E).
  - exists 1. split; [lia|].
    destruct (digit_char_spec (n mod 10)) as (Hd & _ & Hv);
      [apply Z.mod_pos_bound; lia|].
    cbn [append digits]. rewrite Hd, Hv, Z.mod_small by lia.
    f_equal; lia.
  - change (2 ^ Z.of_nat 1) with 2 in Hn. lia.
  - exists 1. split; [lia|].
    destruct (digit_char_spec (n mod 10)) as (Hd & _ & Hv);
      [apply Z.mod_pos_bound; lia|].
    cbn [append digits]. rewrite Hd, Hv, Z.mod_small by lia.
    f_equal; lia.
  - assert (Hq : 0 <= n / 10 < 2 ^ Z.of_nat (S fuel)).
    { split; [apply Z.div_pos; lia|].
      rewrite Nat2Z.inj_succ, Z.pow_succ_r in Hn by lia.
      apply Z.div_lt_upper_bound; lia. }
    destruct (IH (n / 10) (String (digit_char (n mod 10)) acc) t a c Hq)
      as (k & Hk & Hdigits).
    exists (k + 1). split; [lia|].
    rewrite Hdigits.
    destruct (digit_char_spec (n mod 10)) as (Hd & _ & Hv);
      [apply Z.mod_pos_bound; lia|].
    cbn [append digits]. rewrite Hd, Hv.
    rewrite Z.pow_add_r, Z.pow_1_r by lia.
    f_equal; [|lia].
    pose proof (Z.div_mod n 10). lia.
Qed.

Lemma decimal_from_head (fuel : nat) :
  forall (n : Z) (acc : string),
    0 <= n ->
    exists (d : ascii) (t : string),
      decimal_from (S fuel) n acc = String d t /\ isdigit d = true.
Proof.
  induction fuel as [|fuel IH]; intros n acc Hn; rewrite decimal_from_step;
    destruct (n <? 10) eqn:E;
    try (destruct (digit_char_spec (n mod 10)) as (Hd & _ & _);
         [apply Z.mod_pos_bound; lia|]).
  - eexists _, _. split; [reflexivity|exact Hd].
  - eexists _, _. split; [reflexivity|exact Hd].
  - eexists _, _. split; [reflexivity|exact Hd].
  - apply IH. apply Z.div_pos; lia.
Qed.

Lemma print_u_bound (n : Z) :
  0 <= n -> 0 <= n < 2 ^ Z.of_nat (S (Z.to_nat (Z.log2 n))).
Proof.
  intros H. split; [exact H|].
  rewrite Nat2Z.inj_succ, Z2Nat.id by apply Z.log2_nonneg.
  destruct (Z.eq_dec n 0) as [->|Hz]; [reflexivity|].
  apply Z.log2_spec. lia.
Qed.

(** [%u] and [%hu] read back what [%u] and [%d] print, up to the width of
    their object. *)
Lemma scan_unsigned_print_u (bits v : Z) (c : ascii) (t : string) :
  0 <= v -> isdigit c = false ->
  scan_unsigned bits (print_u v ++ String c t)
  = Converted (v mod 2 ^ bits) (String c t).
Proof.
  intros Hv Hc. unfold scan_unsigned, print_u.
  destruct (decimal_from_head (Z.to_nat (Z.log2 v)) v EmptyString Hv)
    as (d & tl & Hhead & Hd).
  destruct (digits_decimal_from (Z.to_nat (Z.log2 v)) v EmptyString
              (String c t) 0 0 (print_u_bound v Hv)) as (k & Hk & Hdigits).
  rewrite Hhead in *. cbn [append skip_space] in *.
  rewrite (digit_not_space d Hd), (sign_of_digit d _ Hd), Hdigits.
  cbn [append digits]. rewrite Hc.
  replace (0 + k =? 0) with false by (symmetry; apply Z.eqb_neq; lia).
  rewrite Z.mul_0_l, Z.add_0_l. reflexivity.
Qed.

Lemma print_d_nonnegative (v : Z) : 0 <= v -> print_d v = print_u v.
Proof.
  intros H. unfold print_d.
  replace (v <? 0) with false by (symmetry; apply Z.ltb_ge; exact H).
  reflexivity.
Qed.

Lemma print_u_head (v : Z) :
  0 <= v -> exists d t, print_u v = String d t /\ isdigit d = true.
Proof. intros H. apply decimal_from_head, H. Qed.

End StdioFacts.

(** ** Presence classifier *)

Lemma threshold_not_nan (base ratio : float) :
  F32.is_finite base = true -> F32.is_finite ratio = true ->
  F32.is_nan (threshold base ratio) = false.
Proof.
  intros Hb Hr. unfold threshold.
  change (F32.of_int 4) with (S754_finite false 8388608 (-21)).
  apply Rounding.mul_number_not_nan, Rounding.mul_finite_not_nan; assumption.
Qed.

(** C3. For all finite inputs [car_present] answers Occupied exactly when the
    peak amplitude is greater than baseline * ratio * 4 and Empty otherwise;
    at the boundary, where the peak equals that product, it answers Empty,
    as it does for peak 8, baseline 2, ratio 1. *)
Theorem car_present_decision_rule (peak base ratio : float) :
  F32.is_finite peak = true ->
  F32.is_finite base = true ->
  F32.is_finite ratio = true ->
  (car_present peak base ratio = Occupied
   <-> (peak > base * ratio * F32.of_int 4)%f32 = true)
  /\ (car_present peak base ratio = Empty
      <-> (peak > base * ratio * F32.of_int 4)%f32 = false)
  /\ (F32.eq peak (base * ratio * F32.of_int 4)%f32 = true ->
      car_present peak base ratio = Empty)
  /\ car_present (F32.of_int 8) (F32.of_int 2) (F32.of_int 1) = Empty.
Proof.
  intros Hp Hb Hr.
  pose proof (threshold_not_nan base ratio Hb Hr) as Ht.
  unfold threshold in Ht. unfold car_present, Occupied, Empty.
  rewrite (F32Facts.le_not_gt _ _ (Rounding.finite_not_nan _ Hp) Ht).
  set (t := (base * ratio * F32.of_int 4)%f32) in *.
  repeat split.
  - destruct (peak > t)%f32; simpl; intros; [reflexivity | discriminate].
  - intros ->. reflexivity.
  - destruct (peak > t)%f32; simpl; intros; [discriminate | reflexivity].
  - intros ->. reflexivity.
  - unfold F32.eq, F32.gt, SFeqb, SFltb.
    destruct peak as [[|]|[|]| |[|] ? ?]; destruct t as [[|]|[|]| |[|] ? ?];
      simpl in *; intros; try reflexivity; try discriminate;
      F32Facts.order_cases.
Qed.

Lemma car_present_decision_rule_witness :
  F32.is_finite (F32.of_int 10) = true
  /\ (car_present (F32.of_int 10) (F32.of_int 2) (F32.of_int 1) = Occupied
      <-> (F32.of_int 10 > F32.of_int 2 * F32.of_int 1 * F32.of_int 4)%f32
          = true)
  /\ (car_present (F32.of_int 10) (F32.of_int 2) (F32.of_int 1) = Empty
      <-> (F32.of_int 10 > F32.of_int 2 * F32.of_int 1 * F32.of_int 4)%f32
          = false).
Proof.
  split; [reflexivity|].
  destruct (car_present_decision_rule (F32.of_int 10) (F32.of_int 2)
              (F32.of_int 1)) as (Hocc & Hemp & _); try reflexivity.
  split; [exact Hocc | exact Hemp].
Defined.

(** ** Range mapper *)

Section RangeMapper.

Local Open Scope f32_scope.

Lemma format_data_loop_length (amp : list Z) (start step : float) (k : nat) :
  forall i, List.length (format_data_loop amp start step i k) = k.
Proof. induction k as [|k IH]; simpl; intros; [|rewrite IH]; reflexivity. Qed.

Lemma format_data_loop_nth (amp0 : list Z) (start step : float) (k : nat) :
  forall (i : Z) (j : nat),
    (0 <= i)%Z -> (j < k)%nat ->
    nth j (format_data_loop amp0 start step i k) sentinel
    = {| dist := start + step * F32.of_int (i + Z.of_nat j);
         amp := F32.of_int (nth (Z.to_nat i + j) amp0 0%Z) |}.
Proof.
  induction k as [|k IH]; intros i j Hi Hj; [lia|].
  destruct j as [|j]; simpl format_data_loop.
  - cbn [nth]. rewrite Z.add_0_r, Nat.add_0_r. reflexivity.
  - cbn [nth]. rewrite IH by lia.
    replace (i + 1 + Z.of_nat j)%Z with (i + Z.of_nat (S j))%Z by lia.
    replace (Z.to_nat (i + 1) + j)%nat with (Z.to_nat i + S j)%nat by lia.
    reflexivity.
Qed.

(** Adding a zero step leaves a number as it is, up to the sign of a
    zero. *)
Lemma add_zero_step (start step : float) :
  F32.is_finite step = true -> F32.is_nan start = false ->
  F32.eq (start + step * F32.of_int 0) start = true.
Proof.
  unfold F32.eq, SFeqb.
  destruct step as [[|]|[|]| |[|] ? ?]; destruct start as [[|]|[|]| |[|] ? ?];
    simpl; intros; try reflexivity; try discriminate;
    rewrite Z.compare_refl, F32Facts.compare_cont_is_compare,
      Pos.compare_refl; reflexivity.
Qed.

(** The points made from non-negative samples have amplitudes that are at
    least zero. *)
Lemma format_data_loop_nonnegative (samples : list Z) (start step : float)
  (k : nat) :
  Forall (fun v => (0 <= v)%Z) samples ->
  forall (i : Z) (p : Datapoint),
    In p (format_data_loop samples start step i k) ->
    (F32.of_int 0 <= amp p) = true.
Proof.
  intros Hs. induction k as [|k IH]; intros i p Hp; [destruct Hp|].
  destruct Hp as [<-|Hp]; [|apply (IH (i + 1)%Z), Hp].
  cbn [amp]. apply Rounding.of_int_nonnegative.
  destruct (nth_in_or_default (Z.to_nat i) samples 0%Z) as [Hin | ->]; [|lia].
  rewrite Forall_forall in Hs. apply Hs, Hin.
Qed.

End RangeMapper.

(** C8 (as amended). For every non-empty sequence of n raw samples and
    interval from [start] to [end_], [format_data] produces exactly n data
    points; point i has distance start + step * i, with step = (end_ - start)
    / n and every operation rounded to single precision, and amplitude
    samples[i] converted to float; the first distance compares equal to
    [start] whenever [start] is a number and the step is finite; and when
    [start] and [end_] are single-precision values with end_ > start, n fits
    the [int] parameter and the step is finite, the distances never
    decrease from one point to the next. *)
Theorem format_data_points (samples : list Z) (start end_ : float) :
  samples <> [] ->
  let n := Z.of_nat (List.length samples) in
  let step := ((end_ - start) / F32.of_int n)%f32 in
  let data := format_data samples n start end_ in
  List.length data = List.length samples
  /\ (forall i : nat,
         (i < List.length samples)%nat ->
         nth i data sentinel
         = {| dist := (start + step * F32.of_int (Z.of_nat i))%f32;
              amp := F32.of_int (nth i samples 0) |})
  /\ (F32.is_finite step = true -> F32.is_nan start = false ->
      F32.eq (dist (nth 0 data sentinel)) start = true)
  /\ (F32.valid start = true -> F32.valid end_ = true ->
      (end_ > start)%f32 = true -> n <= 2147483647 ->
      F32.is_finite step = true ->
      forall i : nat,
        (S i < List.length samples)%nat ->
        (dist (nth i data sentinel) <= dist (nth (S i) data sentinel))%f32
        = true).
Proof.
  intros Hne n step data.
  assert (Hpos : (0 < List.length samples)%nat)
    by (destruct samples; [contradiction Hne; reflexivity|simpl; lia]).
  assert (Hnth : forall i : nat,
             (i < List.length samples)%nat ->
             nth i data sentinel
             = {| dist := (start + step * F32.of_int (Z.of_nat i))%f32;
                  amp := F32.of_int (nth i samples 0) |}).
  { intros i Hi. unfold data, format_data.
    rewrite format_data_loop_nth by (unfold n; lia). reflexivity. }
  split; [|split; [|split]].
  - unfold data, format_data. rewrite format_data_loop_length.
    unfold n. apply Nat2Z.id.
  - exact Hnth.
  - intros Hstep Hstart. rewrite Hnth by exact Hpos.
    apply add_zero_step; assumption.
  - intros Vs Ve Hgt Hn Hstep i Hi.
    destruct (Steps.step_shape start end_ n Vs Ve Hgt ltac:(unfold n; lia)
                Hstep) as [Fs Hshape].
    rewrite !Hnth by lia. cbn [dist].
    replace (Z.of_nat (S i)) with (Z.of_nat i + 1) by lia.
    apply Distances.distance_mono; try assumption; unfold n in Hn; lia.
Qed.

Lemma format_data_points_witness :
  List.length (format_data [10; 20; 30] 3 f32_0_1 (f32_0_1 + f32_0_5)%f32) = 3%nat
  /\ F32.eq (dist (nth 0 (format_data [10; 20; 30] 3 f32_0_1
                            (f32_0_1 + f32_0_5)%f32) sentinel))
            f32_0_1 = true
  /\ (dist (nth 1 (format_data [10; 20; 30] 3 f32_0_1
                     (f32_0_1 + f32_0_5)%f32) sentinel)
      <= dist (nth 2 (format_data [10; 20; 30] 3 f32_0_1
                        (f32_0_1 + f32_0_5)%f32) sentinel))%f32 = true.
Proof.
  destruct (format_data_points [10; 20; 30] f32_0_1 (f32_0_1 + f32_0_5)%f32)
    as (Hlen & _ & Hfirst & Hmono).
  - discriminate.
  - split; [exact Hlen|].
    split; [apply Hfirst; reflexivity|].
    apply Hmono; try reflexivity; simpl; lia.
Defined.

(** C8 as it was stated fails on the code: between 16777216 and 16777218
    the step is 1, and 16777216 + 1 rounds back to 16777216, so the second
    distance is not greater than the first although the interval is not
    empty. *)
Lemma format_data_increasing_counterexample :
  F32.valid (F32.of_int 16777216) = true
  /\ F32.valid (F32.of_int 16777218) = true
  /\ (F32.of_int 16777218 > F32.of_int 16777216)%f32 = true
  /\ (dist (nth 0 (format_data [1; 1] 2 (F32.of_int 16777216)
                     (F32.of_int 16777218)) sentinel)
      < dist (nth 1 (format_data [1; 1] 2 (F32.of_int 16777216)
                       (F32.of_int 16777218)) sentinel))%f32 = false
  /\ dist (nth 1 (format_data [1; 1] 2 (F32.of_int 16777216)
                    (F32.of_int 16777218)) sentinel)
     = F32.of_int 16777216.
Proof. repeat split. Qed.

(** ** Peak extraction *)

Section MaxPeak.

Local Open Scope f32_scope.

Lemma firstn_all_Z {A} (l : list A) :
  firstn (Z.to_nat (Z.of_nat (List.length l))) l = l.
Proof. rewrite Nat2Z.id. apply firstn_all. Qed.

Lemma max_step_cases (max p : Datapoint) :
  F32.is_nan (amp max) = false -> F32.is_nan (amp p) = false ->
  (max_step max p = p /\ (amp max < amp p) = true)
  \/ (max_step max p = max /\ (amp p <= amp max) = true).
Proof.
  intros Hm Hp. unfold max_step.
  rewrite (F32Facts.le_not_gt _ _ Hp Hm).
  destruct (amp p > amp max) eqn:E; [left | right]; split;
    try reflexivity; exact E.
Qed.

Lemma max_step_not_nan (max p : Datapoint) :
  F32.is_nan (amp max) = false -> F32.is_nan (amp p) = false ->
  F32.is_nan (amp (max_step max p)) = false.
Proof. intros Hm Hp. unfold max_step. destruct (amp p > amp max); auto. Qed.

(** The scan ends on the start value or on a point of the list, and what
    it ends on bounds the start value and every point. *)
Lemma max_fold_upper (l : list Datapoint) :
  forall init,
    F32.is_nan (amp init) = false ->
    (forall p, In p l -> F32.is_nan (amp p) = false) ->
    (fold_left max_step l init = init \/ In (fold_left max_step l init) l)
    /\ (amp init <= amp (fold_left max_step l init)) = true
    /\ (forall p, In p l ->
                  (amp p <= amp (fold_left max_step l init)) = true).
Proof.
  induction l as [|p t IH]; simpl; intros init Hi Hl.
  - split; [left; reflexivity|]. split; [apply F32Facts.le_refl, Hi|].
    intros p [].
  - assert (Hp : F32.is_nan (amp p) = false) by (apply Hl; left; reflexivity).
    destruct (IH (max_step init p) (max_step_not_nan _ _ Hi Hp)
                (fun q Hq => Hl q (or_intror Hq))) as (Hin & Hle & Hall).
    destruct (max_step_cases init p Hi Hp) as [[Hs Hlt]|[Hs Hge]];
      rewrite Hs in *.
    + split; [|split].
      * destruct Hin as [->|Hin]; right; [left; reflexivity|right; exact Hin].
      * eapply F32Facts.le_trans; [apply F32Facts.lt_le, Hlt|exact Hle].
      * intros q [<-|Hq]; [exact Hle|apply Hall, Hq].
    + split; [|split].
      * destruct Hin as [->|Hin]; [left; reflexivity|right; right; exact Hin].
      * exact Hle.
      * intros q [<-|Hq]; [|apply Hall, Hq].
        eapply F32Facts.le_trans; [exact Hge|exact Hle].
Qed.

(** The scan ends on the start value when no point exceeds it, and
    otherwise on the first point that no other point exceeds. *)
Lemma max_fold_first (l : list Datapoint) :
  forall init,
    F32.is_nan (amp init) = false ->
    (forall p, In p l -> F32.is_nan (amp p) = false) ->
    (fold_left max_step l init = init
     /\ forall p, In p l -> (amp p > amp init) = false)
    \/ ((amp (fold_left max_step l init) > amp init) = true
        /\ first_peak l (fold_left max_step l init)).
Proof.
  induction l as [|p t IH]; simpl; intros init Hi Hl.
  - left. split; [reflexivity|]. intros p [].
  - assert (Hp : F32.is_nan (amp p) = false) by (apply Hl; left; reflexivity).
    specialize (IH (max_step init p) (max_step_not_nan _ _ Hi Hp)
                  (fun q Hq => Hl q (or_intror Hq))).
    destruct (max_step_cases init p Hi Hp) as [[Hs Hlt]|[Hs Hge]];
      rewrite Hs in *.
    + right. destruct IH as [[Hr Hnone]|[Hgt (k & Hk & Hr & Hbefore & Hafter)]].
      * rewrite Hr. split; [exact Hlt|].
        exists O. simpl. repeat split; try lia.
        intros j Hj. destruct j as [|j]; [lia|]. simpl.
        apply Hnone, nth_In. lia.
      * split; [unfold F32.gt in *; eapply F32Facts.lt_trans; eassumption|].
        exists (S k). simpl. repeat split; try lia; try exact Hr.
        -- intros j Hj. destruct j as [|j]; simpl; [exact Hgt|].
           apply Hbefore. lia.
        -- intros j Hj. destruct j as [|j]; [lia|]. simpl.
           apply Hafter. lia.
    + destruct IH as [[Hr Hnone]|[Hgt (k & Hk & Hr & Hbefore & Hafter)]].
      * left. split; [exact Hr|].
        intros q [<-|Hq]; [|apply Hnone, Hq].
        rewrite (F32Facts.le_not_gt _ _ Hp Hi) in Hge.
        destruct (amp p > amp init); [discriminate|reflexivity].
      * right. split; [exact Hgt|].
        exists (S k). simpl. repeat split; try lia; try exact Hr.
        -- intros j Hj. destruct j as [|j]; simpl.
           ++ eapply F32Facts.le_lt_trans; [exact Hge|exact Hgt].
           ++ apply Hbefore. lia.
        -- intros j Hj. destruct j as [|j]; [lia|]. simpl.
           apply Hafter. lia.
Qed.

End MaxPeak.

Lemma first_peak_of_scan (data : list Datapoint) :
  (forall p, In p data -> F32.is_nan (amp p) = false) ->
  (exists p, In p data /\ (amp p > F32.of_int (-1))%f32 = true) ->
  first_peak data (get_max_peak data (Z.of_nat (List.length data))).
Proof.
  intros Hnan (p & Hin & Hgt).
  unfold get_max_peak. rewrite firstn_all_Z.
  destruct (max_fold_first data sentinel eq_refl Hnan)
    as [[_ Hnone]|[_ Hfirst]].
  - specialize (Hnone p Hin).
    change (amp sentinel) with (F32.of_int (-1)) in Hnone. congruence.
  - exact Hfirst.
Qed.

(** C9 (as amended). For every sequence of data points without NaN
    amplitudes in which some amplitude is greater than the sentinel's -1,
    [get_max_peak] returns the first point whose amplitude is strictly
    greater than all earlier amplitudes and not exceeded by any later one;
    the points [format_data] makes from a non-empty sequence of non-negative
    samples are such a sequence; for the amplitudes 3, 7, 2, 7 the point
    returned is the one at index 1. *)
Theorem get_max_peak_first_peak :
  (forall data : list Datapoint,
      (forall p, In p data -> F32.is_nan (amp p) = false) ->
      (exists p, In p data /\ (amp p > F32.of_int (-1))%f32 = true) ->
      first_peak data (get_max_peak data (Z.of_nat (List.length data))))
  /\ (forall (samples : list Z) (start end_ : float),
         samples <> [] ->
         Forall (fun v => 0 <= v) samples ->
         let n := Z.of_nat (List.length samples) in
         first_peak (format_data samples n start end_)
           (get_max_peak (format_data samples n start end_) n))
  /\ (forall d0 d1 d2 d3 : float,
         get_max_peak
           [ {| dist := d0; amp := F32.of_int 3 |};
             {| dist := d1; amp := F32.of_int 7 |};
             {| dist := d2; amp := F32.of_int 2 |};
             {| dist := d3; amp := F32.of_int 7 |} ] 4
         = {| dist := d1; amp := F32.of_int 7 |}).
Proof.
  split; [exact first_peak_of_scan|split].
  - intros samples start end_ Hne Hs n.
    set (data := format_data samples n start end_).
    assert (Hlen : List.length data = List.length samples).
    { unfold data, format_data. rewrite format_data_loop_length.
      unfold n. apply Nat2Z.id. }
    assert (Hn : Z.of_nat (List.length data) = n)
      by (rewrite Hlen; reflexivity).
    assert (Hpos : forall p, In p data -> (F32.of_int 0 <= amp p)%f32 = true).
    { intros p Hp. unfold data, format_data in Hp.
      apply (format_data_loop_nonnegative _ _ _ _ Hs _ _ Hp). }
    rewrite <- Hn. apply first_peak_of_scan.
    + intros p Hp. apply (F32Facts.le_not_nan _ _ (Hpos p Hp)).
    + destruct data as [|p t] eqn:E.
      * destruct samples; [contradiction Hne; reflexivity|discriminate Hlen].
      * exists p. split; [left; reflexivity|].
        apply (F32Facts.lt_le_trans _ (F32.of_int 0));
          [reflexivity | apply Hpos; left; reflexivity].
  - intros. reflexivity.
Qed.

Lemma get_max_peak_first_peak_witness :
  first_peak [point 0 3; point 1 7; point 2 2; point 3 7]
    (get_max_peak [point 0 3; point 1 7; point 2 2; point 3 7] 4).
Proof.
  apply (proj1 get_max_peak_first_peak
           [point 0 3; point 1 7; point 2 2; point 3 7]).
  - intros p [<-|[<-|[<-|[<-|[]]]]]; reflexivity.
  - exists (point 0 3). split; [left; reflexivity | reflexivity].
Defined.

(** C9 as it was stated fails on the code: on the single point of amplitude
    -5 the scan returns the sentinel, which is no point of the sequence; and
    behind a NaN the scan selects a later point although the NaN is first
    and nothing exceeds it. *)
Lemma get_max_peak_first_peak_counterexample :
  ~ first_peak [point 0 (-5)] (get_max_peak [point 0 (-5)] 1)
  /\ get_max_peak [point 0 (-5)] 1 = sentinel
  /\ ~ first_peak [ {| dist := F32.of_int 0; amp := S754_nan |}; point 1 5 ]
         (get_max_peak
            [ {| dist := F32.of_int 0; amp := S754_nan |}; point 1 5 ] 2).
Proof.
  split; [|split].
  - intros (k & Hk & Hr & _). simpl in Hk.
    destruct k as [|k]; [|lia]. discriminate Hr.
  - reflexivity.
  - intros (k & Hk & Hr & Hbefore & _). simpl in Hk.
    destruct k as [|[|k]]; [discriminate Hr| |lia].
    specialize (Hbefore O). simpl in Hbefore.
    assert (H : false = true) by (apply Hbefore; lia). discriminate H.
Qed.

Lemma max_peak_of_nonnegative (data : list Datapoint) :
  data <> [] ->
  (forall p, In p data -> (F32.of_int 0 <= amp p)%f32 = true) ->
  In (get_max_peak data (Z.of_nat (List.length data))) data
  /\ get_max_peak data (Z.of_nat (List.length data)) <> sentinel
  /\ (forall p, In p data ->
        (amp p <= amp (get_max_peak data (Z.of_nat (List.length data))))%f32
        = true).
Proof.
  intros Hne Hpos.
  unfold get_max_peak. rewrite firstn_all_Z.
  assert (Hnan : forall p, In p data -> F32.is_nan (amp p) = false)
    by (intros p Hp; apply (F32Facts.le_not_nan _ _ (Hpos p Hp))).
  destruct (max_fold_upper data sentinel eq_refl Hnan) as (Hin & _ & Hall).
  set (r := fold_left max_step data sentinel) in *.
  assert (Hr : (F32.of_int 0 <= amp r)%f32 = true).
  { destruct data as [|p t]; [contradiction Hne; reflexivity|].
    eapply F32Facts.le_trans;
      [apply (Hpos p); left; reflexivity | apply Hall; left; reflexivity]. }
  assert (Hs : r <> sentinel) by (intros E; rewrite E in Hr; discriminate Hr).
  split; [|split; [exact Hs|exact Hall]].
  destruct Hin as [E|Hin]; [contradiction (Hs E)|exact Hin].
Qed.

(** C10. For every non-empty sequence of data points whose amplitudes are
    all at least 0, [get_max_peak] returns one of the points, never the
    sentinel, and the amplitude of the returned point is at least every
    amplitude of the sequence; the points [format_data] makes from
    non-negative samples are such a sequence. *)
Theorem get_max_peak_nonnegative :
  (forall data : list Datapoint,
      data <> [] ->
      (forall p, In p data -> (F32.of_int 0 <= amp p)%f32 = true) ->
      In (get_max_peak data (Z.of_nat (List.length data))) data
      /\ get_max_peak data (Z.of_nat (List.length data)) <> sentinel
      /\ (forall p, In p data ->
            (amp p <= amp (get_max_peak data (Z.of_nat (List.length data))))%f32
            = true))
  /\ (forall (samples : list Z) (start end_ : float),
         samples <> [] ->
         Forall (fun v => 0 <= v) samples ->
         let n := Z.of_nat (List.length samples) in
         let data := format_data samples n start end_ in
         In (get_max_peak data n) data
         /\ get_max_peak data n <> sentinel
         /\ (forall p, In p data ->
               (amp p <= amp (get_max_peak data n))%f32 = true)).
Proof.
  split; [exact max_peak_of_nonnegative|].
  intros samples start end_ Hne Hs n data.
  assert (Hlen : List.length data = List.length samples).
  { unfold data, format_data. rewrite format_data_loop_length.
    unfold n. apply Nat2Z.id. }
  assert (Hn : Z.of_nat (List.length data) = n)
    by (rewrite Hlen; reflexivity).
  rewrite <- Hn.
  apply max_peak_of_nonnegative.
  - intros E. apply Hne. destruct samples; [reflexivity|].
    rewrite E in Hlen. discriminate Hlen.
  - intros p Hp. unfold data, format_data in Hp.
    apply (format_data_loop_nonnegative _ _ _ _ Hs _ _ Hp).
Qed.

Lemma get_max_peak_nonnegative_witness :
  (In (get_max_peak [point 0 0; point 1 7; point 2 7] 3)
      [point 0 0; point 1 7; point 2 7]
   /\ get_max_peak [point 0 0; point 1 7; point 2 7] 3 <> sentinel
   /\ (forall p, In p [point 0 0; point 1 7; point 2 7] ->
         (amp p <= amp (get_max_peak [point 0 0; point 1 7; point 2 7] 3))%f32
         = true))
  /\ get_max_peak (format_data [0; 7; 7] 3 f32_0_12 (f32_0_12 + f32_0_48)%f32) 3
     <> sentinel.
Proof.
  split.
  - apply (proj1 get_max_peak_nonnegative [point 0 0; point 1 7; point 2 7]).
    + discriminate.
    + intros p [<-|[<-|[<-|[]]]]; reflexivity.
  - apply (proj2 get_max_peak_nonnegative [0; 7; 7] f32_0_12
             (f32_0_12 + f32_0_48)%f32).
    + discriminate.
    + repeat constructor; lia.
Defined.

(** ** Detection loop *)

Section DetectionLoop.

Variable app_config : app_configuration_t.
Variables avg_calib_amp avg_amp_factor : float.

Local Abbreviation classify :=
  (sweep_and_classify app_config avg_calib_amp avg_amp_factor).
Local Abbreviation results :=
  (classifications app_config avg_calib_amp avg_amp_factor).
Local Abbreviation seconds := (unsigned (time_delay app_config)).

Lemma car_present_result (a b c : float) :
  car_present a b c = 0 \/ car_present a b c = 1.
Proof. unfold car_present. destruct (F32.le _ _); auto. Qed.

(** An acquisition uses the first reply only and hands the others on. *)
Lemma sweep_and_classify_cons reply h envelope_data data_len :
  classify (reply :: h) envelope_data data_len
  = match classify [reply] envelope_data data_len with
    | Done (result, data_len', envelope_data', _) =>
        Done (result, data_len', envelope_data', h)
    | other => other
    end.
Proof.
  unfold sweep_and_classify, get_one_sweep.
  destruct reply as [samples|]; simpl; [|reflexivity].
  destruct (_ <? _); reflexivity.
Qed.

Lemma sweep_and_classify_result h envelope_data data_len r d e h' :
  classify h envelope_data data_len = Done (r, d, e, h') ->
  r = 0 \/ r = 1.
Proof.
  unfold sweep_and_classify.
  destruct (get_one_sweep h envelope_data data_len)
    as [[[d0 e0] h0]| | | |]; simpl; intros H; inversion H.
  apply car_present_result.
Qed.

Lemma results_length h :
  forall envelope_data data_len,
    (List.length (results h envelope_data data_len) <= List.length h)%nat.
Proof.
  induction h as [|reply h IH]; intros; [simpl; lia|].
  cbn [classifications].
  destruct (classify [reply] envelope_data data_len)
    as [[[[r d] e] h0]| | | |]; simpl; try lia.
  specialize (IH e d). lia.
Qed.

(** The [while] loop, entered with the previous result in [result]: when
    the coming sweeps classify as [cs] and sweep [k] of them is the first
    to repeat its predecessor, the loop takes exactly [k + 1] sweeps,
    sleeps before each and returns the result of the last. *)
Lemma detection_loop_stabilises (k : nat) :
  forall fuel h envelope_data data_len first_res result trace,
    first_res <> result ->
    (k < List.length (results h envelope_data data_len))%nat ->
    (k < fuel)%nat ->
    nth (S k) (result :: results h envelope_data data_len) 0
    = nth k (result :: results h envelope_data data_len) 0 ->
    (forall j, (j < k)%nat ->
       nth (S j) (result :: results h envelope_data data_len) 0
       <> nth j (result :: results h envelope_data data_len) 0) ->
    detection_loop fuel app_config avg_calib_amp avg_amp_factor
      h envelope_data data_len first_res result trace
    = Done (nth k (results h envelope_data data_len) 0,
            skipn (S k) h,
            trace ++ later_sweeps seconds
                       (firstn (S k) (results h envelope_data data_len))).
Proof.
  induction k as [|k IH];
    intros fuel h envelope_data data_len first_res result trace
      Hne Hlen Hfuel Hstop Hdiffer;
    (destruct fuel as [|fuel]; [lia|]);
    (destruct h as [|reply h]; [simpl in Hlen; lia|]);
    cbn [detection_loop];
    (replace (first_res =? result) with false
      by (symmetry; apply Z.eqb_neq; exact Hne));
    cbn [negb];
    rewrite sweep_and_classify_cons;
    cbn [classifications] in *;
    destruct (classify [reply] envelope_data data_len)
      as [[[[r d] e] h0]| | | |]; try (simpl in Hlen; lia);
    cbn [bind]; cbn [List.length nth firstn skipn] in *.
  - (* the next sweep repeats the result at hand *)
    destruct fuel as [|fuel]; cbn [detection_loop];
      rewrite Hstop, Z.eqb_refl; cbn [negb];
      unfold later_sweeps; simpl; rewrite <- app_assoc; reflexivity.
  - (* the next sweep differs; the loop goes on from it *)
    assert (Hr : result <> r)
      by (intros E; apply (Hdiffer O); [lia|symmetry; exact E]).
    rewrite (IH fuel h e d result r); try lia; try assumption.
    + unfold later_sweeps. cbn [flat_map].
      rewrite <- !app_assoc. reflexivity.
    + intros j Hj. apply (Hdiffer (S j)). lia.
Qed.

End DetectionLoop.

(** C2. In debounced mode the detection loop returns the classification of
    the first sweep that classifies as the sweep before it, having taken no
    sweep beyond that one and having slept between any two sweeps; when the
    sweeps classify as Occupied, Empty, Empty it stops after the third sweep
    and returns Empty; in single-shot mode it returns the classification of
    the first sweep without sleeping. *)
Theorem get_detection_debounce :
  (forall garbage sensor app_config avg_calib_amp avg_amp_factor (k : nat),
      sweep_configuration_available sensor = true ->
      service_created sensor = true ->
      delay app_config = true ->
      let cs :=
        classifications app_config avg_calib_amp avg_amp_factor
          (replies sensor) (local_array garbage MAX_DATA_SIZE) MAX_DATA_SIZE in
      (1 <= k < List.length cs)%nat ->
      nth k cs 0 = nth (k - 1) cs 0 ->
      (forall j, (1 <= j < k)%nat -> nth j cs 0 <> nth (j - 1) cs 0) ->
      get_detection garbage sensor app_config avg_calib_amp avg_amp_factor
      = Done (nth k cs 0,
              skipn (S k) (replies sensor),
              debounce_trace (unsigned (time_delay app_config))
                (firstn (S k) cs)))
  /\ (forall garbage sensor app_config avg_calib_amp avg_amp_factor later,
         sweep_configuration_available sensor = true ->
         service_created sensor = true ->
         delay app_config = true ->
         classifications app_config avg_calib_amp avg_amp_factor
           (replies sensor) (local_array garbage MAX_DATA_SIZE) MAX_DATA_SIZE
         = Occupied :: Empty :: Empty :: later ->
         get_detection garbage sensor app_config avg_calib_amp avg_amp_factor
         = Done (Empty,
                 skipn 3 (replies sensor),
                 [Printed Occupied;
                  Slept (unsigned (time_delay app_config)); Printed Empty;
                  Slept (unsigned (time_delay app_config)); Printed Empty]))
  /\ (forall garbage sensor app_config avg_calib_amp avg_amp_factor c later,
         sweep_configuration_available sensor = true ->
         service_created sensor = true ->
         delay app_config = false ->
         classifications app_config avg_calib_amp avg_amp_factor
           (replies sensor) (local_array garbage MAX_DATA_SIZE) MAX_DATA_SIZE
         = c :: later ->
         get_detection garbage sensor app_config avg_calib_amp avg_amp_factor
         = Done (c, skipn 1 (replies sensor), [Printed c])).
Proof.
  assert (Hdebounce :
    forall garbage sensor app_config avg_calib_amp avg_amp_factor (k : nat),
      sweep_configuration_available sensor = true ->
      service_created sensor = true ->
      delay app_config = true ->
      let cs :=
        classifications app_config avg_calib_amp avg_amp_factor
          (replies sensor) (local_array garbage MAX_DATA_SIZE) MAX_DATA_SIZE in
      (1 <= k < List.length cs)%nat ->
      nth k cs 0 = nth (k - 1) cs 0 ->
      (forall j, (1 <= j < k)%nat -> nth j cs 0 <> nth (j - 1) cs 0) ->
      get_detection garbage sensor app_config avg_calib_amp avg_amp_factor
      = Done (nth k cs 0,
              skipn (S k) (replies sensor),
              debounce_trace (unsigned (time_delay app_config))
                (firstn (S k) cs))).
  { intros garbage sensor app_config calib factor k Hcfg Hsvc Hdelay cs
      Hk Hstop Hdiffer.
    unfold get_detection, create_sensor_service.
    rewrite Hcfg, Hsvc, Hdelay. cbn [negb bind].
    subst cs. destruct (replies sensor) as [|reply h]; [simpl in Hk; lia|].
    rewrite sweep_and_classify_cons.
    cbn [classifications] in *.
    destruct (sweep_and_classify app_config calib factor [reply] _ _)
      as [[[[c0 d] e] h0]| | | |] eqn:Hfirst; try (simpl in Hk; lia).
    cbn [bind].
    destruct k as [|k]; [lia|].
    replace (S k - 1)%nat with k in Hstop by lia.
    rewrite (detection_loop_stabilises app_config calib factor k).
    - reflexivity.
    - destruct (sweep_and_classify_result _ _ _ _ _ _ _ _ _ _ Hfirst); lia.
    - simpl in Hk. lia.
    - pose proof (results_length app_config calib factor h e d).
      simpl in Hk. simpl. lia.
    - exact Hstop.
    - intros j Hj. specialize (Hdiffer (S j)).
      replace (S j - 1)%nat with j in Hdiffer by lia.
      apply Hdiffer. lia. }
  split; [exact Hdebounce|split].
  - intros garbage sensor app_config calib factor later Hcfg Hsvc Hdelay Hcs.
    pose proof (Hdebounce garbage sensor app_config calib factor 2%nat
                  Hcfg Hsvc Hdelay) as H.
    cbv zeta in H. rewrite Hcs in H. apply H.
    + simpl. lia.
    + reflexivity.
    + intros j Hj. assert (j = 1%nat) by lia. subst j. discriminate.
  - intros garbage sensor app_config calib factor c later Hcfg Hsvc Hdelay Hcs.
    unfold get_detection, create_sensor_service.
    rewrite Hcfg, Hsvc, Hdelay. cbn [negb bind].
    destruct (replies sensor) as [|reply h]; [discriminate Hcs|].
    rewrite sweep_and_classify_cons.
    cbn [classifications] in Hcs.
    destruct (sweep_and_classify app_config calib factor [reply] _ _)
      as [[[[c0 d] e] h0]| | | |]; try discriminate Hcs.
    inversion Hcs. reflexivity.
Qed.

Lemma get_detection_debounce_witness :
  get_detection zero_garbage (sensor_of [[9]; [8]; [8]; [9]])
    (example_config f32_0_12 f32_0_48 true) (F32.of_int 2) (F32.of_int 1)
  = Done (Empty, [Some [9]],
          [Printed Occupied; Slept 10; Printed Empty; Slept 10; Printed Empty])
  /\ get_detection zero_garbage (sensor_of [[9]; [8]; [8]; [9]])
       (example_config f32_0_12 f32_0_48 false) (F32.of_int 2) (F32.of_int 1)
     = Done (Occupied, [Some [8]; Some [8]; Some [9]], [Printed Occupied]).
Proof.
  split.
  - apply (proj1 (proj2 get_detection_debounce) zero_garbage
             (sensor_of [[9]; [8]; [8]; [9]])
             (example_config f32_0_12 f32_0_48 true)
             (F32.of_int 2) (F32.of_int 1) [Occupied]);
      vm_compute; reflexivity.
  - apply (proj2 (proj2 get_detection_debounce) zero_garbage
             (sensor_of [[9]; [8]; [8]; [9]])
             (example_config f32_0_12 f32_0_48 false)
             (F32.of_int 2) (F32.of_int 1) Occupied [Empty; Empty; Occupied]);
      vm_compute; reflexivity.
Defined.

(** ** Calibration store *)

(** ** Reading back a written calibration file *)

Section RoundTrip.

Import Stdio.

Lemma scan_unsigned_skip (bits : Z) (s : string) :
  scan_unsigned bits (skip_space s) = scan_unsigned bits s.
Proof. unfold scan_unsigned. rewrite StdioFacts.skip_space_idempotent. reflexivity. Qed.

Lemma scan_float_skip (s : string) : scan_float (skip_space s) = scan_float s.
Proof. unfold scan_float. rewrite StdioFacts.skip_space_idempotent. reflexivity. Qed.

Lemma skip_space_print_u (v : Z) (t : string) :
  0 <= v -> skip_space (print_u v ++ t) = (print_u v ++ t)%string.
Proof.
  intros H. destruct (StdioFacts.print_u_head v H) as (d & tl & -> & Hd).
  cbn [append skip_space]. rewrite (StdioFacts.digit_not_space d Hd).
  reflexivity.
Qed.

Lemma skip_space_print_samples (data : list Z) :
  Forall is_uint16 data -> skip_space (print_samples data) = print_samples data.
Proof.
  intros H. destruct H as [|v data Hv _]; [reflexivity|].
  cbn [print_samples]. rewrite StdioFacts.print_d_nonnegative by apply Hv.
  apply skip_space_print_u, Hv.
Qed.

Lemma store_middle {A} (pre : list A) (x v : A) (post : list A) :
  store (pre ++ x :: post) (List.length pre) v = pre ++ v :: post.
Proof. induction pre as [|p pre IH]; simpl; [|rewrite IH]; reflexivity. Qed.

(** The keyword lines of the header. *)
Lemma fscanf_start (x : float) (rest : string) :
  survives_text x ->
  fscanf ("start " ++ print_f x ++ nl ++ rest) fmt_start
  = Some {| returned := 1; assigned := [Float x]; rest := skip_space rest |}.
Proof.
  intros Hx. unfold fscanf.
  change (fscanf_from fmt_start [] ("start " ++ print_f x ++ nl ++ rest))
    with (convert Float (scan_float (skip_space (print_f x ++ nl ++ rest)))
            (fscanf_from [White]) []
            (skip_space (print_f x ++ nl ++ rest))).
  rewrite scan_float_skip, Hx. reflexivity.
Qed.

Lemma fscanf_length (x : float) (rest : string) :
  survives_text x ->
  fscanf ("length " ++ print_f x ++ nl ++ rest) fmt_length
  = Some {| returned := 1; assigned := [Float x]; rest := skip_space rest |}.
Proof.
  intros Hx. unfold fscanf.
  change (fscanf_from fmt_length [] ("length " ++ print_f x ++ nl ++ rest))
    with (convert Float (scan_float (skip_space (print_f x ++ nl ++ rest)))
            (fscanf_from [White]) []
            (skip_space (print_f x ++ nl ++ rest))).
  rewrite scan_float_skip, Hx. reflexivity.
Qed.

Lemma fscanf_n (n : Z) (rest : string) :
  0 <= n < 4294967296 ->
  fscanf ("n " ++ print_u n ++ nl ++ rest) fmt_n
  = Some {| returned := 1; assigned := [UInt n]; rest := skip_space rest |}.
Proof.
  intros Hn. unfold fscanf.
  change (fscanf_from fmt_n [] ("n " ++ print_u n ++ nl ++ rest))
    with (convert UInt
            (scan_unsigned 32
               (skip_space (print_u n ++ String (ascii_of_nat 10) rest)))
            (fscanf_from [White]) []
            (skip_space (print_u n ++ String (ascii_of_nat 10) rest))).
  rewrite scan_unsigned_skip, StdioFacts.scan_unsigned_print_u
    by (try reflexivity; lia).
  change (2 ^ 32) with 4294967296. rewrite Z.mod_small by exact Hn.
  reflexivity.
Qed.

(** The reading loop on the text the writing loop has produced. *)
Lemma read_samples_print_samples (data : list Z) :
  forall (pre mid post : list Z) (s : string),
    Forall is_uint16 data ->
    List.length mid = List.length data ->
    Z.of_nat (List.length pre + List.length data) < 65536 ->
    skip_space s = print_samples data ->
    exists s' : string,
      read_samples (List.length data) (Z.of_nat (List.length pre)) s
        (pre ++ mid ++ post) (Z.of_nat (List.length pre))
      = Done (Z.of_nat (List.length pre + List.length data),
              pre ++ data ++ post, s').
Proof.
  induction data as [|v data IH]; intros pre mid post s Hdata Hmid Hlen Hs.
  - destruct mid; [|discriminate Hmid]. exists s. simpl.
    rewrite Nat.add_0_r. reflexivity.
  - destruct mid as [|m mid]; [discriminate Hmid|].
    inversion Hdata as [|? ? Hv Hrest]; subst.
    cbn [List.length read_samples]. unfold scan, fscanf.
    cbn [fscanf_from]. rewrite <- scan_unsigned_skip, Hs.
    cbn [print_samples]. rewrite StdioFacts.print_d_nonnegative by apply Hv.
    change (print_u v ++ " " ++ print_samples data)%string
      with (print_u v ++ String " " (print_samples data))%string.
    rewrite StdioFacts.scan_unsigned_print_u by (try reflexivity; apply Hv).
    change (2 ^ 16) with 65536. rewrite Z.mod_small by apply Hv.
    cbn [convert fscanf_from stop bind app returned assigned rest List.length].
    assert (Hin : (Z.of_nat (List.length pre)
                   <? Z.of_nat (List.length (pre ++ m :: mid ++ post))) = true)
      by (apply Z.ltb_lt; rewrite length_app; cbn [List.length]; lia).
    rewrite Hin, Nat2Z.id, store_middle.
    replace (uint16_t (Z.of_nat (List.length pre) + Z.of_nat 1))
      with (Z.of_nat (List.length (pre ++ [v]))).
    2:{ rewrite length_app. cbn [List.length]. unfold uint16_t.
        cbn [List.length] in Hlen. rewrite Z.mod_small; lia. }
    replace (Z.of_nat (List.length pre) + 1)
      with (Z.of_nat (List.length (pre ++ [v])))
      by (rewrite length_app; cbn [List.length]; lia).
    replace (pre ++ v :: mid ++ post) with ((pre ++ [v]) ++ mid ++ post)
      by (rewrite <- app_assoc; reflexivity).
    destruct (IH (pre ++ [v]) mid post (String " " (print_samples data)))
      as (s' & Hloop).
    + exact Hrest.
    + simpl in Hmid. lia.
    + rewrite length_app. cbn [List.length] in *. lia.
    + change (skip_space (String " " (print_samples data)))
        with (skip_space (print_samples data)).
      apply skip_space_print_samples, Hrest.
    + exists s'. rewrite Hloop, length_app. cbn [List.length].
      rewrite <- app_assoc. cbn [app].
      replace (List.length pre + 1 + List.length data)%nat
        with (List.length pre + S (List.length data))%nat by lia.
      reflexivity.
Qed.

Lemma skip_space_length_line (t : string) :
  skip_space ("length " ++ t) = ("length " ++ t)%string.
Proof. reflexivity. Qed.

Lemma skip_space_n_line (t : string) :
  skip_space ("n " ++ t) = ("n " ++ t)%string.
Proof. reflexivity. Qed.

Lemma local_array_length (garbage : Z -> Z) (cells : Z) :
  List.length (local_array garbage cells) = Z.to_nat cells.
Proof. unfold local_array. rewrite length_map, length_seq. reflexivity. Qed.

Lemma map_uint16_t (data : list Z) :
  Forall is_uint16 data -> map uint16_t data = data.
Proof.
  induction 1 as [|v data Hv _ IH]; simpl; [reflexivity|].
  rewrite IH. unfold uint16_t. rewrite Z.mod_small by exact Hv. reflexivity.
Qed.

Lemma min_small (n : Z) : 0 <= n <= MAX_DATA_SIZE -> min n MAX_DATA_SIZE = n.
Proof.
  unfold min, uint16_t, MAX_DATA_SIZE. intros H.
  rewrite Z.mod_small by lia. change (3000 mod 65536) with 3000.
  destruct (n <? 3000) eqn:E; [reflexivity|]. apply Z.ltb_ge in E. lia.
Qed.

(** What [write_calibration_data] leaves in the file when the sensor
    delivers [samples]. *)
Lemma write_calibration_data_text files writable garbage app_config samples :
  writable (calibration_file_name app_config) = true ->
  Forall is_uint16 samples ->
  (List.length samples <= 3000)%nat ->
  write_calibration_data files writable garbage (sensor_of [samples])
    app_config
  = Done (update files (calibration_file_name app_config)
            (calibration_text (start_range (radar_config app_config))
               (length_range (radar_config app_config))
               (Z.of_nat (List.length samples)) samples)).
Proof.
  intros Hw Hu Hlen.
  unfold write_calibration_data, create_sensor_service, sensor_of,
    get_one_sweep.
  cbn [sweep_configuration_available service_created replies negb bind map].
  rewrite local_array_length.
  replace (Z.of_nat (Z.to_nat MAX_DATA_SIZE) <? Z.of_nat (List.length samples))
    with false by (symmetry; apply Z.ltb_ge; unfold MAX_DATA_SIZE; lia).
  cbn [bind]. rewrite Hw, min_small by (unfold MAX_DATA_SIZE; lia).
  cbn [negb]. unfold calibration_text.
  rewrite Nat2Z.id, (map_uint16_t samples Hu).
  rewrite firstn_app, firstn_all, Nat.sub_diag, firstn_O, app_nil_r.
  reflexivity.
Qed.

(** What the first half of [read_and_calculate_threshold] makes of that
    text. *)
Lemma read_calibration_text files garbage app_config start length samples :
  files (calibration_file_name app_config)
  = Some (calibration_text start length (Z.of_nat (List.length samples))
            samples) ->
  survives_text start ->
  survives_text length ->
  Forall is_uint16 samples ->
  (List.length samples <= 3000)%nat ->
  read_calibration_file_content files garbage app_config
  = Done (start, length, Z.of_nat (List.length samples),
          samples ++ skipn (List.length samples)
                       (local_array garbage MAX_DATA_SIZE)).
Proof.
  intros Hfile Hstart Hlength Hu Hlen.
  unfold read_calibration_file_content. rewrite Hfile.
  unfold calibration_text, scan.
  rewrite (fscanf_start start _ Hstart). cbn [bind rest returned].
  rewrite skip_space_length_line, (fscanf_length length _ Hlength).
  cbn [bind rest returned].
  rewrite skip_space_n_line, fscanf_n by lia.
  cbn [bind rest returned assigned assigned_float assigned_uint].
  change (negb (uint16_t (uint16_t (uint16_t 1 + 1) + 1) =? 3)) with false.
  cbv iota.
  rewrite Nat2Z.id, firstn_all.
  set (a := local_array garbage MAX_DATA_SIZE).
  assert (Ha : List.length a = 3000%nat) by apply local_array_length.
  destruct (read_samples_print_samples samples []
              (firstn (List.length samples) a)
              (skipn (List.length samples) a)
              (skip_space (print_samples samples)))
    as (s' & Hloop).
  - exact Hu.
  - rewrite length_firstn. lia.
  - cbn [List.length]. lia.
  - rewrite StdioFacts.skip_space_idempotent.
    apply skip_space_print_samples, Hu.
  - cbn [List.length app Nat.add] in Hloop.
    rewrite firstn_skipn in Hloop.
    change (Z.of_nat 0) with 0 in Hloop. rewrite Hloop. cbn [bind].
    rewrite Z.eqb_refl. reflexivity.
Qed.

(** At the end of the file every call of the reading loop returns [EOF],
    and the 16-bit sum goes down by one each time, around zero. *)
Lemma read_samples_at_end_of_file (k : nat) :
  forall (i : Z) (threshold_data : list Z) (res : Z),
    0 <= res < 65536 ->
    read_samples k i EmptyString threshold_data res
    = Done ((res - Z.of_nat k) mod 65536, threshold_data, EmptyString).
Proof.
  induction k as [|k IH]; intros i threshold_data res Hres.
  - cbn [read_samples]. rewrite Z.sub_0_r, Z.mod_small by exact Hres.
    reflexivity.
  - cbn [read_samples]. unfold scan. cbn [fscanf fscanf_from scan_unsigned
      skip_space convert stop bind returned assigned rest].
    rewrite IH by (apply Z.mod_pos_bound; lia).
    unfold uint16_t, EOF.
    replace (res - Z.of_nat (S k)) with (res + -1 - Z.of_nat k) by lia.
    rewrite Zminus_mod_idemp_l. reflexivity.
Qed.

(** A file that ends behind its header: the second format check compares
    the announced count with the 16-bit sum of that many [EOF]. *)
Lemma read_header_only files garbage app_config start length n :
  files (calibration_file_name app_config)
  = Some (calibration_text start length n []) ->
  survives_text start ->
  survives_text length ->
  0 <= n < 4294967296 ->
  read_calibration_file_content files garbage app_config
  = if (0 - n) mod 65536 =? n
    then Done (start, length, n, local_array garbage MAX_DATA_SIZE)
    else Fatal format_error.
Proof.
  intros Hfile Hstart Hlength Hn.
  unfold read_calibration_file_content. rewrite Hfile.
  unfold calibration_text, scan.
  rewrite (fscanf_start start _ Hstart). cbn [bind rest returned].
  rewrite skip_space_length_line, (fscanf_length length _ Hlength).
  cbn [bind rest returned].
  rewrite skip_space_n_line, fscanf_n by lia.
  cbn [bind rest returned assigned assigned_float assigned_uint].
  change (negb (uint16_t (uint16_t (uint16_t 1 + 1) + 1) =? 3)) with false.
  cbv iota.
  rewrite firstn_nil. cbn [print_samples skip_space].
  rewrite read_samples_at_end_of_file by lia.
  cbn [bind]. rewrite Z2Nat.id by lia.
  destruct ((0 - n) mod 65536 =? n); reflexivity.
Qed.

End RoundTrip.

Lemma survives_text_0_1 : survives_text f32_0_1.
Proof. intros rest. reflexivity. Qed.

Lemma survives_text_0_5 : survives_text f32_0_5.
Proof. intros rest. reflexivity. Qed.

(** C7. After a successful read of the calibration file the configured
    start range is the file's start when the two differ and is unchanged
    otherwise, the configured length range is the file's length when that
    is strictly less than the configured one and is unchanged otherwise,
    and every other field of the configuration is what it was. *)
Theorem read_adjusts_only_the_ranges
  (e : endianness) (files : string -> option string) (garbage : Z -> Z)
  (app_config app_config' : app_configuration_t) (th : threshold_t) :
  read_and_calculate_threshold e files garbage app_config
  = Done (app_config', th) ->
  exists (start length : float) (n : Z) (threshold_data : list Z),
    read_calibration_file_content files garbage app_config
    = Done (start, length, n, threshold_data)
    /\ start_range (radar_config app_config')
       = (if (start != start_range (radar_config app_config))%f32
          then start else start_range (radar_config app_config))
    /\ length_range (radar_config app_config')
       = (if (length < length_range (radar_config app_config))%f32
          then length else length_range (radar_config app_config))
    /\ nbr_of_sweeps (radar_config app_config')
       = nbr_of_sweeps (radar_config app_config)
    /\ frequency (radar_config app_config')
       = frequency (radar_config app_config)
    /\ sensor (radar_config app_config') = sensor (radar_config app_config)
    /\ calibrate app_config' = calibrate app_config
    /\ read_calibration_file app_config' = read_calibration_file app_config
    /\ loglevel app_config' = loglevel app_config
    /\ calibration_file_name app_config' = calibration_file_name app_config
    /\ time_delay app_config' = time_delay app_config
    /\ delay app_config' = delay app_config.
Proof.
  unfold read_and_calculate_threshold.
  destruct (read_calibration_file_content files garbage app_config)
    as [[[[start length] n] threshold_data]| | | |];
    cbn [bind]; intros H; try discriminate H.
  injection H as Hcfg _. subst app_config'.
  exists start, length, n, threshold_data.
  split; [reflexivity|].
  destruct (start != start_range (radar_config app_config))%f32;
    cbn [set_start_range radar_config start_range length_range];
    destruct (length < length_range (radar_config app_config))%f32;
    cbn; repeat split; reflexivity.
Qed.

Lemma read_adjusts_only_the_ranges_witness :
  exists (start length : float) (n : Z) (threshold_data : list Z),
    read_calibration_file_content
      (stored (calibration_text f32_0_1 f32_0_5 3 [10; 20; 30]))
      zero_garbage (example_config f32_0_12 f32_0_48 false)
    = Done (start, length, n, threshold_data)
    /\ start_range (radar_config
                      (set_start_range (example_config f32_0_12 f32_0_48 false)
                         f32_0_1))
       = (if (start != f32_0_12)%f32 then start else f32_0_12).
Proof.
  destruct (read_adjusts_only_the_ranges LittleEndian
              (stored (calibration_text f32_0_1 f32_0_5 3 [10; 20; 30]))
              zero_garbage (example_config f32_0_12 f32_0_48 false)
              (set_start_range (example_config f32_0_12 f32_0_48 false) f32_0_1)
              {| avg_calib_amp := F32.of_int 10;
                 peak_amp :=
                   {| dist := S754_finite false 14092861 (-25);
                      amp := F32.of_int 30 |};
                 avg_amp_factor := F32.of_int 3 |})
    as (start & length & n & data & Hread & Hstart & _).
  - vm_compute. reflexivity.
  - exists start, length, n, data. split; [exact Hread | exact Hstart].
Defined.

(** C1 (the code departs from the claim). For the valid record with start
    0.1, length 0.5 and the four samples 40, 30, 20, 10 the function
    delivers the baseline 7.5, a peak of amplitude 20 and their ratio,
    where the mean of the mapped samples is 25 and their peak has amplitude
    40: the [memset] that follows the reading has cleared the first four
    bytes of the samples just read. *)
Theorem read_and_calculate_threshold_clears_samples :
  forall (e : endianness) (garbage : Z -> Z),
    let samples := [40; 30; 20; 10] in
    let app_config := example_config f32_0_1 f32_0_5 false in
    let files := stored (calibration_text f32_0_1 f32_0_5 4 samples) in
    let mapped := format_data samples 4 f32_0_1 (f32_0_1 + f32_0_5)%f32 in
    exists th : threshold_t,
      read_and_calculate_threshold e files garbage app_config
      = Done (app_config, th)
      /\ avg_calib_amp th = F32.of_decimal false 75 (-1)
      /\ get_average_amplitude mapped 4 = F32.of_int 25
      /\ peak_amp th = nth 2 mapped sentinel
      /\ get_max_peak mapped 4 = nth 0 mapped sentinel
      /\ avg_amp_factor th = (F32.of_int 20 / F32.of_decimal false 75 (-1))%f32
      /\ avg_amp_factor th
         <> (amp (get_max_peak mapped 4) / get_average_amplitude mapped 4)%f32.
Proof.
  intros e garbage samples app_config files mapped.
  eexists. split; [vm_compute; reflexivity|].
  repeat split; try (vm_compute; reflexivity).
  vm_compute. discriminate.
Qed.

(** C4 (the code departs from the claim). A file that announces 3001
    samples and holds them makes the reading loop store the last of them
    in cell 3000 of the 3000-cell buffer: the count is clamped only after
    the loop. *)
Theorem read_samples_stores_beyond_the_buffer :
  forall (e : endianness) (garbage : Z -> Z),
    read_and_calculate_threshold e
      (stored (calibration_text f32_0_1 f32_0_5 3001 (repeat 1 3001)))
      garbage (example_config f32_0_1 f32_0_5 false)
    = OutOfBounds MAX_DATA_SIZE.
Proof. intros e garbage. vm_compute. reflexivity. Qed.

(** C5 (the code departs from the claim). A file that announces 5 samples
    and holds 3 is rejected with the format error; but a file that
    announces 32768 samples and holds none is accepted: each of the 32768
    calls returns EOF, and the 16-bit sum of these -1 is 32768 again. *)
Theorem format_check_wraps_around :
  forall (e : endianness) (garbage : Z -> Z),
    read_and_calculate_threshold e
      (stored (calibration_text f32_0_1 f32_0_5 5 [1; 2; 3]))
      garbage (example_config f32_0_1 f32_0_5 false)
    = Fatal format_error
    /\ Stdio.fscanf EmptyString [Stdio.Conv_hu]
       = Some {| Stdio.returned := Stdio.EOF;
                 Stdio.assigned := [];
                 Stdio.rest := EmptyString |}
    /\ read_calibration_file_content
         (stored (calibration_text f32_0_1 f32_0_5 32768 []))
         garbage (example_config f32_0_1 f32_0_5 false)
       = Done (f32_0_1, f32_0_5, 32768, local_array garbage MAX_DATA_SIZE)
    /\ exists r,
        read_and_calculate_threshold e
          (stored (calibration_text f32_0_1 f32_0_5 32768 []))
          garbage (example_config f32_0_1 f32_0_5 false)
        = Done r.
Proof.
  intros e garbage.
  assert (H : read_calibration_file_content
                (stored (calibration_text f32_0_1 f32_0_5 32768 []))
                garbage (example_config f32_0_1 f32_0_5 false)
              = Done (f32_0_1, f32_0_5, 32768,
                      local_array garbage MAX_DATA_SIZE)).
  { rewrite (read_header_only _ _ _ f32_0_1 f32_0_5 32768);
      [reflexivity | reflexivity | exact survives_text_0_1
       | exact survives_text_0_5 | lia]. }
  split; [vm_compute; reflexivity|].
  split; [reflexivity|].
  split; [exact H|].
  unfold read_and_calculate_threshold. rewrite H. cbn [bind].
  eexists. reflexivity.
Qed.

(** ** The text of a float read back *)

Section WrittenFloat.

Import Stdio.

Lemma append_associative (a b c : string) :
  ((a ++ b) ++ c = a ++ (b ++ c))%string.
Proof. induction a as [|x a IH]; cbn; [|rewrite IH]; reflexivity. Qed.

Lemma micro_units_nonnegative (m : positive) (e : Z) : 0 <= micro_units m e.
Proof.
  unfold micro_units. destruct (0 <=? e) eqn:E.
  - apply Z.leb_le in E.
    apply Z.mul_nonneg_nonneg; [|lia].
    apply Z.mul_nonneg_nonneg; [lia|]. apply Z.pow_nonneg. lia.
  - apply Z.leb_gt in E.
    assert (Hd : 0 < 2 ^ (- e)) by (apply Z.pow_pos_nonneg; lia).
    assert (Hq : 0 <= Z.pos m * 1000000 / 2 ^ (- e))
      by (apply Z.div_pos; lia).
    cbv zeta.
    repeat match goal with |- context [if ?b then _ else _] => destruct b end;
      lia.
Qed.

(** Reading back the digits [padded] has produced. *)
Lemma digits_padded (k : nat) :
  forall (n : Z) (acc t : string) (a c : Z),
    0 <= n ->
    digits (padded k n acc ++ t) a c
    = digits (acc ++ t) (a * 10 ^ Z.of_nat k + n mod 10 ^ Z.of_nat k)
        (c + Z.of_nat k).
Proof.
  induction k as [|k IH]; intros n acc t a c Hn.
  - cbn [padded]. change (10 ^ Z.of_nat 0) with 1.
    rewrite Z.mod_1_r, Z.mul_1_r, !Z.add_0_r. reflexivity.
  - cbn [padded]. rewrite IH by (apply Z.div_pos; lia).
    destruct (StdioFacts.digit_char_spec (n mod 10)) as (Hd & _ & Hv);
      [apply Z.mod_pos_bound; lia|].
    cbn [append digits]. rewrite Hd, Hv.
    rewrite Nat2Z.inj_succ, Z.pow_succ_r by lia.
    f_equal; [|lia].
    rewrite (Z.mul_comm 10 (10 ^ Z.of_nat k)).
    assert (Hp : 0 < 10 ^ Z.of_nat k) by (apply Z.pow_pos_nonneg; lia).
    rewrite (Z.mul_comm (10 ^ Z.of_nat k) 10).
    rewrite (Z.rem_mul_r n 10 (10 ^ Z.of_nat k)) by lia.
    lia.
Qed.

(** Behind its first digit a decimal numeral goes on with a digit or
    ends. *)
Lemma decimal_from_second (fuel : nat) :
  forall (n : Z) (acc : string),
    0 <= n ->
    (acc = EmptyString
     \/ exists c t, acc = String c t /\ isdigit c = true) ->
    exists (d : ascii) (tl : string),
      decimal_from (S fuel) n acc = String d tl /\ isdigit d = true
      /\ (tl = EmptyString
          \/ exists c t, tl = String c t /\ isdigit c = true).
Proof.
  induction fuel as [|fuel IH]; intros n acc Hn Hacc;
    rewrite StdioFacts.decimal_from_step;
    destruct (n <? 10) eqn:E;
    try (destruct (StdioFacts.digit_char_spec (n mod 10)) as (Hd & _ & _);
         [apply Z.mod_pos_bound; lia|]).
  - eexists _, _. split; [reflexivity|]. split; [exact Hd | exact Hacc].
  - eexists _, _. split; [reflexivity|]. split; [exact Hd | exact Hacc].
  - eexists _, _. split; [reflexivity|]. split; [exact Hd | exact Hacc].
  - apply IH; [apply Z.div_pos; lia|].
    right. eexists _, _. split; [reflexivity | exact Hd].
Qed.

Lemma digit_is_no_x (c : ascii) :
  isdigit c = true -> Ascii.eqb c "x" = false /\ Ascii.eqb c "X" = false.
Proof.
  destruct c as [[|] [|] [|] [|] [|] [|] [|] [|]]; simpl; intros H;
    try discriminate H; split; reflexivity.
Qed.

Lemma special_spelling_of_digit (d c : ascii) (t : string) :
  isdigit d = true ->
  Ascii.eqb c "x" = false -> Ascii.eqb c "X" = false ->
  special_spelling (String d (String c t)) = false.
Proof.
  intros Hd Hx HX.
  destruct d as [[|] [|] [|] [|] [|] [|] [|] [|]];
    try discriminate Hd; try reflexivity.
  destruct c as [[|] [|] [|] [|] [|] [|] [|] [|]];
    try discriminate Hx; try discriminate HX; reflexivity.
Qed.

(** A numeral with a point is no special spelling. *)
Lemma special_spelling_print_u (v : Z) (t : string) :
  0 <= v -> special_spelling (print_u v ++ String "." t) = false.
Proof.
  intros Hv. unfold print_u.
  destruct (decimal_from_second (Z.to_nat (Z.log2 v)) v EmptyString Hv
              (or_introl eq_refl)) as (d & tl & -> & Hd & Htl).
  destruct Htl as [->|(c & t' & -> & Hc)]; cbn [append].
  - apply special_spelling_of_digit; [exact Hd | reflexivity | reflexivity].
  - apply special_spelling_of_digit; [exact Hd | |]; apply digit_is_no_x, Hc.
Qed.

(** [%f] on an unsigned numeral with six decimals. *)
Lemma scan_float_decimals (neg : bool) (u : Z) (rest : string) :
  0 <= u ->
  scan_float ((if neg then "-" else EmptyString)
              ++ print_u (u / 1000000) ++ "."
              ++ padded 6 (u mod 1000000) EmptyString ++ nl ++ rest)
  = Converted (F32.of_decimal neg u (-6)) (nl ++ rest)%string.
Proof.
  intros Hu.
  assert (Hq : 0 <= u / 1000000) by (apply Z.div_pos; lia).
  assert (Hr : 0 <= u mod 1000000 < 1000000) by (apply Z.mod_pos_bound; lia).
  set (tail := (padded 6 (u mod 1000000) EmptyString ++ nl ++ rest)%string).
  assert (Hsign :
            skip_space ((if neg then "-" else EmptyString)
                        ++ print_u (u / 1000000) ++ "." ++ tail)
            = ((if neg then "-" else EmptyString)
               ++ print_u (u / 1000000) ++ "." ++ tail)%string
            /\ sign ((if neg then "-" else EmptyString)
                     ++ print_u (u / 1000000) ++ "." ++ tail)
               = (neg, print_u (u / 1000000) ++ "." ++ tail)%string
            /\ exists c t, ((if neg then "-" else EmptyString)
                            ++ print_u (u / 1000000) ++ "." ++ tail)%string
                           = String c t).
  { destruct (StdioFacts.print_u_head (u / 1000000) Hq) as (d & tl & E & Hd).
    destruct neg; cbn [append].
    - split; [reflexivity|]. split; [reflexivity|]. eexists _, _. reflexivity.
    - rewrite E. cbn [append skip_space].
      rewrite (StdioFacts.digit_not_space d Hd), (StdioFacts.sign_of_digit d _ Hd).
      split; [reflexivity|]. split; [reflexivity|]. eexists _, _. reflexivity. }
  destruct Hsign as (Hskip & Hsign & c0 & t0 & Hshape).
  unfold scan_float. rewrite Hskip, Hshape. cbv beta iota zeta.
  rewrite <- Hshape, Hsign.
  change ("." ++ tail)%string with (String "." tail).
  rewrite special_spelling_print_u by exact Hq.
  destruct (StdioFacts.digits_decimal_from (Z.to_nat (Z.log2 (u / 1000000)))
              (u / 1000000) EmptyString (String "." tail) 0 0
              (StdioFacts.print_u_bound _ Hq)) as (k & Hk & Hdigits).
  fold (print_u (u / 1000000)) in Hdigits. rewrite Hdigits.
  cbn [append digits isdigit]. cbv iota.
  change (isdigit ".") with false. cbv iota.
  unfold tail. rewrite digits_padded by lia.
  cbn [append]. change (digits (nl ++ rest)%string) with
    (digits (String (ascii_of_nat 10) rest)).
  cbn [digits]. change (isdigit (ascii_of_nat 10)) with false. cbv iota.
  replace (0 + k + (0 + Z.of_nat 6) =? 0) with false
    by (symmetry; apply Z.eqb_neq; lia).
  change (10 ^ Z.of_nat 6) with 1000000.
  rewrite Z.mod_mod by lia.
  replace ((0 * 10 ^ k + u / 1000000) * 1000000 + u mod 1000000) with u
    by (pose proof (Z.div_mod u 1000000); lia).
  reflexivity.
Qed.

(** [%f] reads the text [%f] has printed for a finite [x] as [x] rounded to
    six decimals. *)
Lemma scan_float_print_f (x : float) (rest : string) :
  F32.is_finite x = true ->
  scan_float (print_f x ++ nl ++ rest)
  = Converted (six_decimals x) (nl ++ rest)%string.
Proof.
  destruct x as [s|s| |s m e]; intros H; try discriminate H.
  - destruct s; reflexivity.
  - unfold print_f, six_decimals.
    rewrite !append_associative.
    apply scan_float_decimals, micro_units_nonnegative.
Qed.

(** A finite value survives its text exactly when rounding it to six
    decimals gives it back. *)
Lemma survives_text_six_decimals (x : float) :
  F32.is_finite x = true -> (survives_text x <-> six_decimals x = x).
Proof.
  intros H. unfold survives_text. split.
  - intros Hs. specialize (Hs EmptyString).
    rewrite (scan_float_print_f x _ H) in Hs. injection Hs as ->. reflexivity.
  - intros E rest. rewrite (scan_float_print_f x _ H), E. reflexivity.
Qed.

End WrittenFloat.

Section WrittenFile.

Import Stdio.

(** The keyword lines of the header, for any finite value. *)
Lemma fscanf_start_written (x : float) (rest : string) :
  F32.is_finite x = true ->
  fscanf ("start " ++ print_f x ++ nl ++ rest) fmt_start
  = Some {| returned := 1; assigned := [Float (six_decimals x)];
            rest := skip_space rest |}.
Proof.
  intros Hx. unfold fscanf.
  change (fscanf_from fmt_start [] ("start " ++ print_f x ++ nl ++ rest))
    with (convert Float (scan_float (skip_space (print_f x ++ nl ++ rest)))
            (fscanf_from [White]) []
            (skip_space (print_f x ++ nl ++ rest))).
  rewrite scan_float_skip, (scan_float_print_f x rest Hx). reflexivity.
Qed.

Lemma fscanf_length_written (x : float) (rest : string) :
  F32.is_finite x = true ->
  fscanf ("length " ++ print_f x ++ nl ++ rest) fmt_length
  = Some {| returned := 1; assigned := [Float (six_decimals x)];
            rest := skip_space rest |}.
Proof.
  intros Hx. unfold fscanf.
  change (fscanf_from fmt_length [] ("length " ++ print_f x ++ nl ++ rest))
    with (convert Float (scan_float (skip_space (print_f x ++ nl ++ rest)))
            (fscanf_from [White]) []
            (skip_space (print_f x ++ nl ++ rest))).
  rewrite scan_float_skip, (scan_float_print_f x rest Hx). reflexivity.
Qed.

(** What the first half of [read_and_calculate_threshold] makes of the text
    of a calibration run, whatever the ranges of its own configuration. *)
Lemma read_written_text files garbage app_config start length samples :
  files (calibration_file_name app_config)
  = Some (calibration_text start length (Z.of_nat (List.length samples))
            samples) ->
  F32.is_finite start = true ->
  F32.is_finite length = true ->
  Forall is_uint16 samples ->
  (List.length samples <= 3000)%nat ->
  read_calibration_file_content files garbage app_config
  = Done (six_decimals start, six_decimals length,
          Z.of_nat (List.length samples),
          samples ++ skipn (List.length samples)
                       (local_array garbage MAX_DATA_SIZE)).
Proof.
  intros Hfile Hstart Hlength Hu Hlen.
  unfold read_calibration_file_content. rewrite Hfile.
  unfold calibration_text, scan.
  rewrite (fscanf_start_written start _ Hstart). cbn [bind rest returned].
  rewrite skip_space_length_line, (fscanf_length_written length _ Hlength).
  cbn [bind rest returned].
  rewrite skip_space_n_line, fscanf_n by lia.
  cbn [bind rest returned assigned assigned_float assigned_uint].
  change (negb (uint16_t (uint16_t (uint16_t 1 + 1) + 1) =? 3)) with false.
  cbv iota.
  rewrite Nat2Z.id, firstn_all.
  set (a := local_array garbage MAX_DATA_SIZE).
  assert (Ha : List.length a = 3000%nat) by apply local_array_length.
  destruct (read_samples_print_samples samples []
              (firstn (List.length samples) a)
              (skipn (List.length samples) a)
              (skip_space (print_samples samples)))
    as (s' & Hloop).
  - exact Hu.
  - rewrite length_firstn. lia.
  - cbn [List.length]. lia.
  - rewrite StdioFacts.skip_space_idempotent.
    apply skip_space_print_samples, Hu.
  - cbn [List.length app Nat.add] in Hloop.
    rewrite firstn_skipn in Hloop.
    change (Z.of_nat 0) with 0 in Hloop. rewrite Hloop. cbn [bind].
    rewrite Z.eqb_refl. reflexivity.
Qed.

End WrittenFile.

(** C6 (as amended). Writing a calibration record and reading the file back
    reproduces the count and the samples, and gives a start and a length
    that are the written ones rounded to six decimals and from there to
    single precision: for every sweep of at most 3000 16-bit samples, every
    finite start and length, and every configuration of the reader that
    names the same file, whatever its own ranges.  For the record with
    start 0.1, length 0.5 and the samples 10, 20, 30 the values read back
    are the written ones, and its file is three header lines followed by
    the samples, each with a space behind it. *)
Theorem calibration_round_trip :
  (forall (files : string -> option string) (writable : string -> bool)
          (garbage garbage' : Z -> Z) (writer reader : app_configuration_t)
          (samples : list Z),
      writable (calibration_file_name writer) = true ->
      calibration_file_name reader = calibration_file_name writer ->
      F32.is_finite (start_range (radar_config writer)) = true ->
      F32.is_finite (length_range (radar_config writer)) = true ->
      Forall is_uint16 samples ->
      (List.length samples <= 3000)%nat ->
      exists files' : string -> option string,
        write_calibration_data files writable garbage (sensor_of [samples])
          writer
        = Done files'
        /\ files' (calibration_file_name writer)
           = Some (calibration_text (start_range (radar_config writer))
                     (length_range (radar_config writer))
                     (Z.of_nat (List.length samples)) samples)
        /\ read_calibration_file_content files' garbage' reader
           = Done (six_decimals (start_range (radar_config writer)),
                   six_decimals (length_range (radar_config writer)),
                   Z.of_nat (List.length samples),
                   samples ++ skipn (List.length samples)
                                (local_array garbage' MAX_DATA_SIZE)))
  /\ six_decimals f32_0_1 = f32_0_1
  /\ six_decimals f32_0_5 = f32_0_5
  /\ calibration_text f32_0_1 f32_0_5 3 [10; 20; 30]
     = ("start 0.100000" ++ Stdio.nl ++ "length 0.500000" ++ Stdio.nl
        ++ "n 3" ++ Stdio.nl ++ "10 20 30 ")%string.
Proof.
  split; [|repeat split].
  intros files writable garbage garbage' writer reader samples
    Hw Hname Hstart Hlength Hu Hlen.
  assert (Hfile :
            update files (calibration_file_name writer)
              (calibration_text (start_range (radar_config writer))
                 (length_range (radar_config writer))
                 (Z.of_nat (List.length samples)) samples)
              (calibration_file_name writer)
            = Some (calibration_text (start_range (radar_config writer))
                      (length_range (radar_config writer))
                      (Z.of_nat (List.length samples)) samples))
    by (unfold update; rewrite String.eqb_refl; reflexivity).
  eexists. split; [|split].
  - apply write_calibration_data_text; assumption.
  - exact Hfile.
  - apply read_written_text; try assumption.
    rewrite Hname. exact Hfile.
Qed.

Lemma calibration_round_trip_witness :
  exists files' : string -> option string,
    write_calibration_data no_files (fun _ => true) zero_garbage
      (sensor_of [[10; 20; 30]]) (example_config f32_0_1 f32_0_5 false)
    = Done files'
    /\ files' "parking.cal"%string
       = Some (calibration_text f32_0_1 f32_0_5 3 [10; 20; 30])
    /\ read_calibration_file_content files' zero_garbage
         (example_config f32_0_12 f32_0_48 true)
       = Done (six_decimals f32_0_1, six_decimals f32_0_5, 3,
               [10; 20; 30] ++ skipn 3 (local_array zero_garbage MAX_DATA_SIZE)).
Proof.
  apply (proj1 calibration_round_trip no_files (fun _ => true) zero_garbage
           zero_garbage (example_config f32_0_1 f32_0_5 false)
           (example_config f32_0_12 f32_0_48 true) [10; 20; 30]).
  - reflexivity.
  - reflexivity.
  - reflexivity.
  - reflexivity.
  - repeat constructor; unfold is_uint16; lia.
  - simpl. lia.
Defined.

(** C6 as it was stated fails on the code: 0.1234567, as [strtof] delivers
    it for the option [-a 0.1234567], is written as 0.123457, and the start
    read back is the single-precision value of that numeral, which is
    another one. *)
Lemma calibration_round_trip_counterexample :
  strtof "0.1234567" = Some f32_0_1234567
  /\ F32.valid f32_0_1234567 = true
  /\ write_calibration_data no_files (fun _ => true) zero_garbage
       (sensor_of [[10; 20; 30]])
       (example_config f32_0_1234567 f32_0_5 false)
     = Done (stored ("start 0.123457" ++ Stdio.nl
                     ++ "length 0.500000" ++ Stdio.nl
                     ++ "n 3" ++ Stdio.nl ++ "10 20 30 "))
  /\ read_calibration_file_content
       (stored ("start 0.123457" ++ Stdio.nl
                ++ "length 0.500000" ++ Stdio.nl
                ++ "n 3" ++ Stdio.nl ++ "10 20 30 "))
       zero_garbage (example_config f32_0_1234567 f32_0_5 false)
     = Done (f32_0_123457, f32_0_5, 3,
             [10; 20; 30] ++ skipn 3 (local_array zero_garbage MAX_DATA_SIZE))
  /\ F32.eq f32_0_123457 f32_0_1234567 = false
  /\ f32_0_1234567 = S754_finite false 16570078 (-27)
  /\ f32_0_123457 = S754_finite false 16570118 (-27).
Proof.
  split; [reflexivity|]. split; [reflexivity|].
  split; [vm_compute; reflexivity|].
  split; [vm_compute; reflexivity|].
  repeat split.
Qed.

(** * Further properties *)

(** Bounds on the length of a concrete sweep, by computation. *)
Ltac length_bounds :=
  cbn [List.length]; repeat split; apply Nat.leb_le; reflexivity.

(** ** Integers that single precision holds exactly *)

Module Exact.

Import RoundDefs Digits Nearest RoundForm Normalize.

(** The float of the integer [z], [1 <= z < 2^24]: its digits moved to the
    top of the 24-bit mantissa. *)
Lemma integer_mantissa (z : Z) :
  1 <= z < 2 ^ 24 ->
  1 <= Zdigits2 z <= 24
  /\ 2 ^ 23 <= z * 2 ^ (24 - Zdigits2 z) < 2 ^ 24.
Proof.
  intros Hz.
  pose proof (Zdigits2_bounds z ltac:(lia)) as [Hlo Hhi].
  pose proof (Zdigits2_pos z ltac:(lia)) as Hd.
  assert (Hd24 : Zdigits2 z <= 24).
  { destruct (Z_le_gt_dec (Zdigits2 z) 24) as [H|H]; [exact H|].
    assert (2 ^ 24 <= 2 ^ (Zdigits2 z - 1))
      by (apply Z.pow_le_mono_r; lia).
    lia. }
  split; [lia|].
  assert (E23 : 2 ^ 23 = 2 ^ (Zdigits2 z - 1) * 2 ^ (24 - Zdigits2 z))
    by (rewrite <- Z.pow_add_r by lia; f_equal; lia).
  assert (E24 : 2 ^ 24 = 2 ^ Zdigits2 z * 2 ^ (24 - Zdigits2 z))
    by (rewrite <- Z.pow_add_r by lia; f_equal; lia).
  assert (0 < 2 ^ (24 - Zdigits2 z)) by (apply Z.pow_pos_nonneg; lia).
  rewrite E23, E24.
  split; [apply Z.mul_le_mono_nonneg_r; lia|apply Z.mul_lt_mono_pos_r; lia].
Qed.

(** Rounding [z * 2^(-e)] at the exponent [e], that is the integer [z],
    gives the digits of [z] at the top of the mantissa. *)
Lemma round_integer (z e : Z) :
  1 <= z < 2 ^ 24 -> e <= Zdigits2 z - 24 ->
  binary_round_aux F32.prec F32.emax false (z * 2 ^ (- e)) e loc_Exact
  = S754_finite false (Z.to_pos (z * 2 ^ (24 - Zdigits2 z)))
      (Zdigits2 z - 24).
Proof.
  intros Hz He.
  destruct (integer_mantissa z Hz) as [Hd Hm].
  assert (Hpow : 0 < 2 ^ (- e)) by (apply Z.pow_pos_nonneg; lia).
  assert (Et : target (z * 2 ^ (- e)) e = Zdigits2 z - 24).
  { unfold target. rewrite Zdigits2_mul_pow2 by lia. lia. }
  assert (W : wide (z * 2 ^ (- e)) e) by (split; [nia|rewrite Et; exact He]).
  rewrite round_wide by exact W.
  assert (Er : rounded (z * 2 ^ (- e)) e = z * 2 ^ (24 - Zdigits2 z)).
  { unfold rounded. rewrite Et.
    replace (z * 2 ^ (- e))
      with (z * 2 ^ (24 - Zdigits2 z) * 2 ^ (Zdigits2 z - 24 - e))
      by (rewrite <- Z.mul_assoc, <- Z.pow_add_r by lia; do 2 f_equal; lia).
    apply rne_exact. lia. }
  rewrite Er, Et.
  replace (z * 2 ^ (24 - Zdigits2 z) =? 0) with false
    by (symmetry; apply Z.eqb_neq; lia).
  replace (z * 2 ^ (24 - Zdigits2 z) =? 2 ^ 24) with false
    by (symmetry; apply Z.eqb_neq; lia).
  replace (Zdigits2 z - 24 <=? 104) with true
    by (symmetry; apply Z.leb_le; lia).
  reflexivity.
Qed.

Lemma normalize_integer (z e : Z) :
  1 <= z < 2 ^ 24 -> e <= 0 ->
  binary_normalize F32.prec F32.emax (z * 2 ^ (- e)) e false
  = S754_finite false (Z.to_pos (z * 2 ^ (24 - Zdigits2 z)))
      (Zdigits2 z - 24).
Proof.
  intros Hz He.
  destruct (integer_mantissa z Hz) as [Hd Hm].
  assert (Hpow : 0 < 2 ^ (- e)) by (apply Z.pow_pos_nonneg; lia).
  destruct (z * 2 ^ (- e)) as [|p|p] eqn:Ep; try nia.
  cbn [binary_normalize].
  destruct (binary_round_wide false p e) as (m' & e' & -> & W & Hle & Hm').
  assert (Em : Zpos m' = z * 2 ^ (- e')).
  { rewrite Hm', <- Ep, <- Z.mul_assoc, <- Z.pow_add_r by lia.
    do 2 f_equal. lia. }
  rewrite Em in *. apply round_integer; [exact Hz|].
  destruct W as [_ W]. unfold target in W.
  rewrite Zdigits2_mul_pow2 in W by lia. lia.
Qed.

Lemma of_int_small (z : Z) :
  1 <= z < 2 ^ 24 ->
  F32.of_int z
  = S754_finite false (Z.to_pos (z * 2 ^ (24 - Zdigits2 z)))
      (Zdigits2 z - 24).
Proof.
  intros Hz. unfold F32.of_int.
  rewrite <- (normalize_integer z 0 Hz ltac:(lia)).
  change (2 ^ (- 0)) with 1. rewrite Z.mul_1_r. reflexivity.
Qed.

(** Sums of non-negative integers are exact as long as they stay below
    2^24. *)
Lemma add_of_int (a b : Z) :
  0 <= a -> 0 <= b -> a + b < 2 ^ 24 ->
  F32.add (F32.of_int a) (F32.of_int b) = F32.of_int (a + b).
Proof.
  intros Ha Hb Hab.
  destruct (Z.eq_dec a 0) as [->|Na].
  { destruct (Z.eq_dec b 0) as [->|Nb]; [reflexivity|].
    rewrite Z.add_0_l, (of_int_small b) by lia. reflexivity. }
  destruct (Z.eq_dec b 0) as [->|Nb].
  { rewrite Z.add_0_r, (of_int_small a) by lia. reflexivity. }
  rewrite (of_int_small a), (of_int_small b), (of_int_small (a + b)) by lia.
  destruct (integer_mantissa a ltac:(lia)) as [Hda Hma].
  destruct (integer_mantissa b ltac:(lia)) as [Hdb Hmb].
  rewrite Sums.add_finite_eq. cbn [cond_Zopp].
  rewrite !Z2Pos.id by lia.
  set (e := Z.min (Zdigits2 a - 24) (Zdigits2 b - 24)).
  rewrite <- (normalize_integer (a + b) e) by lia.
  f_equal.
  rewrite <- !Z.mul_assoc, <- !Z.pow_add_r by lia.
  replace (24 - Zdigits2 a + (Zdigits2 a - 24 - e)) with (- e) by lia.
  replace (24 - Zdigits2 b + (Zdigits2 b - 24 - e)) with (- e) by lia.
  lia.
Qed.

(** The conversion keeps the strict order of integers below 2^24. *)
Lemma of_int_lt (a b : Z) :
  0 <= a -> a < b -> b < 2 ^ 24 ->
  F32.lt (F32.of_int a) (F32.of_int b) = true.
Proof.
  intros Ha Hab Hb.
  rewrite (of_int_small b) by lia.
  destruct (integer_mantissa b ltac:(lia)) as [Hdb Hmb].
  destruct (Z.eq_dec a 0) as [->|Na]; [reflexivity|].
  rewrite (of_int_small a) by lia.
  destruct (integer_mantissa a ltac:(lia)) as [Hda Hma].
  pose proof (Zdigits2_mono a b ltac:(lia)) as Hd.
  unfold F32.lt, SFltb. cbn [SFcompare].
  destruct (Z.compare_spec (Zdigits2 a - 24) (Zdigits2 b - 24))
    as [E|E|E]; [|reflexivity|lia].
  replace (Zdigits2 a) with (Zdigits2 b) by lia.
  assert (0 < 2 ^ (24 - Zdigits2 b)) by (apply Z.pow_pos_nonneg; lia).
  replace (Zdigits2 a) with (Zdigits2 b) in Hma by lia.
  rewrite F32Facts.compare_cont_is_compare.
  replace (Z.to_pos (a * 2 ^ (24 - Zdigits2 b))
           ?= Z.to_pos (b * 2 ^ (24 - Zdigits2 b)))%positive with Lt;
    [reflexivity|].
  symmetry. apply Pos.compare_lt_iff.
  assert (a * 2 ^ (24 - Zdigits2 b) < b * 2 ^ (24 - Zdigits2 b)) by nia.
  lia.
Qed.

Lemma mantissa_digits (z : Z) :
  1 <= z < 2 ^ 24 ->
  Zdigits2 (Zpos (Z.to_pos (z * 2 ^ (24 - Zdigits2 z)))) = 24.
Proof.
  intros Hz. destruct (integer_mantissa z Hz) as [Hd Hm].
  rewrite Z2Pos.id by lia. apply Zdigits2_unique; [exact Hm|lia].
Qed.

Lemma digits_of_product (n q : Z) :
  1 <= n -> 1 <= q ->
  Zdigits2 n <= Zdigits2 (n * q) <= Zdigits2 n + Zdigits2 q.
Proof.
  intros Hn Hq.
  pose proof (Zdigits2_bounds n ltac:(lia)) as [_ Hn'].
  pose proof (Zdigits2_bounds q ltac:(lia)) as [_ Hq'].
  pose proof (Zdigits2_bounds (n * q) ltac:(nia)) as [Hp _].
  pose proof (Zdigits2_pos n ltac:(lia)).
  pose proof (Zdigits2_pos q ltac:(lia)).
  split; [apply Zdigits2_mono; nia|].
  assert (Hlt : 2 ^ (Zdigits2 (n * q) - 1) < 2 ^ (Zdigits2 n + Zdigits2 q)).
  { rewrite Z.pow_add_r by lia. nia. }
  apply Z.pow_lt_mono_r_iff in Hlt; lia.
Qed.

(** The quotient of an exact multiple by its divisor is exact. *)
Lemma div_of_int (n q : Z) :
  1 <= n -> 0 <= q -> n * q < 2 ^ 24 ->
  F32.div (F32.of_int (n * q)) (F32.of_int n) = F32.of_int q.
Proof.
  intros Hn Hq Hp.
  destruct (Z.eq_dec q 0) as [->|Nq].
  { rewrite Z.mul_0_r.
    pose proof (Steps.normalize_plus_shape n 0 ltac:(lia)) as S.
    pose proof (Operations.of_int_mono 1 n ltac:(lia)) as L.
    unfold F32.of_int in *.
    destruct (binary_normalize F32.prec F32.emax n 0 false)
      as [[|]|[|]| |[|] ? ?]; try discriminate S; try discriminate L;
      reflexivity. }
  rewrite (of_int_small n) by nia.
  rewrite (of_int_small (n * q)), (of_int_small q) by nia.
  destruct (integer_mantissa n ltac:(nia)) as [Hdn Hmn].
  destruct (integer_mantissa q ltac:(nia)) as [Hdq Hmq].
  destruct (integer_mantissa (n * q) ltac:(nia)) as [Hdp Hmp].
  destruct (digits_of_product n q ltac:(lia) ltac:(lia)) as [Hlo Hhi].
  unfold F32.div, SFdiv, SFdiv_core_binary. cbn [xorb].
  rewrite !mantissa_digits by nia.
  set (dn := Zdigits2 n) in *. set (dq := Zdigits2 q) in *.
  set (dp := Zdigits2 (n * q)) in *.
  replace (Z.min (fexp F32.prec F32.emax (24 + (dp - 24) - (24 + (dn - 24))))
             (dp - 24 - (dn - 24)))
    with (dp - dn - 24)
    by (unfold fexp, F32.prec, F32.emax, SpecFloat.emin; lia).
  replace (dp - 24 - (dn - 24) - (dp - dn - 24)) with 24 by lia.
  rewrite Z.shiftl_mul_pow2, !Z2Pos.id by lia.
  replace (n * q * 2 ^ (24 - dp) * 2 ^ 24)
    with (q * 2 ^ (- (dp - dn - 24)) * (n * 2 ^ (24 - dn))).
  2:{ replace (2 ^ (- (dp - dn - 24))) with (2 ^ (24 - dp) * 2 ^ 24 / 2 ^ (24 - dn) * 1).
      2:{ rewrite Z.mul_1_r, <- !Z.pow_add_r, <- Z.pow_sub_r by lia.
          f_equal. lia. }
      assert (E : 2 ^ (24 - dp) * 2 ^ 24
                  = 2 ^ (- (dp - dn - 24)) * 2 ^ (24 - dn))
        by (rewrite <- !Z.pow_add_r by lia; f_equal; lia).
      rewrite E, Z.div_mul by lia. lia. }
  set (Q := q * 2 ^ (- (dp - dn - 24))).
  set (M := n * 2 ^ (24 - dn)) in *.
  destruct (Z.div_eucl (Q * M) M) as [q0 r0] eqn:E.
  assert (Eq : q0 = Q).
  { change q0 with (fst (q0, r0)). rewrite <- E.
    change (fst (Z.div_eucl (Q * M) M)) with (Q * M / M).
    apply Z.div_mul. lia. }
  assert (Er : r0 = 0).
  { change r0 with (snd (q0, r0)). rewrite <- E.
    change (snd (Z.div_eucl (Q * M) M)) with ((Q * M) mod M).
    apply Z.mod_mul. lia. }
  subst q0 r0.
  replace (new_location M 0) with loc_Exact
    by (unfold new_location; destruct (Z.even M); reflexivity).
  unfold Q. apply round_integer; [nia|lia].
Qed.

End Exact.

(** ** Statistics of mapped sweeps *)

Section MappedSweeps.

Local Open Scope f32_scope.

(** The range mapper reads the first [length] cells of its input only. *)
Lemma format_data_loop_prefix (samples tail : list Z) (start step : float)
  (k : nat) :
  forall i : Z,
    (0 <= i)%Z -> (Z.to_nat i + k <= List.length samples)%nat ->
    format_data_loop (samples ++ tail) start step i k
    = format_data_loop samples start step i k.
Proof.
  induction k as [|k IH]; intros i Hi Hk; [reflexivity|].
  cbn [format_data_loop]. rewrite IH by lia.
  rewrite app_nth1 by lia. reflexivity.
Qed.

Lemma format_data_prefix (samples tail : list Z) (start end_ : float) :
  format_data (samples ++ tail) (Z.of_nat (List.length samples)) start end_
  = format_data samples (Z.of_nat (List.length samples)) start end_.
Proof.
  unfold format_data. apply format_data_loop_prefix; lia.
Qed.

(** The amplitudes of the mapped points are the samples, converted. *)
Lemma format_data_loop_amp (samples : list Z) (start step : float) :
  forall pre : list Z,
    map amp (format_data_loop (pre ++ samples) start step
               (Z.of_nat (List.length pre)) (List.length samples))
    = map F32.of_int samples.
Proof.
  induction samples as [|v samples IH]; intros pre; [reflexivity|].
  cbn [List.length format_data_loop map amp].
  rewrite Nat2Z.id, nth_middle. f_equal.
  replace (Z.of_nat (List.length pre) + 1)%Z
    with (Z.of_nat (List.length (pre ++ [v])))
    by (rewrite length_app; cbn [List.length]; lia).
  replace (pre ++ v :: samples) with ((pre ++ [v]) ++ samples)
    by (rewrite <- app_assoc; reflexivity).
  apply IH.
Qed.

Lemma format_data_amp (samples : list Z) (start end_ : float) :
  map amp (format_data samples (Z.of_nat (List.length samples)) start end_)
  = map F32.of_int samples.
Proof.
  unfold format_data. rewrite Nat2Z.id.
  apply (format_data_loop_amp samples start _ []).
Qed.

Lemma format_data_length (samples : list Z) (start end_ : float) :
  List.length
    (format_data samples (Z.of_nat (List.length samples)) start end_)
  = List.length samples.
Proof.
  unfold format_data. rewrite format_data_loop_length. apply Nat2Z.id.
Qed.

(** The sum the averaging loop builds, over amplitudes that are small
    integers. *)
Lemma sum_of_integers (samples : list Z) :
  forall (data : list Datapoint) (acc : Z),
    map amp data = map F32.of_int samples ->
    (0 <= acc)%Z ->
    Forall (fun v => 0 <= v)%Z samples ->
    (acc + total samples < 2 ^ 24)%Z ->
    fold_left (fun sum p => sum + amp p) data (F32.of_int acc)
    = F32.of_int (acc + total samples).
Proof.
  induction samples as [|v samples IH]; intros data acc Hd Hacc Hs Hsum;
    destruct data as [|p data]; try discriminate Hd.
  - cbn. rewrite Z.add_0_r. reflexivity.
  - inversion Hs as [|? ? Hv Hrest]; subst.
    injection Hd as Hp Hd. cbn [fold_left total fold_right] in *.
    fold (total samples) in *.
    assert (0 <= total samples)%Z.
    { clear -Hrest. induction Hrest; cbn; [lia|].
      fold (total l). lia. }
    rewrite Hp, Exact.add_of_int by lia.
    rewrite IH by (try assumption; lia).
    f_equal. lia.
Qed.

(** The scan for the peak, over amplitudes that are small integers: it
    keeps the largest of them. *)
Lemma scan_of_integers (samples : list Z) :
  forall (data : list Datapoint) (max : Datapoint) (m : Z),
    map amp data = map F32.of_int samples ->
    amp max = F32.of_int m ->
    (-1 <= m < 2 ^ 24)%Z ->
    Forall (fun v => 0 <= v < 2 ^ 24)%Z samples ->
    amp (fold_left max_step data max)
    = F32.of_int (fold_left Z.max samples m).
Proof.
  induction samples as [|v samples IH]; intros data max m Hd Hmax Hm Hs;
    destruct data as [|p data]; try discriminate Hd.
  - exact Hmax.
  - inversion Hs as [|? ? Hv Hrest]; subst.
    injection Hd as Hp Hd. cbn [fold_left].
    apply IH; [exact Hd| |lia|exact Hrest].
    unfold max_step. rewrite Hp, Hmax.
    destruct (Z_lt_le_dec m v) as [Hlt|Hle].
    + replace (Z.max m v) with v by lia.
      replace (F32.of_int v > F32.of_int m) with true; [exact Hp|].
      symmetry. destruct (Z.eq_dec m (-1)) as [->|Nm].
      * apply (F32Facts.lt_le_trans _ (F32.of_int 0)); [reflexivity|].
        apply Operations.of_int_mono. lia.
      * apply Exact.of_int_lt; lia.
    + replace (Z.max m v) with m by lia.
      replace (F32.of_int v > F32.of_int m) with false; [exact Hmax|].
      symmetry.
      assert (Hle' : (F32.of_int v <= F32.of_int m) = true)
        by (apply Operations.of_int_mono; exact Hle).
      rewrite F32Facts.le_not_gt in Hle'.
      * destruct (F32.of_int v > F32.of_int m); [discriminate|reflexivity].
      * apply (F32Facts.le_not_nan _ _ Hle').
      * apply (F32Facts.le_not_nan (F32.of_int 0)).
        apply Operations.of_int_mono. lia.
Qed.

End MappedSweeps.

Lemma total_nonnegative (samples : list Z) :
  Forall (fun v => 0 <= v) samples -> 0 <= total samples.
Proof. induction 1; cbn; [lia|]. fold (total l). lia. Qed.

Lemma total_repeat (a : Z) (k : nat) : total (repeat a k) = Z.of_nat k * a.
Proof.
  induction k as [|k IH]; [reflexivity|].
  cbn [repeat total fold_right]. fold (total (repeat a k)). lia.
Qed.

Lemma average_of_integers (samples : list Z) (start end_ : float) :
  Forall (fun v => 0 <= v) samples ->
  total samples < 2 ^ 24 ->
  get_average_amplitude
    (format_data samples (Z.of_nat (List.length samples)) start end_)
    (Z.of_nat (List.length samples))
  = (F32.of_int (total samples)
     / F32.of_int (Z.of_nat (List.length samples)))%f32.
Proof.
  intros Hs Hsum. unfold get_average_amplitude.
  rewrite Nat2Z.id, firstn_all2 by (rewrite format_data_length; lia).
  rewrite (sum_of_integers samples _ 0 (format_data_amp samples start end_))
    by (try assumption; lia).
  reflexivity.
Qed.

(** X1. The average of the amplitudes of a mapped sweep is the exact sum of the
    samples divided, with one rounding, by their number, as long as the
    sum is below 2^24; sweeps of at most 256 samples are always in that
    case. *)
Theorem average_is_rounded_once (samples : list Z) (start end_ : float) :
  Forall (fun v => 0 <= v) samples ->
  total samples < 2 ^ 24 ->
  let n := Z.of_nat (List.length samples) in
  get_average_amplitude (format_data samples n start end_) n
  = (F32.of_int (total samples) / F32.of_int n)%f32.
Proof. intros Hs Hsum n. apply average_of_integers; assumption. Qed.

Lemma average_is_rounded_once_witness :
  get_average_amplitude (format_data [40; 30; 20; 11] 4 f32_0_1 f32_0_5) 4
  = (F32.of_int 101 / F32.of_int 4)%f32.
Proof.
  apply (average_is_rounded_once [40; 30; 20; 11] f32_0_1 f32_0_5).
  - repeat constructor; lia.
  - vm_compute. reflexivity.
Defined.

(** Sweeps of 16-bit samples that are short enough never leave the exact
    range: 256 samples sum to less than 2^24. *)
Lemma total_of_short_sweep (samples : list Z) :
  Forall is_uint16 samples ->
  total samples <= 65535 * Z.of_nat (List.length samples).
Proof.
  induction 1 as [|v l Hv _ IH]; cbn [total fold_right List.length]; [lia|].
  fold (total l). unfold is_uint16 in Hv. lia.
Qed.

(** X2. When the sum of the samples is below 2^24 and a multiple of their
    number, the average is exactly the integer mean; in particular the
    average of n >= 1 samples all equal to a, with n * a < 2^24, is a. *)
Theorem average_of_equal_samples :
  (forall (samples : list Z) (start end_ : float) (q : Z),
      samples <> [] ->
      Forall (fun v => 0 <= v) samples ->
      total samples < 2 ^ 24 ->
      total samples = Z.of_nat (List.length samples) * q ->
      let n := Z.of_nat (List.length samples) in
      get_average_amplitude (format_data samples n start end_) n
      = F32.of_int q)
  /\ (forall (a : Z) (k : nat) (start end_ : float),
         (1 <= k)%nat -> 0 <= a -> Z.of_nat k * a < 2 ^ 24 ->
         get_average_amplitude
           (format_data (repeat a k) (Z.of_nat k) start end_) (Z.of_nat k)
         = F32.of_int a).
Proof.
  assert (Hmean :
    forall (samples : list Z) (start end_ : float) (q : Z),
      samples <> [] ->
      Forall (fun v => 0 <= v) samples ->
      total samples < 2 ^ 24 ->
      total samples = Z.of_nat (List.length samples) * q ->
      get_average_amplitude
        (format_data samples (Z.of_nat (List.length samples)) start end_)
        (Z.of_nat (List.length samples))
      = F32.of_int q).
  { intros samples start end_ q Hne Hs Hsum Hq.
    rewrite average_of_integers by assumption.
    pose proof (total_nonnegative samples Hs) as Hpos.
    assert (Hn : 1 <= Z.of_nat (List.length samples))
      by (destruct samples; [contradiction Hne; reflexivity|simpl; lia]).
    rewrite Hq. apply Exact.div_of_int; nia. }
  split; [exact Hmean|].
  intros a k start end_ Hk Ha Hka.
  pose proof (Hmean (repeat a k) start end_ a) as H.
  rewrite repeat_length, total_repeat in H. apply H.
  - destruct k; [lia|discriminate].
  - clear -Ha. induction k; constructor; assumption.
  - exact Hka.
  - reflexivity.
Qed.

Lemma average_of_equal_samples_witness :
  get_average_amplitude
    (format_data (repeat 65535 256) 256 f32_0_1 f32_0_5) 256
  = F32.of_int 65535.
Proof.
  apply (proj2 average_of_equal_samples 65535 256%nat f32_0_1 f32_0_5); lia.
Defined.

(** X3. The peak of a mapped sweep has the amplitude of the largest sample,
    for samples below 2^24 (16-bit samples are); for a sweep without
    samples it is the sentinel's -1. *)
Theorem peak_is_largest_sample (samples : list Z) (start end_ : float) :
  Forall (fun v => 0 <= v < 2 ^ 24) samples ->
  let n := Z.of_nat (List.length samples) in
  amp (get_max_peak (format_data samples n start end_) n)
  = F32.of_int (peak_sample samples).
Proof.
  intros Hs n. unfold get_max_peak, n.
  rewrite Nat2Z.id, firstn_all2 by (rewrite format_data_length; lia).
  apply scan_of_integers;
    [apply format_data_amp | reflexivity | lia | exact Hs].
Qed.

Lemma peak_is_largest_sample_witness :
  amp (get_max_peak (format_data [3; 7; 2; 7] 4 f32_0_1 f32_0_5) 4)
  = F32.of_int 7.
Proof.
  apply (peak_is_largest_sample [3; 7; 2; 7] f32_0_1 f32_0_5).
  repeat constructor; lia.
Defined.

(** ** The peak scan and the classifier on arbitrary floats *)

Section AnyFloats.

Local Open Scope f32_scope.

Lemma le_gt_false (a b : float) : (a <= b) = true -> (a > b) = false.
Proof.
  intros H. destruct (F32Facts.le_not_nan _ _ H) as [Ha Hb].
  rewrite (F32Facts.le_not_gt _ _ Ha Hb) in H.
  destruct (a > b); [discriminate H|reflexivity].
Qed.

(** The scan of [get_max_peak] from any start value that is a number, over
    any points: a NaN amplitude is passed over, and what the scan ends on is
    a number that no point exceeds. *)
Lemma scan_never_exceeded (l : list Datapoint) :
  forall init,
    F32.is_nan (amp init) = false ->
    (fold_left max_step l init = init \/ In (fold_left max_step l init) l)
    /\ F32.is_nan (amp (fold_left max_step l init)) = false
    /\ (amp init <= amp (fold_left max_step l init)) = true
    /\ (forall p, In p l ->
          (amp p > amp (fold_left max_step l init)) = false).
Proof.
  induction l as [|p t IH]; cbn [fold_left]; intros init Hi.
  - repeat split; [left; reflexivity|exact Hi|apply F32Facts.le_refl, Hi|].
    intros p [].
  - assert (Hstep : F32.is_nan (amp (max_step init p)) = false
                    /\ (amp init <= amp (max_step init p)) = true
                    /\ (max_step init p = p \/ (amp p > amp init) = false)).
    { unfold max_step. destruct (amp p > amp init) eqn:E.
      - destruct (F32Facts.lt_not_nan _ _ E) as [_ Hp].
        repeat split; [exact Hp|apply F32Facts.lt_le, E|left; reflexivity].
      - repeat split; [exact Hi|apply F32Facts.le_refl, Hi|right; reflexivity]. }
    destruct Hstep as (Hn & Hle & Hp).
    destruct (IH (max_step init p) Hn) as (Hin & Hnan & Hup & Hall).
    repeat split.
    + destruct Hin as [Hin|Hin]; [|right; right; exact Hin].
      rewrite Hin. unfold max_step.
      destruct (amp p > amp init); [right; left|left]; reflexivity.
    + exact Hnan.
    + eapply F32Facts.le_trans; eassumption.
    + intros q [<-|Hq]; [|apply Hall, Hq].
      destruct Hp as [Hp|Hp].
      * rewrite Hp in Hup at 1. apply le_gt_false, Hup.
      * destruct (amp p > amp (fold_left max_step t (max_step init p)))
          eqn:E; [|reflexivity].
        rewrite <- Hp. symmetry.
        apply (F32Facts.le_lt_trans _ _ _ (F32Facts.le_trans _ _ _ Hle Hup) E).
Qed.

End AnyFloats.

(** X4. Whatever the amplitudes are, NaNs and infinities included,
    [get_max_peak] returns the sentinel or one of the [length] points it
    scanned; the amplitude it returns is a number, at least the sentinel's
    -1, and no scanned point has a greater one. *)
Theorem get_max_peak_is_never_exceeded (data : list Datapoint) (length : Z) :
  let scanned := firstn (Z.to_nat length) data in
  let max := get_max_peak data length in
  (max = sentinel \/ In max scanned)
  /\ F32.is_nan (amp max) = false
  /\ (F32.of_int (-1) <= amp max)%f32 = true
  /\ (forall p, In p scanned -> (amp p > amp max)%f32 = false).
Proof.
  intros scanned max.
  exact (scan_never_exceeded scanned sentinel eq_refl).
Qed.

(** X5. A NaN never yields Empty: when the peak amplitude or the threshold is a
    NaN, as the threshold is as soon as the baseline or the ratio is,
    [car_present] answers Occupied. *)
Theorem car_present_of_nan :
  (forall peak base ratio : float,
      F32.is_nan peak = true \/ F32.is_nan (threshold base ratio) = true ->
      car_present peak base ratio = Occupied)
  /\ (forall base ratio : float,
         F32.is_nan base = true \/ F32.is_nan ratio = true ->
         F32.is_nan (threshold base ratio) = true).
Proof.
  split.
  - intros peak base ratio H. unfold car_present, threshold in *.
    destruct (peak <= base * ratio * F32.of_int 4)%f32 eqn:E; [|reflexivity].
    destruct (F32Facts.le_not_nan _ _ E) as [Hp Ht].
    destruct H as [H|H]; congruence.
  - intros base ratio [H|H]; unfold threshold.
    + destruct base; try discriminate H. reflexivity.
    + destruct ratio; try discriminate H. destruct base; reflexivity.
Qed.

Lemma car_present_of_nan_witness :
  car_present (F32.of_int 0) (F32.of_int 0) (F32.of_int 0 / F32.of_int 0)%f32
  = Occupied.
Proof.
  apply (proj1 car_present_of_nan). right.
  apply (proj2 car_present_of_nan). right. reflexivity.
Defined.

(** X6. The classifier is monotone in the peak amplitude: with the same
    baseline and ratio, a peak that is at least a peak classified Occupied
    is classified Occupied, and a peak that is at most a peak classified
    Empty is classified Empty. *)
Theorem car_present_is_monotone (peak peak' base ratio : float) :
  (peak <= peak')%f32 = true ->
  (car_present peak base ratio = Occupied ->
   car_present peak' base ratio = Occupied)
  /\ (car_present peak' base ratio = Empty ->
      car_present peak base ratio = Empty).
Proof.
  intros Hle. unfold car_present, Occupied, Empty.
  destruct (peak' <= base * ratio * F32.of_int 4)%f32 eqn:E.
  - rewrite (F32Facts.le_trans _ _ _ Hle E). split; [discriminate|reflexivity].
  - split; [reflexivity|discriminate].
Qed.

Lemma car_present_is_monotone_witness :
  car_present (F32.of_int 10) (F32.of_int 2) (F32.of_int 1) = Occupied.
Proof.
  apply (proj1 (car_present_is_monotone (F32.of_int 9) (F32.of_int 10)
                  (F32.of_int 2) (F32.of_int 1) eq_refl)).
  reflexivity.
Defined.

(** ** The checks of the calibration reader *)

Section HeaderCheck.

Import Stdio.

(** Directives without a conversion assign nothing. *)
Lemma fscanf_text_assigned (fmt : string) :
  forall (done : list item) (input : string) (r : scanned),
    fscanf_from (text fmt) done input = Some r ->
    assigned r = done
    /\ (done <> [] -> returned r = Z.of_nat (List.length done))
    /\ (done = [] -> returned r = 0 \/ returned r = EOF).
Proof.
  assert (Hstop : forall done b input,
             assigned (stop done b input) = done
             /\ (done <> [] ->
                 returned (stop done b input) = Z.of_nat (List.length done))
             /\ (done = [] -> returned (stop done b input) = 0
                              \/ returned (stop done b input) = EOF)).
  { intros done b input. unfold stop. cbn [assigned returned].
    repeat split.
    - destruct done; [contradiction|reflexivity].
    - intros ->. destruct b; auto. }
  induction fmt as [|c fmt IH]; intros done input r H; cbn [text] in H.
  - cbn in H. injection H as <-. apply Hstop.
  - destruct (isspace c); cbn [fscanf_from] in H.
    + apply IH in H. exact H.
    + destruct input as [|c' input'].
      * injection H as <-. apply Hstop.
      * destruct (Ascii.eqb c c'); [apply IH in H; exact H|].
        injection H as <-. apply Hstop.
Qed.

(** A format with one conversion between plain text: the call returns 1
    and has assigned one value, or it returns 0 or [EOF] and has assigned
    nothing. *)
Lemma fscanf_one_conversion {A} (wrap : A -> item)
  (conv : string -> conversion A) (d : directive) (pre post : string) :
  (forall done input,
      fscanf_from (d :: text post) done input
      = convert wrap (conv input) (fscanf_from (text post)) done input) ->
  forall (input : string) (r : scanned),
    fscanf_from (text pre ++ d :: text post) [] input = Some r ->
    (returned r = 1 /\ exists v, assigned r = [wrap v])
    \/ ((returned r = 0 \/ returned r = EOF) /\ assigned r = []).
Proof.
  intros Hd. induction pre as [|c pre IH]; intros input r H.
  - cbn [text app] in H. rewrite Hd in H. unfold convert in H.
    destruct (conv input) as [v s'| s'| |]; try discriminate H.
    + apply fscanf_text_assigned in H. destruct H as (Ha & Hr & _).
      left. split; [apply Hr; discriminate|exists v; exact Ha].
    + injection H as <-. right. split; [left|]; reflexivity.
    + injection H as <-. right. split; [right|]; reflexivity.
  - cbn [text app] in H. destruct (isspace c); cbn [fscanf_from] in H.
    + apply IH in H. exact H.
    + destruct input as [|c' input'].
      * injection H as <-. right. split; [right|]; reflexivity.
      * destruct (Ascii.eqb c c'); [apply IH in H; exact H|].
        injection H as <-. right. split; [left|]; reflexivity.
Qed.

Lemma fscanf_header_float (keyword : string) (input : string) (r : scanned) :
  fscanf input (text keyword ++ [Conv_f] ++ text nl) = Some r ->
  (returned r = 1 /\ exists v, assigned r = [Float v])
  \/ ((returned r = 0 \/ returned r = EOF) /\ assigned r = []).
Proof.
  apply (fscanf_one_conversion Float scan_float Conv_f keyword nl).
  reflexivity.
Qed.

Lemma fscanf_header_unsigned (keyword : string) (input : string)
  (r : scanned) :
  fscanf input (text keyword ++ [Conv_u] ++ text nl) = Some r ->
  (returned r = 1 /\ exists v, assigned r = [UInt v])
  \/ ((returned r = 0 \/ returned r = EOF) /\ assigned r = []).
Proof.
  apply (fscanf_one_conversion UInt (scan_unsigned 32) Conv_u keyword nl).
  reflexivity.
Qed.

(** Three return values, each 1, 0 or [EOF], have the 16-bit sum 3 only
    when each of them is 1. *)
Lemma header_sum (a b c : Z) :
  (a = 1 \/ a = 0 \/ a = EOF) ->
  (b = 1 \/ b = 0 \/ b = EOF) ->
  (c = 1 \/ c = 0 \/ c = EOF) ->
  uint16_t (uint16_t (uint16_t a + b) + c) = 3 ->
  a = 1 /\ b = 1 /\ c = 1.
Proof.
  intros [-> | [-> | ->]] [-> | [-> | ->]] [-> | [-> | ->]] H;
    vm_compute in H; try discriminate H; repeat split.
Qed.

End HeaderCheck.

(** X7. The reader gets past its first format check only when each of the
    three header calls has converted its value: the [start], [length] and
    [n] it goes on with are the values read from the file, never the
    indeterminate contents of the locals. *)
Theorem header_values_come_from_the_file
  (files : string -> option string) (garbage : Z -> Z)
  (app_config : app_configuration_t) (start length : float) (n : Z)
  (threshold_data : list Z) :
  read_calibration_file_content files garbage app_config
  = Done (start, length, n, threshold_data) ->
  exists (fin : string) (r1 r2 r3 : Stdio.scanned),
    files (calibration_file_name app_config) = Some fin
    /\ Stdio.fscanf fin fmt_start = Some r1
    /\ Stdio.assigned r1 = [Stdio.Float start]
    /\ Stdio.fscanf (Stdio.rest r1) fmt_length = Some r2
    /\ Stdio.assigned r2 = [Stdio.Float length]
    /\ Stdio.fscanf (Stdio.rest r2) fmt_n = Some r3
    /\ Stdio.assigned r3 = [Stdio.UInt n].
Proof.
  unfold read_calibration_file_content, scan.
  destruct (files (calibration_file_name app_config)) as [fin|];
    [|discriminate].
  destruct (Stdio.fscanf fin fmt_start) as [r1|] eqn:E1; [|discriminate].
  cbn [bind].
  destruct (Stdio.fscanf (Stdio.rest r1) fmt_length) as [r2|] eqn:E2;
    [|discriminate].
  cbn [bind].
  destruct (Stdio.fscanf (Stdio.rest r2) fmt_n) as [r3|] eqn:E3;
    [|discriminate].
  cbn [bind].
  destruct (uint16_t
              (uint16_t (uint16_t (Stdio.returned r1) + Stdio.returned r2)
               + Stdio.returned r3) =? 3) eqn:Hres; [|discriminate].
  apply Z.eqb_eq in Hres. cbn [negb].
  pose proof (fscanf_header_float "start " fin r1 E1) as H1.
  pose proof (fscanf_header_float "length " _ r2 E2) as H2.
  pose proof (fscanf_header_unsigned "n " _ r3 E3) as H3.
  destruct (header_sum (Stdio.returned r1) (Stdio.returned r2)
              (Stdio.returned r3)) as (R1 & R2 & R3);
    [tauto|tauto|tauto|exact Hres|].
  destruct H1 as [[_ (v1 & A1)]|[[H1|H1] _]];
    [|rewrite H1 in R1; discriminate R1|rewrite H1 in R1; discriminate R1].
  destruct H2 as [[_ (v2 & A2)]|[[H2|H2] _]];
    [|rewrite H2 in R2; discriminate R2|rewrite H2 in R2; discriminate R2].
  destruct H3 as [[_ (v3 & A3)]|[[H3|H3] _]];
    [|rewrite H3 in R3; discriminate R3|rewrite H3 in R3; discriminate R3].
  unfold assigned_float, assigned_uint. rewrite A1, A2, A3.
  destruct (read_samples _ _ _ _ _) as [[[res data] s]| | | |];
    cbn [bind]; try discriminate.
  destruct (negb (res =? v3)); [discriminate|].
  intros H. injection H as <- <- <- <-.
  exists fin, r1, r2, r3. repeat split; assumption.
Qed.

Lemma header_values_come_from_the_file_witness :
  exists (fin : string) (r1 r2 r3 : Stdio.scanned),
    stored (calibration_text f32_0_1 f32_0_5 3 [10; 20; 30]) "parking.cal"
    = Some fin
    /\ Stdio.fscanf fin fmt_start = Some r1
    /\ Stdio.assigned r1 = [Stdio.Float f32_0_1]
    /\ Stdio.fscanf (Stdio.rest r1) fmt_length = Some r2
    /\ Stdio.assigned r2 = [Stdio.Float f32_0_5]
    /\ Stdio.fscanf (Stdio.rest r2) fmt_n = Some r3
    /\ Stdio.assigned r3 = [Stdio.UInt 3].
Proof.
  apply (header_values_come_from_the_file
           (stored (calibration_text f32_0_1 f32_0_5 3 [10; 20; 30]))
           zero_garbage (example_config f32_0_12 f32_0_48 false)
           f32_0_1 f32_0_5 3
           ([10; 20; 30] ++ skipn 3 (local_array zero_garbage MAX_DATA_SIZE))).
  vm_compute. reflexivity.
Defined.

Section SampleCheck.

Import Stdio.

(** On a stream that holds nothing but white space every call of the
    reading loop returns [EOF]. *)
Lemma read_samples_blank (k : nat) :
  forall (i : Z) (s : string) (threshold_data : list Z) (res : Z),
    skip_space s = EmptyString ->
    0 <= res < 65536 ->
    exists s' : string,
      read_samples k i s threshold_data res
      = Done ((res - Z.of_nat k) mod 65536, threshold_data, s').
Proof.
  destruct k as [|k]; intros i s threshold_data res Hs Hres.
  - exists s. cbn [read_samples]. rewrite Z.sub_0_r, Z.mod_small by exact Hres.
    reflexivity.
  - exists EmptyString. cbn [read_samples]. unfold scan, fscanf.
    cbn [fscanf_from]. unfold scan_unsigned. rewrite Hs.
    cbn [convert stop bind returned assigned rest].
    rewrite read_samples_at_end_of_file by (apply Z.mod_pos_bound; lia).
    unfold uint16_t, EOF.
    replace (res - Z.of_nat (S k)) with (res + -1 - Z.of_nat k) by lia.
    rewrite Zminus_mod_idemp_l. reflexivity.
Qed.

(** The reading loop on the text of [data] when it is run for [k] calls
    more than there are samples. *)
Lemma read_samples_short (data : list Z) :
  forall (pre mid post : list Z) (s : string) (k : nat),
    Forall is_uint16 data ->
    List.length mid = List.length data ->
    Z.of_nat (List.length pre + List.length data) < 65536 ->
    skip_space s = print_samples data ->
    exists s' : string,
      read_samples (List.length data + k) (Z.of_nat (List.length pre)) s
        (pre ++ mid ++ post) (Z.of_nat (List.length pre))
      = Done ((Z.of_nat (List.length pre + List.length data) - Z.of_nat k)
                mod 65536,
              pre ++ data ++ post, s').
Proof.
  induction data as [|v data IH]; intros pre mid post s k Hdata Hmid Hlen Hs.
  - destruct mid; [|discriminate Hmid]. cbn [List.length Nat.add app] in *.
    rewrite Nat.add_0_r. apply read_samples_blank; [exact Hs|lia].
  - destruct mid as [|m mid]; [discriminate Hmid|].
    inversion Hdata as [|? ? Hv Hrest]; subst.
    cbn [List.length Nat.add read_samples]. unfold scan, fscanf.
    cbn [fscanf_from]. rewrite <- scan_unsigned_skip, Hs.
    cbn [print_samples]. rewrite StdioFacts.print_d_nonnegative by apply Hv.
    change (print_u v ++ " " ++ print_samples data)%string
      with (print_u v ++ String " " (print_samples data))%string.
    rewrite StdioFacts.scan_unsigned_print_u by (try reflexivity; apply Hv).
    change (2 ^ 16) with 65536. rewrite Z.mod_small by apply Hv.
    cbn [convert fscanf_from stop bind app returned assigned rest List.length].
    assert (Hin : (Z.of_nat (List.length pre)
                   <? Z.of_nat (List.length (pre ++ m :: mid ++ post))) = true)
      by (apply Z.ltb_lt; rewrite length_app; cbn [List.length]; lia).
    rewrite Hin, Nat2Z.id, store_middle.
    replace (uint16_t (Z.of_nat (List.length pre) + Z.of_nat 1))
      with (Z.of_nat (List.length (pre ++ [v]))).
    2:{ rewrite length_app. cbn [List.length]. unfold uint16_t.
        cbn [List.length] in Hlen. rewrite Z.mod_small; lia. }
    replace (Z.of_nat (List.length pre) + 1)
      with (Z.of_nat (List.length (pre ++ [v])))
      by (rewrite length_app; cbn [List.length]; lia).
    replace (pre ++ v :: mid ++ post) with ((pre ++ [v]) ++ mid ++ post)
      by (rewrite <- app_assoc; reflexivity).
    destruct (IH (pre ++ [v]) mid post (String " " (print_samples data)) k)
      as (s' & Hloop).
    + exact Hrest.
    + simpl in Hmid. lia.
    + rewrite length_app. cbn [List.length] in *. lia.
    + change (skip_space (String " " (print_samples data)))
        with (skip_space (print_samples data)).
      apply skip_space_print_samples, Hrest.
    + exists s'. rewrite Hloop, length_app. cbn [List.length].
      rewrite <- app_assoc. cbn [app].
      replace (List.length pre + 1 + List.length data)%nat
        with (List.length pre + S (List.length data))%nat by lia.
      reflexivity.
Qed.

(** What the first half of the reader makes of a file that holds fewer
    samples than its header announces. *)
Lemma read_short_text files garbage app_config start length n samples :
  files (calibration_file_name app_config)
  = Some (calibration_text start length n samples) ->
  survives_text start ->
  survives_text length ->
  Forall is_uint16 samples ->
  (List.length samples <= 3000)%nat ->
  Z.of_nat (List.length samples) <= n < 4294967296 ->
  read_calibration_file_content files garbage app_config
  = if (2 * Z.of_nat (List.length samples) - n) mod 65536 =? n
    then Done (start, length, n,
               samples ++ skipn (List.length samples)
                            (local_array garbage MAX_DATA_SIZE))
    else Fatal format_error.
Proof.
  intros Hfile Hstart Hlength Hu Hlen Hn.
  unfold read_calibration_file_content. rewrite Hfile.
  unfold calibration_text, scan.
  rewrite (fscanf_start start _ Hstart). cbn [bind rest returned].
  rewrite skip_space_length_line, (fscanf_length length _ Hlength).
  cbn [bind rest returned].
  rewrite skip_space_n_line, fscanf_n by lia.
  cbn [bind rest returned assigned assigned_float assigned_uint].
  change (negb (uint16_t (uint16_t (uint16_t 1 + 1) + 1) =? 3)) with false.
  cbv iota.
  rewrite firstn_all2 by lia.
  set (a := local_array garbage MAX_DATA_SIZE).
  assert (Ha : List.length a = 3000%nat) by apply local_array_length.
  destruct (read_samples_short samples []
              (firstn (List.length samples) a)
              (skipn (List.length samples) a)
              (skip_space (print_samples samples))
              (Z.to_nat n - List.length samples)%nat)
    as (s' & Hloop).
  - exact Hu.
  - rewrite length_firstn. lia.
  - cbn [List.length]. lia.
  - rewrite StdioFacts.skip_space_idempotent.
    apply skip_space_print_samples, Hu.
  - cbn [List.length app Nat.add] in Hloop.
    rewrite firstn_skipn in Hloop.
    replace (List.length samples + (Z.to_nat n - List.length samples))%nat
      with (Z.to_nat n) in Hloop by lia.
    change (Z.of_nat 0) with 0 in Hloop. rewrite Hloop. cbn [bind].
    replace (Z.of_nat (List.length samples)
             - Z.of_nat (Z.to_nat n - List.length samples))
      with (2 * Z.of_nat (List.length samples) - n) by lia.
    destruct ((2 * Z.of_nat (List.length samples) - n) mod 65536 =? n);
      reflexivity.
Qed.

End SampleCheck.

(** X8. A calibration file that holds fewer samples than its header announces
    (at most 3000 of them, each with a space behind it) is rejected with
    the format error, unless exactly 32768 samples are missing: then the
    16-bit count of the calls that returned [EOF] wraps around and the
    file is accepted. *)
Theorem missing_samples_are_rejected
  (e : endianness) (files : string -> option string) (garbage : Z -> Z)
  (app_config : app_configuration_t) (start length : float) (n : Z)
  (samples : list Z) :
  files (calibration_file_name app_config)
  = Some (calibration_text start length n samples) ->
  survives_text start ->
  survives_text length ->
  Forall is_uint16 samples ->
  (List.length samples <= 3000)%nat ->
  Z.of_nat (List.length samples) < n < 4294967296 ->
  (n - Z.of_nat (List.length samples) <> 32768 ->
   read_and_calculate_threshold e files garbage app_config
   = Fatal format_error)
  /\ (n - Z.of_nat (List.length samples) = 32768 ->
      exists r, read_and_calculate_threshold e files garbage app_config
                = Done r).
Proof.
  intros Hfile Hstart Hlength Hu Hlen Hn.
  unfold read_and_calculate_threshold.
  rewrite (read_short_text files garbage app_config start length n samples)
    by (try assumption; lia).
  split; intros Hmiss.
  - replace ((2 * Z.of_nat (List.length samples) - n) mod 65536 =? n)
      with false; [reflexivity|].
    symmetry. apply Z.eqb_neq. intros E.
    pose proof (Z.mod_pos_bound (2 * Z.of_nat (List.length samples) - n) 65536
                  ltac:(lia)).
    Z.div_mod_to_equations. lia.
  - replace ((2 * Z.of_nat (List.length samples) - n) mod 65536 =? n)
      with true; [cbn [bind]; eexists; reflexivity|].
    symmetry. apply Z.eqb_eq.
    replace (2 * Z.of_nat (List.length samples) - n)
      with (n + (-1) * 65536) by lia.
    rewrite Z.mod_add by lia. apply Z.mod_small. lia.
Qed.

Lemma missing_samples_are_rejected_witness :
  read_and_calculate_threshold LittleEndian
    (stored (calibration_text f32_0_1 f32_0_5 5 [1; 2; 3])) zero_garbage
    (example_config f32_0_1 f32_0_5 false)
  = Fatal format_error.
Proof.
  apply (proj1 (missing_samples_are_rejected LittleEndian
                  (stored (calibration_text f32_0_1 f32_0_5 5 [1; 2; 3]))
                  zero_garbage (example_config f32_0_1 f32_0_5 false)
                  f32_0_1 f32_0_5 5 [1; 2; 3] eq_refl
                  survives_text_0_1 survives_text_0_5
                  ltac:(repeat constructor; unfold is_uint16; lia)
                  ltac:(length_bounds) ltac:(simpl; lia))).
  simpl. lia.
Defined.

(** ** The threshold model of an accepted file *)

Section ClearedSamples.

Lemma store_length {A} (a : list A) (i : nat) (v : A) :
  List.length (store a i v) = List.length a.
Proof.
  revert i. induction a as [|x a IH]; intros [|i]; cbn; try reflexivity.
  rewrite IH. reflexivity.
Qed.

(** The reading loop keeps the size of the buffer. *)
Lemma read_samples_length (k : nat) :
  forall i fin threshold_data res res' threshold_data' fin',
    read_samples k i fin threshold_data res
    = Done (res', threshold_data', fin') ->
    List.length threshold_data' = List.length threshold_data.
Proof.
  induction k as [|k IH]; intros i fin threshold_data res res' data' fin' H;
    cbn [read_samples] in H.
  - injection H as _ <- _. reflexivity.
  - destruct (scan fin [Stdio.Conv_hu]) as [r| | | |]; cbn [bind] in H;
      try discriminate H.
    destruct (Stdio.assigned r) as [|[f|v] [|? ?]];
      try (apply IH in H; exact H).
    destruct (i <? Z.of_nat (List.length threshold_data));
      [|discriminate H].
    apply IH in H. rewrite H. apply store_length.
Qed.

Lemma read_calibration_file_content_length files garbage app_config
  start length n threshold_data :
  read_calibration_file_content files garbage app_config
  = Done (start, length, n, threshold_data) ->
  List.length threshold_data = 3000%nat.
Proof.
  unfold read_calibration_file_content.
  destruct (files _) as [fin|]; [|discriminate].
  destruct (scan fin fmt_start) as [r1| | | |]; try discriminate.
  cbn [bind].
  destruct (scan _ fmt_length) as [r2| | | |]; try discriminate.
  cbn [bind].
  destruct (scan _ fmt_n) as [r3| | | |]; try discriminate.
  cbn [bind].
  destruct (negb _); [discriminate|].
  destruct (read_samples _ _ _ _ _) as [[[res data] s]| | | |] eqn:E;
    cbn [bind]; try discriminate.
  destruct (negb _); [discriminate|].
  intros H. injection H as _ _ _ <-.
  apply read_samples_length in E. rewrite E. apply local_array_length.
Qed.

Lemma memset_zero_length (e : endianness) (a : list Z) :
  forall bytes, List.length (memset_zero e a bytes) = List.length a.
Proof.
  induction a as [|x a IH]; intros [|[|bytes]]; cbn; try reflexivity.
  rewrite IH. reflexivity.
Qed.

(** [memset] over [bytes] bytes touches the cells that hold them and no
    cell behind. *)
Lemma memset_zero_app (e : endianness) (a tail : list Z) :
  forall bytes,
    (bytes <= 2 * List.length a)%nat ->
    memset_zero e (a ++ tail) bytes = memset_zero e a bytes ++ tail.
Proof.
  induction a as [|x a IH]; intros bytes H.
  - cbn [List.length] in H. replace bytes with O by lia.
    destruct tail; reflexivity.
  - destruct bytes as [|[|bytes]]; try reflexivity.
    cbn [app memset_zero]. rewrite IH by (cbn [List.length] in H; lia).
    reflexivity.
Qed.

(** The cells after [memset]: zero where both bytes were cleared, as they
    were where none was, and with the first byte cleared in between. *)
Lemma memset_zero_nth (e : endianness) (a : list Z) :
  forall (bytes i : nat),
    (i < List.length a)%nat ->
    nth i (memset_zero e a bytes) 0
    = if (2 * i + 2 <=? bytes)%nat then 0
      else if (bytes <=? 2 * i)%nat then nth i a 0
      else clear_first_byte e (nth i a 0).
Proof.
  induction a as [|x a IH]; intros bytes i Hi; [simpl in Hi; lia|].
  destruct bytes as [|[|bytes]]; cbn [memset_zero].
  - destruct (Nat.leb_spec (2 * i + 2) 0); [lia|].
    destruct (Nat.leb_spec 0 (2 * i)); [reflexivity|lia].
  - destruct (Nat.leb_spec (2 * i + 2) 1); [lia|].
    destruct i as [|i]; cbn [nth].
    + reflexivity.
    + destruct (Nat.leb_spec 1 (2 * S i)); [reflexivity|lia].
  - destruct i as [|i]; cbn [nth].
    + destruct (Nat.leb_spec (2 * 0 + 2) (S (S bytes))); [reflexivity|lia].
    + rewrite IH by (simpl in Hi; lia).
      destruct (Nat.leb_spec (2 * i + 2) bytes);
        destruct (Nat.leb_spec (2 * S i + 2) (S (S bytes))); try lia;
        try reflexivity.
      destruct (Nat.leb_spec bytes (2 * i));
        destruct (Nat.leb_spec (S (S bytes)) (2 * S i)); try lia;
        reflexivity.
Qed.

Lemma memset_zero_zeros (e : endianness) (a : list Z) :
  Forall (fun v => v = 0) a ->
  forall bytes, memset_zero e a bytes = a.
Proof.
  induction 1 as [|x a Hx _ IH]; intros [|[|bytes]]; cbn; try reflexivity.
  - subst x. destruct e; reflexivity.
  - subst x. rewrite IH. reflexivity.
Qed.

(** The second half of [read_and_calculate_threshold] on what the first
    half has read. *)
Lemma threshold_of_content (e : endianness) files garbage app_config
  start length n threshold_data :
  read_calibration_file_content files garbage app_config
  = Done (start, length, n, threshold_data) ->
  0 <= n <= MAX_DATA_SIZE ->
  let app_config1 :=
    if (start != start_range (radar_config app_config))%f32
    then set_start_range app_config start else app_config in
  let app_config2 :=
    if (length < length_range (radar_config app_config1))%f32
    then set_length_range app_config1 length else app_config1 in
  let cleared :=
    memset_zero e (firstn (Z.to_nat n) threshold_data) (Z.to_nat n) in
  let th_data :=
    format_data cleared n (start_range (radar_config app_config2))
      (start_range (radar_config app_config2)
       + length_range (radar_config app_config2))%f32 in
  read_and_calculate_threshold e files garbage app_config
  = Done (app_config2,
          {| avg_calib_amp := get_average_amplitude th_data n;
             peak_amp := get_max_peak th_data n;
             avg_amp_factor :=
               (amp (get_max_peak th_data n)
                / get_average_amplitude th_data n)%f32 |}).
Proof.
  intros Hread Hn app_config1 app_config2 cleared th_data.
  pose proof (read_calibration_file_content_length _ _ _ _ _ _ _ Hread)
    as Hlen.
  unfold read_and_calculate_threshold. rewrite Hread. cbn [bind].
  rewrite min_small by exact Hn.
  fold app_config1. fold app_config2.
  assert (Hdata :
            format_data (memset_zero e threshold_data (Z.to_nat n)) n
              (start_range (radar_config app_config2))
              (start_range (radar_config app_config2)
               + length_range (radar_config app_config2))%f32
            = th_data).
  { unfold th_data, cleared.
    rewrite <- (firstn_skipn (Z.to_nat n) threshold_data) at 1.
    assert (Hf : List.length (firstn (Z.to_nat n) threshold_data)
                 = Z.to_nat n)
      by (rewrite length_firstn; unfold MAX_DATA_SIZE in Hn; lia).
    rewrite memset_zero_app by lia.
    set (c := memset_zero e (firstn (Z.to_nat n) threshold_data) (Z.to_nat n)).
    assert (Hc : Z.of_nat (List.length c) = n)
      by (unfold c; rewrite memset_zero_length, Hf; lia).
    rewrite <- Hc. apply format_data_prefix. }
  rewrite Hdata. reflexivity.
Qed.

End ClearedSamples.

(** X10. For every accepted calibration file that announces at most 3000
    samples, the threshold model is that of the samples after the [memset]
    of [n] bytes: the first n/2 of the n samples count as zero, the last
    n/2 as they were read and, for odd n, the one in the middle with the
    byte at its lower address cleared. *)
Theorem threshold_ignores_first_half
  (e : endianness) (files : string -> option string) (garbage : Z -> Z)
  (app_config : app_configuration_t) (start length : float) (n : Z)
  (threshold_data : list Z) :
  read_calibration_file_content files garbage app_config
  = Done (start, length, n, threshold_data) ->
  0 <= n <= MAX_DATA_SIZE ->
  let app_config1 :=
    if (start != start_range (radar_config app_config))%f32
    then set_start_range app_config start else app_config in
  let app_config2 :=
    if (length < length_range (radar_config app_config1))%f32
    then set_length_range app_config1 length else app_config1 in
  let cleared :=
    memset_zero e (firstn (Z.to_nat n) threshold_data) (Z.to_nat n) in
  let th_data :=
    format_data cleared n (start_range (radar_config app_config2))
      (start_range (radar_config app_config2)
       + length_range (radar_config app_config2))%f32 in
  read_and_calculate_threshold e files garbage app_config
  = Done (app_config2,
          {| avg_calib_amp := get_average_amplitude th_data n;
             peak_amp := get_max_peak th_data n;
             avg_amp_factor :=
               (amp (get_max_peak th_data n)
                / get_average_amplitude th_data n)%f32 |})
  /\ List.length cleared = Z.to_nat n
  /\ (forall i : nat,
         2 * Z.of_nat i + 2 <= n -> nth i cleared 0 = 0)
  /\ (forall i : nat,
         n <= 2 * Z.of_nat i -> Z.of_nat i < n ->
         nth i cleared 0 = nth i threshold_data 0)
  /\ (forall i : nat,
         n = 2 * Z.of_nat i + 1 ->
         nth i cleared 0 = clear_first_byte e (nth i threshold_data 0)).
Proof.
  intros Hread Hn app_config1 app_config2 cleared th_data.
  pose proof (read_calibration_file_content_length _ _ _ _ _ _ _ Hread)
    as Hlen.
  assert (Hf : List.length (firstn (Z.to_nat n) threshold_data) = Z.to_nat n)
    by (rewrite length_firstn; unfold MAX_DATA_SIZE in Hn; lia).
  assert (Hnth : forall i : nat,
             (i < Z.to_nat n)%nat ->
             nth i (firstn (Z.to_nat n) threshold_data) 0
             = nth i threshold_data 0).
  { intros i Hi.
    rewrite <- (firstn_skipn (Z.to_nat n) threshold_data) at 2.
    rewrite app_nth1 by lia. reflexivity. }
  split; [apply threshold_of_content; assumption|].
  split; [unfold cleared; rewrite memset_zero_length; exact Hf|].
  repeat split; intros i Hi; unfold cleared.
  - rewrite memset_zero_nth by lia.
    replace (2 * i + 2 <=? Z.to_nat n)%nat with true
      by (symmetry; apply Nat.leb_le; lia).
    reflexivity.
  - intros Hin. rewrite memset_zero_nth by lia.
    replace (2 * i + 2 <=? Z.to_nat n)%nat with false
      by (symmetry; apply Nat.leb_gt; lia).
    replace (Z.to_nat n <=? 2 * i)%nat with true
      by (symmetry; apply Nat.leb_le; lia).
    apply Hnth. lia.
  - rewrite memset_zero_nth by lia.
    replace (2 * i + 2 <=? Z.to_nat n)%nat with false
      by (symmetry; apply Nat.leb_gt; lia).
    replace (Z.to_nat n <=? 2 * i)%nat with false
      by (symmetry; apply Nat.leb_gt; lia).
    rewrite Hnth by lia. reflexivity.
Qed.

Lemma threshold_ignores_first_half_witness :
  read_and_calculate_threshold LittleEndian
    (stored (calibration_text f32_0_1 f32_0_5 4 [40; 30; 20; 10]))
    zero_garbage (example_config f32_0_1 f32_0_5 false)
  = Done (example_config f32_0_1 f32_0_5 false,
          {| avg_calib_amp :=
               get_average_amplitude
                 (format_data [0; 0; 20; 10] 4 f32_0_1 (f32_0_1 + f32_0_5)%f32)
                 4;
             peak_amp :=
               get_max_peak
                 (format_data [0; 0; 20; 10] 4 f32_0_1 (f32_0_1 + f32_0_5)%f32)
                 4;
             avg_amp_factor :=
               (F32.of_int 20 / F32.of_decimal false 75 (-1))%f32 |}).
Proof.
  destruct (threshold_ignores_first_half LittleEndian
              (stored (calibration_text f32_0_1 f32_0_5 4 [40; 30; 20; 10]))
              zero_garbage (example_config f32_0_1 f32_0_5 false)
              f32_0_1 f32_0_5 4
              ([40; 30; 20; 10]
                 ++ skipn 4 (local_array zero_garbage MAX_DATA_SIZE)))
    as (H & _).
  - vm_compute. reflexivity.
  - unfold MAX_DATA_SIZE. lia.
  - etransitivity; [exact H|]. vm_compute. reflexivity.
Defined.

(** X11. A calibration whose samples are all zero is degenerate without being
    rejected: the baseline is 0, the ratio 0/0 is a NaN, and with that
    threshold model every peak whatsoever is classified Occupied. *)
Theorem zero_calibration_reports_occupied
  (e : endianness) (files : string -> option string) (garbage : Z -> Z)
  (app_config : app_configuration_t) (start length : float) (n : Z)
  (threshold_data : list Z) :
  read_calibration_file_content files garbage app_config
  = Done (start, length, n, threshold_data) ->
  1 <= n <= MAX_DATA_SIZE ->
  Forall (fun v => v = 0) (firstn (Z.to_nat n) threshold_data) ->
  exists (app_config' : app_configuration_t) (th : threshold_t),
    read_and_calculate_threshold e files garbage app_config
    = Done (app_config', th)
    /\ avg_calib_amp th = F32.of_int 0
    /\ amp (peak_amp th) = F32.of_int 0
    /\ avg_amp_factor th = S754_nan
    /\ forall peak : float,
         car_present peak (avg_calib_amp th) (avg_amp_factor th) = Occupied.
Proof.
  intros Hread Hn Hzero.
  pose proof (read_calibration_file_content_length _ _ _ _ _ _ _ Hread)
    as Hlen.
  pose proof (threshold_of_content e _ _ _ _ _ _ _ Hread ltac:(lia)) as H.
  cbv zeta in H. rewrite (memset_zero_zeros e _ Hzero) in H.
  set (zeros := firstn (Z.to_nat n) threshold_data) in *.
  assert (Hz : List.length zeros = Z.to_nat n)
    by (unfold zeros; rewrite length_firstn; unfold MAX_DATA_SIZE in Hn; lia).
  assert (Hrep : zeros = repeat 0 (Z.to_nat n)).
  { rewrite <- Hz. clear -Hzero. induction Hzero as [|x l Hx _ IH];
      [reflexivity|]. cbn [List.length repeat]. rewrite <- IH, Hx.
    reflexivity. }
  assert (Hn' : n = Z.of_nat (List.length zeros)) by lia.
  assert (Hall : Forall (fun v => 0 <= v < 2 ^ 24) zeros)
    by (rewrite Hrep; clear; induction (Z.to_nat n); constructor;
        [lia|assumption]).
  assert (Havg : forall s1 s2 : float,
            get_average_amplitude (format_data zeros n s1 s2) n
            = F32.of_int 0).
  { intros. rewrite Hn'. rewrite average_of_integers.
    - pose proof (Exact.div_of_int (Z.of_nat (List.length zeros)) 0) as D.
      rewrite Z.mul_0_r in D. rewrite Hrep at 1. rewrite total_repeat, Z.mul_0_r.
      apply D; lia.
    - revert Hall. apply Forall_impl. intros; lia.
    - rewrite Hrep, total_repeat. lia. }
  assert (Hpeak : forall s1 s2 : float,
            amp (get_max_peak (format_data zeros n s1 s2) n) = F32.of_int 0).
  { intros. rewrite Hn'. unfold get_max_peak.
    rewrite Nat2Z.id, firstn_all2 by (rewrite format_data_length; lia).
    rewrite (scan_of_integers zeros _ sentinel (-1)
               (format_data_amp zeros _ _) eq_refl ltac:(lia) Hall).
    f_equal. rewrite Hrep.
    destruct (Z.to_nat n) as [|k] eqn:Ek; [lia|]. cbn [repeat fold_left].
    clear. change (Z.max (-1) 0) with 0.
    induction k as [|k IH]; [reflexivity|exact IH]. }
  eexists _, _. split; [exact H|]. cbn [avg_calib_amp peak_amp avg_amp_factor].
  rewrite !Havg, !Hpeak. repeat split.
  intros peak. unfold car_present.
  change (F32.of_int 0 * (F32.of_int 0 / F32.of_int 0) * F32.of_int 4)%f32
    with S754_nan.
  destruct peak as [[|]|[|]| |[|] ? ?]; reflexivity.
Qed.

Lemma zero_calibration_reports_occupied_witness :
  exists (app_config' : app_configuration_t) (th : threshold_t),
    read_and_calculate_threshold LittleEndian
      (stored (calibration_text f32_0_1 f32_0_5 2 [0; 0])) zero_garbage
      (example_config f32_0_1 f32_0_5 false)
    = Done (app_config', th)
    /\ avg_calib_amp th = F32.of_int 0
    /\ amp (peak_amp th) = F32.of_int 0
    /\ avg_amp_factor th = S754_nan
    /\ forall peak : float,
         car_present peak (avg_calib_amp th) (avg_amp_factor th) = Occupied.
Proof.
  apply (zero_calibration_reports_occupied LittleEndian
           (stored (calibration_text f32_0_1 f32_0_5 2 [0; 0])) zero_garbage
           (example_config f32_0_1 f32_0_5 false) f32_0_1 f32_0_5 2
           ([0; 0] ++ skipn 2 (local_array zero_garbage MAX_DATA_SIZE))).
  - vm_compute. reflexivity.
  - unfold MAX_DATA_SIZE. lia.
  - repeat constructor.
Defined.

(** ** The detection loop, whatever the sensor does *)

Section AnySensor.

Variable app_config : app_configuration_t.
Variables avg_calib_amp avg_amp_factor : float.

Local Abbreviation classify :=
  (sweep_and_classify app_config avg_calib_amp avg_amp_factor).
Local Abbreviation results :=
  (classifications app_config avg_calib_amp avg_amp_factor).
Local Abbreviation seconds := (unsigned (time_delay app_config)).

(** An acquisition keeps the size of the buffer. *)
Lemma sweep_and_classify_length h envelope_data data_len r d e h' :
  classify h envelope_data data_len = Done (r, d, e, h') ->
  List.length e = List.length envelope_data.
Proof.
  unfold sweep_and_classify, get_one_sweep.
  destruct h as [|[samples|] h0]; cbn [bind handle_fatal_error];
    try discriminate.
  destruct (Z.of_nat (List.length envelope_data)
            <? Z.of_nat (List.length samples)) eqn:E; [discriminate|].
  apply Z.ltb_ge in E. cbn [bind]. intros H. injection H as _ _ <- _.
  rewrite length_app, length_map, length_skipn. lia.
Qed.

(** How an acquisition ends that does not deliver. *)
Lemma sweep_and_classify_failure reply envelope_data data_len :
  match classify [reply] envelope_data data_len with
  | Done _ => True
  | other =>
      other
      = match reply with
        | None => Fatal acquisition_failed
        | Some _ => OutOfBounds (Z.of_nat (List.length envelope_data))
        end
  end.
Proof.
  unfold sweep_and_classify, get_one_sweep.
  destruct reply as [samples|]; cbn [bind handle_fatal_error];
    [|reflexivity].
  destruct (_ <? _); cbn [bind]; [reflexivity|exact I].
Qed.

(** The [while] loop when no sweep classifies as the one before it: the
    loop goes on until an acquisition does not deliver, and ends as that
    acquisition does. *)
Lemma detection_loop_unstable (h : acc_service_handle_t) :
  forall fuel envelope_data data_len first_res result trace,
    first_res <> result ->
    (forall j, (j < List.length (results h envelope_data data_len))%nat ->
       nth (S j) (result :: results h envelope_data data_len) 0
       <> nth j (result :: results h envelope_data data_len) 0) ->
    (List.length h < fuel)%nat ->
    detection_loop fuel app_config avg_calib_amp avg_amp_factor
      h envelope_data data_len first_res result trace
    = match nth_error h (List.length (results h envelope_data data_len)) with
      | None => Exhausted
      | Some None => Fatal acquisition_failed
      | Some (Some _) => OutOfBounds (Z.of_nat (List.length envelope_data))
      end.
Proof.
  induction h as [|reply h IH];
    intros fuel envelope_data data_len first_res result trace
      Hne Hdiffer Hfuel;
    (destruct fuel as [|fuel]; [simpl in Hfuel; lia|]);
    cbn [detection_loop];
    (replace (first_res =? result) with false
      by (symmetry; apply Z.eqb_neq; exact Hne));
    cbn [negb].
  - reflexivity.
  - rewrite sweep_and_classify_cons.
    pose proof (sweep_and_classify_failure reply envelope_data data_len)
      as Hfail.
    cbn [classifications] in *.
    destruct (classify [reply] envelope_data data_len)
      as [[[[r d] e] h0]| | | |] eqn:Hsweep; cbn [bind];
      try (destruct reply;
         first [discriminate Hfail|injection Hfail as ->; reflexivity]).
    cbn [List.length nth_error].
    rewrite (IH fuel e d result r).
    + rewrite (sweep_and_classify_length _ _ _ _ _ _ _ Hsweep).
      reflexivity.
    + intros E. apply (Hdiffer O); [simpl; lia|symmetry; exact E].
    + intros j Hj. apply (Hdiffer (S j)). simpl. lia.
    + simpl in Hfuel. lia.
Qed.

(** The classifications stop at the first acquisition that does not
    deliver: they are never more than the replies. *)
Lemma results_nth_error h :
  forall envelope_data data_len,
    (List.length (results h envelope_data data_len) < List.length h)%nat ->
    nth_error h (List.length (results h envelope_data data_len)) <> None.
Proof.
  intros envelope_data data_len H E. apply nth_error_None in E. lia.
Qed.

(** A list of classifications has a first place where one repeats the one
    before it, or has none. *)
Lemma first_repeat (cs : list Z) :
  (exists k : nat,
      (1 <= k < List.length cs)%nat
      /\ nth k cs 0 = nth (k - 1) cs 0
      /\ forall j, (1 <= j < k)%nat -> nth j cs 0 <> nth (j - 1) cs 0)
  \/ (forall j, (1 <= j < List.length cs)%nat ->
        nth j cs 0 <> nth (j - 1) cs 0).
Proof.
  assert (H : forall n : nat,
             (exists k : nat,
                 (1 <= k < List.length cs)%nat /\ (k < n)%nat
                 /\ nth k cs 0 = nth (k - 1) cs 0
                 /\ forall j, (1 <= j < k)%nat ->
                      nth j cs 0 <> nth (j - 1) cs 0)
             \/ (forall j, (1 <= j < List.length cs)%nat -> (j < n)%nat ->
                   nth j cs 0 <> nth (j - 1) cs 0)).
  { induction n as [|n [IH|IH]].
    - right. intros j _ Hj. lia.
    - left. destruct IH as (k & Hk & Hn & Hrest). exists k.
      split; [exact Hk|]. split; [lia|exact Hrest].
    - destruct (Z.eq_dec (nth n cs 0) (nth (n - 1) cs 0)) as [E|E].
      + destruct (le_lt_dec 1 n) as [H1|H1];
          [|right; intros j Hj Hj1; lia].
        destruct (lt_dec n (List.length cs)) as [Hin|Hout].
        * left. exists n.
          split; [lia|]. split; [lia|]. split; [exact E|].
          intros j Hj. apply IH; lia.
        * right. intros j Hj Hj1. apply IH; lia.
      + right. intros j Hj Hj1.
        destruct (Nat.eq_dec j n) as [Ej|Nj];
          [rewrite Ej; exact E|apply IH; lia]. }
  destruct (H (List.length cs)) as [(k & Hk & _ & Hrest)|Hnone].
  - left. exists k. exact (conj Hk Hrest).
  - right. intros j Hj. apply Hnone; lia.
Qed.

(** Every classification is Empty or Occupied. *)
Lemma classifications_bits h :
  forall envelope_data data_len (k : nat),
    (k < List.length (results h envelope_data data_len))%nat ->
    nth k (results h envelope_data data_len) 0 = Empty
    \/ nth k (results h envelope_data data_len) 0 = Occupied.
Proof.
  induction h as [|reply h IH]; intros e d k Hk; [simpl in Hk; lia|].
  cbn [classifications] in *.
  destruct (classify [reply] e d) as [[[[r d'] e'] h0]| | | |] eqn:E;
    try (simpl in Hk; lia).
  destruct k as [|k]; cbn [nth].
  - unfold Empty, Occupied.
    apply (sweep_and_classify_result _ _ _ _ _ _ _ _ _ _ E).
  - apply IH. simpl in Hk. lia.
Qed.

End AnySensor.

(** [get_detection] in debounced mode on a sensor whose sweeps classify
    as [cs] with a first repeat at [k]. *)
Lemma get_detection_stable garbage sensor app_config avg_calib_amp
  avg_amp_factor (k : nat) :
  sweep_configuration_available sensor = true ->
  service_created sensor = true ->
  delay app_config = true ->
  let cs :=
    classifications app_config avg_calib_amp avg_amp_factor
      (replies sensor) (local_array garbage MAX_DATA_SIZE) MAX_DATA_SIZE in
  (1 <= k < List.length cs)%nat ->
  nth k cs 0 = nth (k - 1) cs 0 ->
  (forall j, (1 <= j < k)%nat -> nth j cs 0 <> nth (j - 1) cs 0) ->
  get_detection garbage sensor app_config avg_calib_amp avg_amp_factor
  = Done (nth k cs 0,
          skipn (S k) (replies sensor),
          debounce_trace (unsigned (time_delay app_config))
            (firstn (S k) cs)).
Proof.
  intros Hcfg Hsvc Hdelay cs Hk Hstop Hdiffer.
  unfold get_detection, create_sensor_service.
  rewrite Hcfg, Hsvc, Hdelay. cbn [negb bind].
  subst cs. destruct (replies sensor) as [|reply h]; [simpl in Hk; lia|].
  rewrite sweep_and_classify_cons.
  cbn [classifications] in *.
  destruct (sweep_and_classify app_config avg_calib_amp avg_amp_factor
              [reply] _ _)
    as [[[[c0 d] e] h0]| | | |] eqn:Hfirst; try (simpl in Hk; lia).
  cbn [bind].
  destruct k as [|k]; [lia|].
  replace (S k - 1)%nat with k in Hstop by lia.
  rewrite (detection_loop_stabilises app_config avg_calib_amp
             avg_amp_factor k).
  - reflexivity.
  - destruct (sweep_and_classify_result _ _ _ _ _ _ _ _ _ _ Hfirst); lia.
  - simpl in Hk. lia.
  - pose proof (results_length app_config avg_calib_amp avg_amp_factor
                  h e d).
    simpl in Hk. simpl. lia.
  - exact Hstop.
  - intros j Hj. specialize (Hdiffer (S j)).
    replace (S j - 1)%nat with j in Hdiffer by lia.
    apply Hdiffer. lia.
Qed.

(** [get_detection] on a sensor none of whose sweeps classifies as the one
    before it (in debounced mode) or whose first acquisition does not
    deliver (in either mode). *)
Lemma get_detection_unstable garbage sensor app_config avg_calib_amp
  avg_amp_factor :
  sweep_configuration_available sensor = true ->
  service_created sensor = true ->
  let cs :=
    classifications app_config avg_calib_amp avg_amp_factor
      (replies sensor) (local_array garbage MAX_DATA_SIZE) MAX_DATA_SIZE in
  (delay app_config = true ->
   forall j, (1 <= j < List.length cs)%nat ->
     nth j cs 0 <> nth (j - 1) cs 0) ->
  (delay app_config = false -> cs = []) ->
  get_detection garbage sensor app_config avg_calib_amp avg_amp_factor
  = match nth_error (replies sensor) (List.length cs) with
    | None => Exhausted
    | Some None => Fatal acquisition_failed
    | Some (Some _) => OutOfBounds MAX_DATA_SIZE
    end.
Proof.
  intros Hcfg Hsvc cs Hon Hoff.
  unfold get_detection, create_sensor_service.
  rewrite Hcfg, Hsvc. cbn [negb bind].
  subst cs. destruct (replies sensor) as [|reply h]; [reflexivity|].
  rewrite sweep_and_classify_cons.
  pose proof (sweep_and_classify_failure app_config avg_calib_amp
                avg_amp_factor reply (local_array garbage MAX_DATA_SIZE)
                MAX_DATA_SIZE) as Hfail.
  rewrite local_array_length in Hfail.
  change (Z.of_nat (Z.to_nat MAX_DATA_SIZE)) with MAX_DATA_SIZE in Hfail.
  cbn [classifications] in *.
  destruct (sweep_and_classify app_config avg_calib_amp avg_amp_factor
              [reply] _ _)
    as [[[[c0 d] e] h0]| | | |] eqn:Hfirst; cbn [bind];
    try (destruct reply;
         first [discriminate Hfail|injection Hfail as ->; reflexivity]).
  destruct (delay app_config) eqn:Hdelay;
    [|specialize (Hoff eq_refl); discriminate Hoff].
  cbn [List.length nth_error].
  rewrite detection_loop_unstable.
  - rewrite (sweep_and_classify_length _ _ _ _ _ _ _ _ _ _ Hfirst).
    rewrite local_array_length. reflexivity.
  - destruct (sweep_and_classify_result _ _ _ _ _ _ _ _ _ _ Hfirst); lia.
  - intros j Hj. specialize (Hon eq_refl (S j)).
    replace (S j - 1)%nat with j in Hon by lia.
    apply Hon. simpl. lia.
  - lia.
Qed.

(** X12. Whenever [get_detection] returns, its result is 0 or 1 and is the
    classification of the last sweep it took; it has printed the
    classification of every sweep it took and slept before each but the
    first.  In single-shot mode it took one sweep.  In debounced mode it
    took at least two, the last two classified alike, and no two
    consecutive sweeps before them did. *)
Theorem get_detection_returns_stable_result
  (garbage : Z -> Z) (sensor : sensor_t) (app_config : app_configuration_t)
  (avg_calib_amp avg_amp_factor : float)
  (result : Z) (unused : acc_service_handle_t) (trace : list event) :
  get_detection garbage sensor app_config avg_calib_amp avg_amp_factor
  = Done (result, unused, trace) ->
  let cs :=
    classifications app_config avg_calib_amp avg_amp_factor
      (replies sensor) (local_array garbage MAX_DATA_SIZE) MAX_DATA_SIZE in
  (result = Empty \/ result = Occupied)
  /\ exists k : nat,
       (k < List.length cs)%nat
       /\ result = nth k cs 0
       /\ unused = skipn (S k) (replies sensor)
       /\ trace = debounce_trace (unsigned (time_delay app_config))
                    (firstn (S k) cs)
       /\ (delay app_config = false -> k = O)
       /\ (delay app_config = true ->
           (1 <= k)%nat
           /\ nth k cs 0 = nth (k - 1) cs 0
           /\ forall j, (1 <= j < k)%nat -> nth j cs 0 <> nth (j - 1) cs 0).
Proof.
  intros Hrun cs.
  assert (Hsvc : sweep_configuration_available sensor = true
                 /\ service_created sensor = true).
  { unfold get_detection, create_sensor_service in Hrun.
    destruct (sweep_configuration_available sensor); [|discriminate Hrun].
    destruct (service_created sensor); [|discriminate Hrun].
    split; reflexivity. }
  destruct Hsvc as [Hcfg Hsvc].
  assert (Hbit : forall k, (k < List.length cs)%nat ->
                   nth k cs 0 = Empty \/ nth k cs 0 = Occupied)
    by apply classifications_bits.
  destruct (delay app_config) eqn:Hdelay.
  - destruct (first_repeat cs) as [(k & Hk & Hstop & Hdiffer)|Hnone].
    + pose proof (get_detection_stable garbage sensor app_config
                    avg_calib_amp avg_amp_factor k Hcfg Hsvc Hdelay
                    Hk Hstop Hdiffer) as H.
      rewrite H in Hrun. injection Hrun as <- <- <-.
      split; [apply Hbit; lia|].
      exists k. repeat split; try lia; try assumption; try discriminate.
    + assert (Hoff : delay app_config = false -> cs = [])
        by (intros H; rewrite Hdelay in H; discriminate H).
      rewrite (get_detection_unstable garbage sensor app_config
                 avg_calib_amp avg_amp_factor Hcfg Hsvc (fun _ => Hnone) Hoff)
        in Hrun.
      destruct (nth_error _ _) as [[?|]|]; discriminate Hrun.
  - destruct cs as [|c later] eqn:Ecs in *.
    + assert (Hon : delay app_config = true ->
                      forall j, (1 <= j < List.length cs)%nat ->
                        nth j cs 0 <> nth (j - 1) cs 0)
        by (intros H; rewrite Hdelay in H; discriminate H).
      rewrite (get_detection_unstable garbage sensor app_config
                 avg_calib_amp avg_amp_factor Hcfg Hsvc Hon (fun _ => Ecs))
        in Hrun.
      destruct (nth_error _ _) as [[?|]|]; discriminate Hrun.
    + unfold get_detection, create_sensor_service in Hrun.
      rewrite Hcfg, Hsvc, Hdelay in Hrun. cbn [negb bind] in Hrun.
      unfold cs in Ecs.
      destruct (replies sensor) as [|reply h]; [discriminate Ecs|].
      rewrite sweep_and_classify_cons in Hrun.
      cbn [classifications] in Ecs.
      destruct (sweep_and_classify app_config avg_calib_amp avg_amp_factor
                  [reply] _ _)
        as [[[[c0 d] e] h0]| | | |]; try discriminate Ecs.
      cbn [bind] in Hrun. injection Hrun as <- <- <-.
      injection Ecs as -> _.
      split; [apply (Hbit O); simpl; lia|].
      exists O. repeat split; try (simpl; lia); try discriminate.
Qed.

Lemma get_detection_returns_stable_result_witness :
  (Empty = Empty \/ Empty = Occupied)
  /\ exists k : nat,
       (k < 4)%nat
       /\ Empty = nth k [Occupied; Empty; Empty; Occupied] 0
       /\ (1 <= k)%nat.
Proof.
  destruct (get_detection_returns_stable_result zero_garbage
              (sensor_of [[9]; [8]; [8]; [9]])
              (example_config f32_0_12 f32_0_48 true)
              (F32.of_int 2) (F32.of_int 1)
              Empty [Some [9]]
              [Printed Occupied; Slept 10; Printed Empty; Slept 10;
               Printed Empty])
    as (Hbit & k & Hk & Hr & _ & _ & _ & Hon).
  - vm_compute. reflexivity.
  - split; [exact Hbit|]. exists k.
    split; [exact Hk|]. split; [exact Hr|]. apply Hon. reflexivity.
Defined.

(** X13. An acquisition that fails before the result is stable is fatal, there
    is no retry: when the sensor reports a failure on the first sweep, or,
    in debounced mode, on a later sweep up to which no sweep classified as
    the one before it, [get_detection] ends with the fatal error
    "acc_service_envelope_get_next() failed.". *)
Theorem acquisition_failure_is_fatal
  (garbage : Z -> Z) (sensor : sensor_t) (app_config : app_configuration_t)
  (avg_calib_amp avg_amp_factor : float) :
  sweep_configuration_available sensor = true ->
  service_created sensor = true ->
  let cs :=
    classifications app_config avg_calib_amp avg_amp_factor
      (replies sensor) (local_array garbage MAX_DATA_SIZE) MAX_DATA_SIZE in
  nth_error (replies sensor) (List.length cs) = Some None ->
  (delay app_config = true ->
   forall j, (1 <= j < List.length cs)%nat ->
     nth j cs 0 <> nth (j - 1) cs 0) ->
  (delay app_config = false -> cs = []) ->
  get_detection garbage sensor app_config avg_calib_amp avg_amp_factor
  = Fatal "acc_service_envelope_get_next() failed.".
Proof.
  intros Hcfg Hsvc cs Hfail Hon Hoff.
  rewrite get_detection_unstable by assumption.
  fold cs. rewrite Hfail. reflexivity.
Qed.

Lemma acquisition_failure_is_fatal_witness :
  get_detection zero_garbage
    {| sweep_configuration_available := true;
       service_created := true;
       replies := [Some [9]; Some [8]; None; Some [8]] |}
    (example_config f32_0_12 f32_0_48 true) (F32.of_int 2) (F32.of_int 1)
  = Fatal "acc_service_envelope_get_next() failed.".
Proof.
  apply acquisition_failure_is_fatal; try reflexivity.
  - intros _ j Hj. vm_compute in Hj.
    assert (j = 1%nat) by lia. subst j. vm_compute. discriminate.
  - discriminate.
Defined.

(** ** The detection loop in terms of the raw samples *)

Section RawSamples.

Variable app_config : app_configuration_t.
Variables avg_calib_amp avg_amp_factor : float.

(** The classification of a sweep by its largest sample. *)
Local Abbreviation by_peak :=
  (fun samples : list Z =>
     car_present (F32.of_int (peak_sample samples))
       avg_calib_amp avg_amp_factor).

Lemma min_of_lengths (a b : nat) :
  (a <= 3000)%nat -> (b <= 3000)%nat ->
  min (Z.of_nat a) (Z.of_nat b) = Z.of_nat (Nat.min a b).
Proof.
  intros Ha Hb. unfold min, uint16_t.
  rewrite !Z.mod_small by lia.
  destruct (Z.of_nat a <? Z.of_nat b) eqn:E;
    [apply Z.ltb_lt in E|apply Z.ltb_ge in E]; lia.
Qed.

Lemma Forall_prefix {A} (P : A -> Prop) (l : list A) :
  Forall P l -> forall n : nat, Forall P (firstn n l).
Proof.
  induction 1 as [|x l Hx _ IH]; intros [|n]; cbn [firstn]; constructor;
    [exact Hx|apply IH].
Qed.

Lemma uint16_below (samples : list Z) :
  Forall is_uint16 samples -> Forall (fun v => 0 <= v < 2 ^ 24) samples.
Proof. apply Forall_impl. unfold is_uint16. intros; lia. Qed.

(** One acquisition: the sweep is classified by the largest of its first
    [data_len] samples, and its length, clamped, is the next
    [data_len]. *)
Lemma sweep_and_classify_samples (samples : list Z)
  (h : acc_service_handle_t) (envelope_data : list Z) (d : nat) :
  Forall is_uint16 samples ->
  (List.length samples <= List.length envelope_data)%nat ->
  (List.length envelope_data <= 3000)%nat ->
  (d <= 3000)%nat ->
  let d' := Nat.min (List.length samples) d in
  sweep_and_classify app_config avg_calib_amp avg_amp_factor
    (Some samples :: h) envelope_data (Z.of_nat d)
  = Done (by_peak (firstn d' samples), Z.of_nat d',
          samples ++ skipn (List.length samples) envelope_data, h).
Proof.
  intros Hu Hlen Henv Hd d'.
  unfold sweep_and_classify, get_one_sweep.
  replace (Z.of_nat (List.length envelope_data)
           <? Z.of_nat (List.length samples)) with false
    by (symmetry; apply Z.ltb_ge; lia).
  cbn [bind]. rewrite min_of_lengths by lia. fold d'.
  rewrite (map_uint16_t samples Hu).
  set (F := firstn d' samples).
  assert (Hd' : Z.of_nat d' = Z.of_nat (List.length F))
    by (unfold F; rewrite length_firstn; unfold d'; lia).
  assert (Hdata : forall s1 s2 : float,
             format_data
               (samples ++ skipn (List.length samples) envelope_data)
               (Z.of_nat d') s1 s2
             = format_data F (Z.of_nat (List.length F)) s1 s2).
  { intros s1 s2.
    replace (samples ++ skipn (List.length samples) envelope_data)
      with (F ++ (skipn d' samples
                    ++ skipn (List.length samples) envelope_data))
      by (rewrite app_assoc; unfold F; rewrite firstn_skipn; reflexivity).
    rewrite Hd'. apply format_data_prefix. }
  rewrite Hdata, Hd'.
  assert (Hpeak : forall s1 s2 : float,
             amp (get_max_peak
                    (format_data F (Z.of_nat (List.length F)) s1 s2)
                    (Z.of_nat (List.length F)))
             = F32.of_int (peak_sample F)).
  { intros s1 s2. unfold get_max_peak.
    rewrite Nat2Z.id, firstn_all2 by (rewrite format_data_length; lia).
    apply scan_of_integers;
      [apply format_data_amp | reflexivity | lia |].
    apply uint16_below, Forall_prefix, Hu. }
  rewrite Hpeak. reflexivity.
Qed.

(** The classifications of the sweeps a sensor delivers. *)
Lemma classifications_of_sweeps (sweeps : list (list Z)) :
  forall (envelope_data : list Z) (d : nat),
    Forall (fun samples =>
              Forall is_uint16 samples
              /\ (List.length samples <= List.length envelope_data)%nat)
           sweeps ->
    (List.length envelope_data <= 3000)%nat ->
    (d <= 3000)%nat ->
    classifications app_config avg_calib_amp avg_amp_factor
      (map Some sweeps) envelope_data (Z.of_nat d)
    = map by_peak (cut d sweeps).
Proof.
  induction sweeps as [|samples sweeps IH]; intros envelope_data d Hs He Hd;
    [reflexivity|].
  inversion Hs as [|? ? [Hu Hlen] Hrest]; subst.
  cbn [map classifications cut].
  rewrite sweep_and_classify_samples by assumption.
  f_equal. apply IH.
  - revert Hrest. apply Forall_impl. intros s [Hsu Hsl]. split; [exact Hsu|].
    rewrite length_app, length_skipn. lia.
  - rewrite length_app, length_skipn. lia.
  - lia.
Qed.

End RawSamples.

(** X14. [get_detection] in terms of the samples: on a sensor that delivers
    sweeps of at most 3000 16-bit samples, every sweep is classified by its
    largest sample alone, after it has been cut to the length of the
    shortest sweep so far.  In single-shot mode the result is the
    classification of the first sweep; in debounced mode it is that of the
    first sweep classified as the sweep before it. *)
Theorem get_detection_by_largest_sample
  (garbage : Z -> Z) (app_config : app_configuration_t)
  (avg_calib_amp avg_amp_factor : float) (sweeps : list (list Z)) :
  Forall (fun samples =>
            Forall is_uint16 samples
            /\ (1 <= List.length samples <= 3000)%nat) sweeps ->
  let cs :=
    map (fun samples =>
           car_present (F32.of_int (peak_sample samples))
             avg_calib_amp avg_amp_factor)
        (cut 3000 sweeps) in
  (delay app_config = false ->
   (1 <= List.length sweeps)%nat ->
   get_detection garbage (sensor_of sweeps) app_config
     avg_calib_amp avg_amp_factor
   = Done (nth 0 cs 0, map Some (skipn 1 sweeps), [Printed (nth 0 cs 0)]))
  /\ (delay app_config = true ->
      forall k : nat,
        (1 <= k < List.length sweeps)%nat ->
        nth k cs 0 = nth (k - 1) cs 0 ->
        (forall j, (1 <= j < k)%nat -> nth j cs 0 <> nth (j - 1) cs 0) ->
        get_detection garbage (sensor_of sweeps) app_config
          avg_calib_amp avg_amp_factor
        = Done (nth k cs 0, map Some (skipn (S k) sweeps),
                debounce_trace (unsigned (time_delay app_config))
                  (firstn (S k) cs))).
Proof.
  intros Hs cs.
  assert (Hcs : classifications app_config avg_calib_amp avg_amp_factor
                  (replies (sensor_of sweeps))
                  (local_array garbage MAX_DATA_SIZE) MAX_DATA_SIZE
                = cs).
  { change MAX_DATA_SIZE with (Z.of_nat 3000) at 2.
    cbn [sensor_of replies].
    apply classifications_of_sweeps; try lia.
    - revert Hs. apply Forall_impl. intros s [Hu Hl]. split; [exact Hu|].
      rewrite local_array_length. unfold MAX_DATA_SIZE. lia.
    - rewrite local_array_length. unfold MAX_DATA_SIZE. lia. }
  assert (Hlen : List.length cs = List.length sweeps).
  { unfold cs. rewrite length_map. clear. generalize 3000%nat.
    induction sweeps as [|s l IH]; intros d; [reflexivity|].
    cbn [cut List.length]. rewrite IH. reflexivity. }
  split.
  - intros Hdelay Hone.
    unfold get_detection, create_sensor_service.
    cbn [sensor_of sweep_configuration_available service_created replies
         negb bind].
    rewrite Hdelay.
    destruct sweeps as [|samples sweeps']; [simpl in Hone; lia|].
    inversion Hs as [|? ? [Hu Hl] _]; subst.
    cbn [map]. change MAX_DATA_SIZE with (Z.of_nat 3000) at 2.
    rewrite sweep_and_classify_samples;
      try assumption; try lia;
      try (rewrite local_array_length; unfold MAX_DATA_SIZE; lia).
    cbn [bind]. reflexivity.
  - intros Hdelay k Hk Hstop Hdiffer.
    pose proof (get_detection_stable garbage (sensor_of sweeps) app_config
                  avg_calib_amp avg_amp_factor k eq_refl eq_refl Hdelay)
      as H.
    cbv zeta in H. rewrite Hcs in H. rewrite H by (try assumption; lia).
    cbn [sensor_of replies]. rewrite skipn_map. reflexivity.
Qed.

Lemma get_detection_by_largest_sample_witness :
  get_detection zero_garbage (sensor_of [[1; 9]; [8; 2; 9]; [3; 8]])
    (example_config f32_0_12 f32_0_48 true) (F32.of_int 2) (F32.of_int 1)
  = Done (Empty, [],
          [Printed Occupied; Slept 10; Printed Empty; Slept 10;
           Printed Empty]).
Proof.
  etransitivity.
  - apply (proj2 (get_detection_by_largest_sample zero_garbage
                    (example_config f32_0_12 f32_0_48 true)
                    (F32.of_int 2) (F32.of_int 1)
                    [[1; 9]; [8; 2; 9]; [3; 8]]
                    ltac:(repeat first [apply Forall_nil | apply Forall_cons
                                       | split];
                          first [unfold is_uint16; lia | length_bounds]))
             eq_refl 2%nat).
    + length_bounds.
    + vm_compute. reflexivity.
    + intros j Hj. assert (j = 1%nat) by lia. subst j.
      vm_compute. discriminate.
  - vm_compute. reflexivity.
Defined.

(** X15. The clamp to [MAX_DATA_SIZE] comes too late for the buffer: the
    service is handed the length it announced, not the length of the
    buffer, so a first sweep of more than 3000 samples is written beyond
    the 3000 cells of the buffer, in calibration and in detection alike. *)
Theorem long_sweep_overruns_the_buffer
  (files : string -> option string) (writable : string -> bool)
  (garbage : Z -> Z) (sensor : sensor_t) (app_config : app_configuration_t)
  (avg_calib_amp avg_amp_factor : float)
  (samples : list Z) (later : list (option (list Z))) :
  sweep_configuration_available sensor = true ->
  service_created sensor = true ->
  replies sensor = Some samples :: later ->
  (3000 < List.length samples)%nat ->
  write_calibration_data files writable garbage sensor app_config
  = OutOfBounds MAX_DATA_SIZE
  /\ get_detection garbage sensor app_config avg_calib_amp avg_amp_factor
     = OutOfBounds MAX_DATA_SIZE.
Proof.
  intros Hcfg Hsvc Hreplies Hlong.
  unfold write_calibration_data, get_detection, sweep_and_classify,
    create_sensor_service, get_one_sweep.
  rewrite Hcfg, Hsvc, Hreplies. cbn [negb bind].
  rewrite local_array_length.
  replace (Z.of_nat (Z.to_nat MAX_DATA_SIZE) <? Z.of_nat (List.length samples))
    with true by (symmetry; apply Z.ltb_lt; unfold MAX_DATA_SIZE; lia).
  split; reflexivity.
Qed.

Lemma long_sweep_overruns_the_buffer_witness :
  write_calibration_data no_files (fun _ => true) zero_garbage
    (sensor_of [repeat 1 3001]) (example_config f32_0_12 f32_0_48 false)
  = OutOfBounds MAX_DATA_SIZE.
Proof.
  apply (long_sweep_overruns_the_buffer no_files (fun _ => true) zero_garbage
           (sensor_of [repeat 1 3001]) (example_config f32_0_12 f32_0_48 false)
           (F32.of_int 2) (F32.of_int 1) (repeat 1 3001) []);
    try reflexivity.
  rewrite repeat_length. apply Nat.leb_le. reflexivity.
Defined.

(** ** Command line *)

Section CommandLine.

Variables ACC_LOG_LEVEL_ERROR ACC_LOG_LEVEL_INFO : Z.

Local Abbreviation switch := (option_case ACC_LOG_LEVEL_INFO).
Local Abbreviation loop := (parse_options_loop ACC_LOG_LEVEL_INFO).
Local Abbreviation applied := (options_applied ACC_LOG_LEVEL_INFO).

Lemma substring_length (n : nat) :
  forall s : string, (String.length (substring 0 n s) <= n)%nat.
Proof.
  induction n as [|n IH]; intros [|c s]; cbn; try lia.
  specialize (IH s). lia.
Qed.

(** The [switch] on an option that is not a request for help. *)
Lemma option_case_parsed (app_config app_config' : app_configuration_t)
  (character_code : ascii) (optarg : string) :
  switch app_config character_code optarg = Done (Parsed app_config') ->
  applied app_config [(character_code, optarg)] app_config'
  /\ Ascii.eqb character_code "h" = false
  /\ Ascii.eqb character_code "?" = false.
Proof.
  unfold options_applied, has_option.
  destruct character_code as [[|] [|] [|] [|] [|] [|] [|] [|]];
    cbn [option_case existsb last_option fst Ascii.eqb Bool.eqb orb andb];
    try discriminate;
    try (destruct (atoi optarg) as [v|]; cbn [from_library bind];
         [|discriminate]);
    try (destruct (strtof optarg) as [v|]; cbn [from_library bind];
         [|discriminate]);
    intros H; injection H as <-; cbn; rewrite ?orb_false_r, ?orb_true_r;
    repeat split; reflexivity.
Qed.

Lemma option_case_usage (app_config : app_configuration_t)
  (character_code : ascii) (optarg : string) :
  switch app_config character_code optarg = Done Usage <->
  (Ascii.eqb character_code "h" || Ascii.eqb character_code "?")%bool = true.
Proof.
  destruct character_code as [[|] [|] [|] [|] [|] [|] [|] [|]];
    cbn [option_case Ascii.eqb Bool.eqb orb andb];
    try (destruct (atoi optarg) as [?|]; cbn [from_library bind]);
    try (destruct (strtof optarg) as [?|]; cbn [from_library bind]);
    split; intros H; try reflexivity; try discriminate H.
Qed.

Lemma has_option_cons (code character_code : ascii) (optarg : string)
  (getopt_long : list (ascii * string)) :
  has_option code ((character_code, optarg) :: getopt_long)
  = (Ascii.eqb character_code code || has_option code getopt_long)%bool.
Proof. reflexivity. Qed.

(** Applying one option and then the others is applying them all. *)
Lemma options_applied_cons (c0 c1 c2 : app_configuration_t)
  (character_code : ascii) (optarg : string)
  (getopt_long : list (ascii * string)) :
  applied c0 [(character_code, optarg)] c1 ->
  applied c1 getopt_long c2 ->
  applied c0 ((character_code, optarg) :: getopt_long) c2.
Proof.
  unfold options_applied.
  intros (A1 & A2 & A3 & A4 & A5 & A6 & A7 & A8 & A9 & A10 & A11)
         (B1 & B2 & B3 & B4 & B5 & B6 & B7 & B8 & B9 & B10 & B11).
  rewrite !has_option_cons. cbn [last_option] in *.
  unfold has_option in A1, A2, A9, A11. cbn [existsb fst] in A1, A2, A9, A11.
  rewrite orb_false_r in A1, A2, A9, A11.
  repeat split.
  - rewrite B1, A1, orb_assoc. reflexivity.
  - rewrite B2, A2, orb_assoc. reflexivity.
  - destruct (last_option "f" getopt_long); [exact B3|].
    rewrite B3. destruct (Ascii.eqb character_code "f"); exact A3.
  - destruct (last_option "a" getopt_long); [exact B4|].
    rewrite B4. destruct (Ascii.eqb character_code "a"); exact A4.
  - congruence.
  - congruence.
  - congruence.
  - destruct (last_option "s" getopt_long); [exact B8|].
    rewrite B8. destruct (Ascii.eqb character_code "s"); exact A8.
  - rewrite B9, A9, orb_assoc. reflexivity.
  - destruct (last_option "d" getopt_long); [exact B10|].
    rewrite B10. destruct (Ascii.eqb character_code "d"); exact A10.
  - rewrite B11, A11.
    destruct (Ascii.eqb character_code "v"), (has_option "v" getopt_long);
      reflexivity.
Qed.

Lemma options_applied_nil (c : app_configuration_t) : applied c [] c.
Proof. unfold options_applied, has_option. cbn. rewrite !orb_false_r. repeat split. Qed.

(** The loop of [parse_options], when it returns. *)
Lemma parse_options_loop_parsed (getopt_long : list (ascii * string)) :
  forall app_config app_config' : app_configuration_t,
    loop getopt_long app_config = Done (Parsed app_config') ->
    applied app_config getopt_long app_config'
    /\ has_option "h" getopt_long = false
    /\ has_option "?" getopt_long = false.
Proof.
  induction getopt_long as [|[character_code optarg] getopt_long IH];
    intros c0 c2 H; cbn [parse_options_loop] in H.
  - injection H as <-. split; [apply options_applied_nil|split; reflexivity].
  - destruct (switch c0 character_code optarg) as [[c1|]| | | |] eqn:E;
      cbn [bind] in H; try discriminate H.
    destruct (option_case_parsed _ _ _ _ E) as (A & Hh & Hq).
    destruct (IH _ _ H) as (B & Hh' & Hq').
    rewrite !has_option_cons, Hh, Hq, Hh', Hq'.
    split; [|split; reflexivity].
    eapply options_applied_cons; eassumption.
Qed.

(** The loop of [parse_options], when it ends in the usage. *)
Lemma parse_options_loop_usage (getopt_long : list (ascii * string)) :
  forall app_config : app_configuration_t,
    loop getopt_long app_config = Done Usage ->
    (has_option "h" getopt_long || has_option "?" getopt_long)%bool = true.
Proof.
  induction getopt_long as [|[character_code optarg] getopt_long IH];
    intros c0 H; cbn [parse_options_loop] in H; [discriminate H|].
  rewrite !has_option_cons.
  destruct (switch c0 character_code optarg) as [[c1|]| | | |] eqn:E;
    cbn [bind] in H; try discriminate H.
  - apply IH in H.
    destruct (has_option "h" getopt_long); [apply orb_true_iff; left;
      apply orb_true_r|].
    cbn [orb] in H. rewrite H, !orb_true_r. reflexivity.
  - apply option_case_usage in E.
    destruct (Ascii.eqb character_code "h"); [reflexivity|].
    cbn [orb] in E. rewrite E. cbn. apply orb_true_r.
Qed.

(** A request for help ends the loop, whatever options follow it. *)
Lemma parse_options_loop_help (before after : list (ascii * string))
  (character_code : ascii) (optarg : string) :
  (Ascii.eqb character_code "h" || Ascii.eqb character_code "?")%bool = true ->
  forall app_config app_config' : app_configuration_t,
    loop before app_config = Done (Parsed app_config') ->
    loop (before ++ (character_code, optarg) :: after) app_config
    = Done Usage.
Proof.
  intros Hhelp.
  induction before as [|[c a] before IH]; intros c0 c2 H;
    cbn [parse_options_loop app] in *.
  - apply (option_case_usage c0 character_code optarg) in Hhelp.
    rewrite Hhelp. reflexivity.
  - destruct (switch c0 c a) as [[c1|]| | | |]; cbn [bind] in *;
      try discriminate H.
    apply (IH _ _ H).
Qed.

End CommandLine.

(** X17. When [parse_options] returns, the configuration is the default one
    with the options applied in any order: a flag is set exactly when its
    option occurs, a value is that of the last option that sets it and the
    default when there is none; no option was a request for help; and the
    name of the calibration file has at most 200 characters, as many as
    its buffer holds before the terminating NUL. *)
Theorem parse_options_applies_the_options
  (ACC_LOG_LEVEL_ERROR ACC_LOG_LEVEL_INFO : Z)
  (getopt_long : list (ascii * string)) (app_config : app_configuration_t) :
  parse_options ACC_LOG_LEVEL_ERROR ACC_LOG_LEVEL_INFO getopt_long
  = Done (Parsed app_config) ->
  options_applied ACC_LOG_LEVEL_INFO (init_configuration ACC_LOG_LEVEL_ERROR)
    getopt_long app_config
  /\ has_option "h" getopt_long = false
  /\ has_option "?" getopt_long = false
  /\ (String.length (calibration_file_name app_config)
      <= MAX_FILE_NAME_LENGTH)%nat.
Proof.
  intros H. unfold parse_options in H.
  destruct (parse_options_loop_parsed _ _ _ _ H) as (A & Hh & Hq).
  split; [exact A|]. split; [exact Hh|]. split; [exact Hq|].
  destruct A as (_ & _ & A & _). rewrite A.
  destruct (last_option "f" getopt_long); [apply substring_length|].
  apply Nat.leb_le. reflexivity.
Qed.

Lemma parse_options_applies_the_options_witness :
  options_applied 3 (init_configuration 1)
    [("f"%char, "a.cal"%string); ("d"%char, "3"%string);
     ("f"%char, "b.cal"%string)]
    (set_delay (set_calibration_file (init_configuration 1) "b.cal") 3)
  /\ (String.length
        (calibration_file_name
           (set_delay (set_calibration_file (init_configuration 1) "b.cal") 3))
      <= MAX_FILE_NAME_LENGTH)%nat.
Proof.
  destruct (parse_options_applies_the_options 1 3
              [("f"%char, "a.cal"%string); ("d"%char, "3"%string);
               ("f"%char, "b.cal"%string)]
              (set_delay
                 (set_calibration_file (init_configuration 1) "b.cal") 3))
    as (Happlied & _ & _ & Hname).
  - reflexivity.
  - split; [exact Happlied | exact Hname].
Defined.

(** X18. An h or a ? option ends [parse_options] with the usage and the exit
    status 0 whatever options follow it, provided the options before it
    parse; and [parse_options] ends that way only when [getopt_long]
    returns such an option. *)
Theorem help_ends_the_parsing
  (ACC_LOG_LEVEL_ERROR ACC_LOG_LEVEL_INFO : Z) :
  (forall (before after : list (ascii * string)) (character_code : ascii)
          (optarg : string) (app_config : app_configuration_t),
      character_code = "h"%char \/ character_code = "?"%char ->
      parse_options ACC_LOG_LEVEL_ERROR ACC_LOG_LEVEL_INFO before
      = Done (Parsed app_config) ->
      parse_options ACC_LOG_LEVEL_ERROR ACC_LOG_LEVEL_INFO
        (before ++ (character_code, optarg) :: after)
      = Done Usage)
  /\ (forall getopt_long : list (ascii * string),
         parse_options ACC_LOG_LEVEL_ERROR ACC_LOG_LEVEL_INFO getopt_long
         = Done Usage ->
         (has_option "h" getopt_long || has_option "?" getopt_long)%bool
         = true).
Proof.
  split.
  - intros before after character_code optarg app_config Hc H.
    unfold parse_options in *.
    apply (parse_options_loop_help _ before after character_code optarg)
      with (app_config' := app_config); [|exact H].
    destruct Hc as [-> | ->]; reflexivity.
  - intros getopt_long H. apply (parse_options_loop_usage _ _ _ H).
Qed.

Lemma help_ends_the_parsing_witness :
  parse_options 1 3
    ([("c"%char, EmptyString)]
       ++ ("h"%char, EmptyString) :: [("s"%char, "many"%string)])
  = Done Usage.
Proof.
  apply (proj1 (help_ends_the_parsing 1 3) [("c"%char, EmptyString)]
           [("s"%char, "many"%string)] "h"%char EmptyString
           (set_calibrate (init_configuration 1) true)).
  - left. reflexivity.
  - reflexivity.
Defined.

(** ** The program *)

Section MainProgram.

Variables ACC_LOG_LEVEL_ERROR ACC_LOG_LEVEL_INFO : Z.

Local Abbreviation parse :=
  (parse_options ACC_LOG_LEVEL_ERROR ACC_LOG_LEVEL_INFO).
Local Abbreviation run := (main ACC_LOG_LEVEL_ERROR ACC_LOG_LEVEL_INFO).

Lemma parsed_flags (getopt_long : list (ascii * string))
  (app_config : app_configuration_t) :
  parse getopt_long = Done (Parsed app_config) ->
  calibrate app_config = has_option "c" getopt_long
  /\ read_calibration_file app_config = has_option "f" getopt_long.
Proof.
  intros H. unfold parse_options in H.
  destruct (parse_options_loop_parsed _ _ _ _ H)
    as ((Hc & Hf & _) & _).
  split; assumption.
Qed.

(** The defaults survive the text of the calibration file. *)
Lemma survives_text_default_start : survives_text DEFAULT_START_RANGE.
Proof. intros rest. reflexivity. Qed.

Lemma survives_text_default_length : survives_text DEFAULT_LENGTH_RANGE.
Proof. intros rest. reflexivity. Qed.

(** Single-shot detection on a sweep of at most 3000 16-bit samples. *)
Lemma get_detection_single_shot (garbage : Z -> Z)
  (app_config : app_configuration_t) (avg_calib_amp avg_amp_factor : float)
  (samples : list Z) (later : list (list Z)) :
  delay app_config = false ->
  Forall is_uint16 samples ->
  (List.length samples <= 3000)%nat ->
  get_detection garbage (sensor_of (samples :: later)) app_config
    avg_calib_amp avg_amp_factor
  = Done (car_present (F32.of_int (peak_sample samples))
            avg_calib_amp avg_amp_factor,
          map Some later,
          [Printed (car_present (F32.of_int (peak_sample samples))
                      avg_calib_amp avg_amp_factor)]).
Proof.
  intros Hdelay Hu Hlen.
  unfold get_detection, create_sensor_service.
  cbn [sensor_of sweep_configuration_available service_created replies
       negb bind map].
  rewrite Hdelay. change MAX_DATA_SIZE with (Z.of_nat 3000) at 2.
  rewrite sweep_and_classify_samples;
    try assumption; try lia;
    try (rewrite local_array_length; unfold MAX_DATA_SIZE; lia).
  cbn [bind]. rewrite Nat.min_l by lia. rewrite firstn_all. reflexivity.
Qed.

End MainProgram.

(** X19. What the options make of a run: a request for help ends it before
    anything else is done; otherwise the radar system and the envelope
    configuration must come up; then a c option makes it a calibration
    run, whether or not there is an f option; without c, an f option makes
    it a detection run; and without both the program stops with "Please
    specify calibration file." and the failure status, so that the default
    file name is never read from. *)
Theorem main_selects_its_mode
  (ACC_LOG_LEVEL_ERROR ACC_LOG_LEVEL_INFO : Z)
  (e : endianness) (files : string -> option string)
  (writable : string -> bool) (garbage garbage' : Z -> Z)
  (getopt_long : list (ascii * string))
  (acc_rss_activate acc_service_envelope_configuration_create : bool)
  (sensor : sensor_t) :
  let run :=
    main ACC_LOG_LEVEL_ERROR ACC_LOG_LEVEL_INFO e files writable
      garbage garbage' getopt_long acc_rss_activate
      acc_service_envelope_configuration_create sensor in
  (parse_options ACC_LOG_LEVEL_ERROR ACC_LOG_LEVEL_INFO getopt_long
   = Done Usage ->
   run = Done UsagePrinted /\ exit_status run = Some 0)
  /\ forall app_config : app_configuration_t,
       parse_options ACC_LOG_LEVEL_ERROR ACC_LOG_LEVEL_INFO getopt_long
       = Done (Parsed app_config) ->
       (acc_rss_activate = false ->
        run = Fatal "acc_rss_activate() failed")
       /\ (acc_rss_activate = true ->
           acc_service_envelope_configuration_create = false ->
           run = Fatal "acc_service_envelope_configuration_create() failed.")
       /\ (acc_rss_activate = true ->
           acc_service_envelope_configuration_create = true ->
           (has_option "c" getopt_long = true ->
            run = (files' <- write_calibration_data files writable garbage'
                               sensor app_config ;;
                   Done (CalibrationDone files')))
           /\ (has_option "c" getopt_long = false ->
               has_option "f" getopt_long = true ->
               run = ('(app_config', th) <-
                        read_and_calculate_threshold e files garbage
                          app_config ;;
                      '(result, _, trace) <-
                        get_detection garbage' sensor app_config'
                          (avg_calib_amp th) (avg_amp_factor th) ;;
                      Done (Detected trace (result =? 1))))
           /\ (has_option "c" getopt_long = false ->
               has_option "f" getopt_long = false ->
               run = Done NoCalibrationFile
               /\ exit_status run = Some EXIT_FAILURE)).
Proof.
  intros run. split.
  - intros H. unfold run, main. rewrite H. split; reflexivity.
  - intros app_config H.
    destruct (parsed_flags _ _ _ _ H) as [Hc Hf].
    unfold run, main. rewrite H. cbn [bind]. split; [|split].
    + intros ->. reflexivity.
    + intros -> ->. reflexivity.
    + intros -> ->. cbn [negb]. rewrite Hc, Hf. split; [|split].
      * intros ->. reflexivity.
      * intros -> ->. reflexivity.
      * intros -> ->. split; reflexivity.
Qed.

Lemma main_selects_its_mode_witness :
  main 1 3 LittleEndian (stored "start 0.1") (fun _ => true)
    zero_garbage zero_garbage [("v"%char, EmptyString); ("d"%char, "5"%string)]
    true true (sensor_of [[9]])
  = Done NoCalibrationFile.
Proof.
  destruct (main_selects_its_mode 1 3 LittleEndian (stored "start 0.1")
              (fun _ => true) zero_garbage zero_garbage
              [("v"%char, EmptyString); ("d"%char, "5"%string)]
              true true (sensor_of [[9]])) as (_ & H).
  destruct (H (set_delay (set_loglevel (init_configuration 1) 3) 5) eq_refl)
    as (_ & _ & H').
  destruct (H' eq_refl eq_refl) as (_ & _ & Hnone).
  apply (Hnone eq_refl eq_refl).
Defined.

(** X20. A calibration run followed by a detection run: the file that the
    program writes with the option c from a sweep of 1 to 3000 16-bit
    samples is accepted when the program is run again with the option f
    and the same name, and that run classifies the first sweep it gets once, by
    its largest sample against the threshold model read, prints the result
    and ends with the verdict. *)
Theorem calibration_then_detection
  (ACC_LOG_LEVEL_ERROR ACC_LOG_LEVEL_INFO : Z)
  (e : endianness) (files : string -> option string)
  (writable : string -> bool) (garbage garbage' garbage'' : Z -> Z)
  (calibration sweep : list Z) (later : list (list Z)) :
  writable "parking.cal"%string = true ->
  Forall is_uint16 calibration ->
  (1 <= List.length calibration <= 3000)%nat ->
  Forall is_uint16 sweep ->
  (1 <= List.length sweep <= 3000)%nat ->
  exists (files' : string -> option string)
         (app_config : app_configuration_t) (th : threshold_t),
    main ACC_LOG_LEVEL_ERROR ACC_LOG_LEVEL_INFO e files writable
      garbage garbage' [("c"%char, EmptyString)] true true
      (sensor_of [calibration])
    = Done (CalibrationDone files')
    /\ files' "parking.cal"%string
       = Some (calibration_text DEFAULT_START_RANGE DEFAULT_LENGTH_RANGE
                 (Z.of_nat (List.length calibration)) calibration)
    /\ read_and_calculate_threshold e files' garbage
         (set_calibration_file (init_configuration ACC_LOG_LEVEL_ERROR)
            "parking.cal")
       = Done (app_config, th)
    /\ let result :=
         car_present (F32.of_int (peak_sample sweep))
           (avg_calib_amp th) (avg_amp_factor th) in
       main ACC_LOG_LEVEL_ERROR ACC_LOG_LEVEL_INFO e files' writable
         garbage garbage'' [("f"%char, "parking.cal"%string)] true true
         (sensor_of (sweep :: later))
       = Done (Detected [Printed result] (result =? 1)).
Proof.
  intros Hw Hcal Hcal_len Hsweep Hsweep_len.
  set (init := init_configuration ACC_LOG_LEVEL_ERROR).
  set (cfg := set_calibration_file init "parking.cal").
  set (text := calibration_text DEFAULT_START_RANGE DEFAULT_LENGTH_RANGE
                 (Z.of_nat (List.length calibration)) calibration).
  assert (Hfile : update files "parking.cal" text "parking.cal" = Some text)
    by reflexivity.
  assert (Hcontent :
            read_calibration_file_content
              (update files "parking.cal" text) garbage cfg
            = Done (DEFAULT_START_RANGE, DEFAULT_LENGTH_RANGE,
                    Z.of_nat (List.length calibration),
                    calibration
                      ++ skipn (List.length calibration)
                           (local_array garbage MAX_DATA_SIZE))).
  { apply read_calibration_text;
      [exact Hfile | apply survives_text_default_start
       | apply survives_text_default_length | exact Hcal | lia]. }
  pose proof (threshold_of_content e _ _ _ _ _ _ _ Hcontent
                ltac:(unfold MAX_DATA_SIZE; lia)) as Hth.
  cbv zeta in Hth.
  eexists _, _, _. split; [|split; [|split]].
  - assert (Hparse :
              parse_options ACC_LOG_LEVEL_ERROR ACC_LOG_LEVEL_INFO
                [("c"%char, EmptyString)]
              = Done (Parsed (set_calibrate init true))) by reflexivity.
    unfold main. rewrite Hparse. cbn [bind negb].
    change (calibrate (set_calibrate init true)) with true. cbv iota.
    rewrite (write_calibration_data_text files writable garbage'
               (set_calibrate init true) calibration) by (try assumption; lia).
    cbn [bind]. reflexivity.
  - exact Hfile.
  - exact Hth.
  - intros result.
    assert (Hparse :
              parse_options ACC_LOG_LEVEL_ERROR ACC_LOG_LEVEL_INFO
                [("f"%char, "parking.cal"%string)]
              = Done (Parsed cfg)) by reflexivity.
    unfold main. rewrite Hparse. cbn [bind negb].
    change (calibrate cfg) with false.
    change (read_calibration_file cfg) with true. cbv iota.
    change (update files (calibration_file_name (set_calibrate init true))
              (calibration_text
                 (start_range (radar_config (set_calibrate init true)))
                 (length_range (radar_config (set_calibrate init true)))
                 (Z.of_nat (List.length calibration)) calibration))
      with (update files "parking.cal" text).
    rewrite Hth. cbn [bind avg_calib_amp avg_amp_factor].
    rewrite get_detection_single_shot; [reflexivity| |exact Hsweep|lia].
    destruct (_ != _)%f32; destruct (_ < _)%f32; reflexivity.
Qed.

Lemma calibration_then_detection_witness :
  exists (files' : string -> option string)
         (app_config : app_configuration_t) (th : threshold_t),
    main 1 3 LittleEndian no_files (fun _ => true)
      zero_garbage zero_garbage [("c"%char, EmptyString)] true true
      (sensor_of [[40; 30; 20; 10]])
    = Done (CalibrationDone files')
    /\ files' "parking.cal"%string
       = Some (calibration_text DEFAULT_START_RANGE DEFAULT_LENGTH_RANGE
                 (Z.of_nat (List.length [40; 30; 20; 10])) [40; 30; 20; 10])
    /\ read_and_calculate_threshold LittleEndian files' zero_garbage
         (set_calibration_file (init_configuration 1) "parking.cal")
       = Done (app_config, th)
    /\ let result :=
         car_present (F32.of_int (peak_sample [40; 30; 20; 10]))
           (avg_calib_amp th) (avg_amp_factor th) in
       main 1 3 LittleEndian files' (fun _ => true)
         zero_garbage zero_garbage [("f"%char, "parking.cal"%string)]
         true true (sensor_of ([40; 30; 20; 10] :: []))
       = Done (Detected [Printed result] (result =? 1)).
Proof.
  apply (calibration_then_detection 1 3 LittleEndian no_files (fun _ => true)
           zero_garbage zero_garbage zero_garbage
           [40; 30; 20; 10] [40; 30; 20; 10] []).
  - reflexivity.
  - repeat constructor; unfold is_uint16; lia.
  - length_bounds.
  - repeat constructor; unfold is_uint16; lia.
  - length_bounds.
Defined.

(** ** More than the announced samples *)

Section SurplusSamples.

Import Stdio.

Lemma print_samples_head (data : list Z) (tail : string) :
  Forall is_uint16 data -> data <> [] ->
  skip_space (print_samples data ++ tail) = (print_samples data ++ tail)%string.
Proof.
  intros H Hne. destruct H as [|v data Hv _]; [contradiction Hne; reflexivity|].
  cbn [print_samples]. rewrite StdioFacts.print_d_nonnegative by apply Hv.
  rewrite append_associative. apply skip_space_print_u, Hv.
Qed.

(** The reading loop on the text of [data] with anything behind it. *)
Lemma read_samples_before (data : list Z) :
  forall (pre mid post : list Z) (s tail : string),
    Forall is_uint16 data ->
    List.length mid = List.length data ->
    Z.of_nat (List.length pre + List.length data) < 65536 ->
    (data = [] \/ skip_space s = (print_samples data ++ tail)%string) ->
    exists s' : string,
      read_samples (List.length data) (Z.of_nat (List.length pre)) s
        (pre ++ mid ++ post) (Z.of_nat (List.length pre))
      = Done (Z.of_nat (List.length pre + List.length data),
              pre ++ data ++ post, s').
Proof.
  induction data as [|v data IH];
    intros pre mid post s tail Hdata Hmid Hlen Hs.
  - destruct mid; [|discriminate Hmid]. exists s. simpl.
    rewrite Nat.add_0_r. reflexivity.
  - destruct mid as [|m mid]; [discriminate Hmid|].
    destruct Hs as [Hs|Hs]; [discriminate Hs|].
    inversion Hdata as [|? ? Hv Hrest]; subst.
    cbn [List.length read_samples]. unfold scan, fscanf.
    cbn [fscanf_from]. rewrite <- scan_unsigned_skip, Hs.
    cbn [print_samples]. rewrite StdioFacts.print_d_nonnegative by apply Hv.
    rewrite append_associative.
    change ((" " ++ print_samples data) ++ tail)%string
      with (String " " (print_samples data ++ tail))%string.
    rewrite StdioFacts.scan_unsigned_print_u by (try reflexivity; apply Hv).
    change (2 ^ 16) with 65536. rewrite Z.mod_small by apply Hv.
    cbn [convert fscanf_from stop bind app returned assigned rest List.length].
    assert (Hin : (Z.of_nat (List.length pre)
                   <? Z.of_nat (List.length (pre ++ m :: mid ++ post))) = true)
      by (apply Z.ltb_lt; rewrite length_app; cbn [List.length]; lia).
    rewrite Hin, Nat2Z.id, store_middle.
    replace (uint16_t (Z.of_nat (List.length pre) + Z.of_nat 1))
      with (Z.of_nat (List.length (pre ++ [v]))).
    2:{ rewrite length_app. cbn [List.length]. unfold uint16_t.
        cbn [List.length] in Hlen. rewrite Z.mod_small; lia. }
    replace (Z.of_nat (List.length pre) + 1)
      with (Z.of_nat (List.length (pre ++ [v])))
      by (rewrite length_app; cbn [List.length]; lia).
    replace (pre ++ v :: mid ++ post) with ((pre ++ [v]) ++ mid ++ post)
      by (rewrite <- app_assoc; reflexivity).
    destruct (IH (pre ++ [v]) mid post
                (String " " (print_samples data ++ tail)) tail)
      as (s' & Hloop).
    + exact Hrest.
    + simpl in Hmid. lia.
    + rewrite length_app. cbn [List.length] in *. lia.
    + destruct data as [|v' data']; [left; reflexivity|right].
      change (skip_space (String " " (print_samples (v' :: data') ++ tail)))
        with (skip_space (print_samples (v' :: data') ++ tail)).
      apply print_samples_head; [exact Hrest|discriminate].
    + exists s'. rewrite Hloop, length_app. cbn [List.length].
      rewrite <- app_assoc. cbn [app].
      replace (List.length pre + 1 + List.length data)%nat
        with (List.length pre + S (List.length data))%nat by lia.
      reflexivity.
Qed.

Lemma read_text_with_surplus files garbage app_config start length samples
  (surplus : string) :
  files (calibration_file_name app_config)
  = Some (calibration_text start length (Z.of_nat (List.length samples))
            samples ++ surplus)%string ->
  survives_text start ->
  survives_text length ->
  Forall is_uint16 samples ->
  (1 <= List.length samples <= 3000)%nat ->
  read_calibration_file_content files garbage app_config
  = Done (start, length, Z.of_nat (List.length samples),
          samples ++ skipn (List.length samples)
                       (local_array garbage MAX_DATA_SIZE)).
Proof.
  intros Hfile Hstart Hlength Hu Hlen.
  unfold read_calibration_file_content. rewrite Hfile.
  unfold calibration_text, scan.
  rewrite !append_associative.
  rewrite (fscanf_start start _ Hstart). cbn [bind rest returned].
  rewrite skip_space_length_line, (fscanf_length length _ Hlength).
  cbn [bind rest returned].
  rewrite skip_space_n_line, fscanf_n by lia.
  cbn [bind rest returned assigned assigned_float assigned_uint].
  change (negb (uint16_t (uint16_t (uint16_t 1 + 1) + 1) =? 3)) with false.
  cbv iota.
  rewrite Nat2Z.id, firstn_all.
  set (a := local_array garbage MAX_DATA_SIZE).
  assert (Ha : List.length a = 3000%nat) by apply local_array_length.
  destruct (read_samples_before samples []
              (firstn (List.length samples) a)
              (skipn (List.length samples) a)
              (skip_space (print_samples samples ++ surplus)) surplus)
    as (s' & Hloop).
  - exact Hu.
  - rewrite length_firstn. lia.
  - cbn [List.length]. lia.
  - right. rewrite StdioFacts.skip_space_idempotent.
    apply print_samples_head; [exact Hu|].
    destruct samples; [simpl in Hlen; lia|discriminate].
  - cbn [List.length app Nat.add] in Hloop.
    rewrite firstn_skipn in Hloop.
    change (Z.of_nat 0) with 0 in Hloop. rewrite Hloop. cbn [bind].
    rewrite Z.eqb_refl. reflexivity.
Qed.

End SurplusSamples.

(** X9. What follows the announced samples in a calibration file is never
    looked at: with any text behind its last sample, be it further samples,
    the file is read as if it ended there. *)
Theorem surplus_samples_are_ignored
  (e : endianness) (files files' : string -> option string)
  (garbage : Z -> Z) (app_config : app_configuration_t)
  (start length : float) (samples : list Z) (surplus : string) :
  files (calibration_file_name app_config)
  = Some (calibration_text start length (Z.of_nat (List.length samples))
            samples) ->
  files' (calibration_file_name app_config)
  = Some (calibration_text start length (Z.of_nat (List.length samples))
            samples ++ surplus)%string ->
  survives_text start ->
  survives_text length ->
  Forall is_uint16 samples ->
  (1 <= List.length samples <= 3000)%nat ->
  read_and_calculate_threshold e files' garbage app_config
  = read_and_calculate_threshold e files garbage app_config
  /\ exists r, read_and_calculate_threshold e files garbage app_config
               = Done r.
Proof.
  intros Hfile Hfile' Hstart Hlength Hu Hlen.
  unfold read_and_calculate_threshold.
  rewrite (read_text_with_surplus files' garbage app_config start length
             samples surplus) by assumption.
  rewrite (read_calibration_text files garbage app_config start length
             samples) by (try assumption; lia).
  split; [reflexivity|]. cbn [bind]. eexists. reflexivity.
Qed.

Lemma surplus_samples_are_ignored_witness :
  read_and_calculate_threshold LittleEndian
    (stored (calibration_text f32_0_1 f32_0_5 3 [10; 20; 30] ++ "40 50 x"))
    zero_garbage (example_config f32_0_1 f32_0_5 false)
  = read_and_calculate_threshold LittleEndian
      (stored (calibration_text f32_0_1 f32_0_5 3 [10; 20; 30]))
      zero_garbage (example_config f32_0_1 f32_0_5 false).
Proof.
  apply (surplus_samples_are_ignored LittleEndian
           (stored (calibration_text f32_0_1 f32_0_5 3 [10; 20; 30]))
           (stored (calibration_text f32_0_1 f32_0_5 3 [10; 20; 30]
                    ++ "40 50 x"))
           zero_garbage (example_config f32_0_1 f32_0_5 false)
           f32_0_1 f32_0_5 [10; 20; 30] "40 50 x").
  - reflexivity.
  - reflexivity.
  - exact survives_text_0_1.
  - exact survives_text_0_5.
  - repeat constructor; unfold is_uint16; lia.
  - length_bounds.
Defined.

(** ** Failures of the service and of the file *)

(** X16. The failures of a calibration run are reported in the order service,
    sweep, file: a missing sweep configuration, then a service that cannot
    be created, then a sweep that fails, and only then a file that cannot
    be opened for writing, although the file is opened first. *)
Theorem write_calibration_data_reports_failures_in_order
  (files : string -> option string) (writable : string -> bool)
  (garbage : Z -> Z) (sensor : sensor_t) (app_config : app_configuration_t) :
  (sweep_configuration_available sensor = false ->
   write_calibration_data files writable garbage sensor app_config
   = Fatal "Sweep configuration not available")
  /\ (sweep_configuration_available sensor = true ->
      service_created sensor = false ->
      write_calibration_data files writable garbage sensor app_config
      = Fatal "acc_service_create() failed.")
  /\ (sweep_configuration_available sensor = true ->
      service_created sensor = true ->
      forall later, replies sensor = None :: later ->
      write_calibration_data files writable garbage sensor app_config
      = Fatal "acc_service_envelope_get_next() failed.")
  /\ (sweep_configuration_available sensor = true ->
      service_created sensor = true ->
      forall samples later,
        replies sensor = Some samples :: later ->
        (List.length samples <= 3000)%nat ->
        writable (calibration_file_name app_config) = false ->
        write_calibration_data files writable garbage sensor app_config
        = Fatal ("Unable to write calibration data to file" ++ Stdio.nl)).
Proof.
  unfold write_calibration_data, create_sensor_service, get_one_sweep.
  repeat split.
  - intros ->. reflexivity.
  - intros -> ->. reflexivity.
  - intros -> -> later ->. reflexivity.
  - intros -> -> samples later -> Hlen Hw. cbn [negb bind].
    rewrite local_array_length.
    replace (Z.of_nat (Z.to_nat MAX_DATA_SIZE)
             <? Z.of_nat (List.length samples)) with false
      by (symmetry; apply Z.ltb_ge; unfold MAX_DATA_SIZE; lia).
    cbn [bind]. rewrite Hw. reflexivity.
Qed.

Lemma write_calibration_data_reports_failures_in_order_witness :
  write_calibration_data no_files (fun _ => false) zero_garbage
    {| sweep_configuration_available := true;
       service_created := true;
       replies := [None] |}
    (example_config f32_0_12 f32_0_48 false)
  = Fatal "acc_service_envelope_get_next() failed.".
Proof.
  destruct (write_calibration_data_reports_failures_in_order no_files
              (fun _ => false) zero_garbage
              {| sweep_configuration_available := true;
                 service_created := true;
                 replies := [None] |}
              (example_config f32_0_12 f32_0_48 false))
    as (_ & _ & H & _).
  apply (H eq_refl eq_refl []). reflexivity.
Defined.

(** ** What the functions leave alone *)

(** Single-shot detection on any sensor whose first sweep classifies. *)
Lemma get_detection_once garbage sensor app_config avg_calib_amp
  avg_amp_factor (c : Z) (later : list Z) :
  sweep_configuration_available sensor = true ->
  service_created sensor = true ->
  delay app_config = false ->
  classifications app_config avg_calib_amp avg_amp_factor
    (replies sensor) (local_array garbage MAX_DATA_SIZE) MAX_DATA_SIZE
  = c :: later ->
  get_detection garbage sensor app_config avg_calib_amp avg_amp_factor
  = Done (c, skipn 1 (replies sensor), [Printed c]).
Proof.
  intros Hcfg Hsvc Hdelay Hcs.
  unfold get_detection, create_sensor_service.
  rewrite Hcfg, Hsvc, Hdelay. cbn [negb bind].
  destruct (replies sensor) as [|reply h]; [discriminate Hcs|].
  rewrite sweep_and_classify_cons.
  cbn [classifications] in Hcs.
  destruct (sweep_and_classify app_config avg_calib_amp avg_amp_factor
              [reply] _ _)
    as [[[[c0 d] e] h0]| | | |]; try discriminate Hcs.
  injection Hcs as -> _. reflexivity.
Qed.

(** Two runs of [get_detection] on sensors that deliver the same replies
    and whose sweeps classify alike end alike. *)
Lemma get_detection_determined garbage garbage' sensor app_config
  avg_calib_amp avg_amp_factor :
  classifications app_config avg_calib_amp avg_amp_factor
    (replies sensor) (local_array garbage MAX_DATA_SIZE) MAX_DATA_SIZE
  = classifications app_config avg_calib_amp avg_amp_factor
      (replies sensor) (local_array garbage' MAX_DATA_SIZE) MAX_DATA_SIZE ->
  get_detection garbage sensor app_config avg_calib_amp avg_amp_factor
  = get_detection garbage' sensor app_config avg_calib_amp avg_amp_factor.
Proof.
  intros Hcs.
  destruct (sweep_configuration_available sensor) eqn:Hcfg;
    [|unfold get_detection, create_sensor_service; rewrite Hcfg;
      reflexivity].
  destruct (service_created sensor) eqn:Hsvc;
    [|unfold get_detection, create_sensor_service; rewrite Hcfg, Hsvc;
      reflexivity].
  destruct (delay app_config) eqn:Hdelay.
  - destruct (first_repeat
                (classifications app_config avg_calib_amp avg_amp_factor
                   (replies sensor) (local_array garbage MAX_DATA_SIZE)
                   MAX_DATA_SIZE))
      as [(k & Hk & Hstop & Hdiffer)|Hnone].
    + rewrite (get_detection_stable garbage sensor app_config avg_calib_amp
                 avg_amp_factor k Hcfg Hsvc Hdelay Hk Hstop Hdiffer).
      rewrite Hcs in *.
      rewrite (get_detection_stable garbage' sensor app_config avg_calib_amp
                 avg_amp_factor k Hcfg Hsvc Hdelay Hk Hstop Hdiffer).
      reflexivity.
    + assert (Hoff : forall l : list Z, delay app_config = false -> l = [])
        by (intros l H; rewrite Hdelay in H; discriminate H).
      rewrite (get_detection_unstable garbage sensor app_config
                 avg_calib_amp avg_amp_factor Hcfg Hsvc (fun _ => Hnone)
                 (Hoff _)).
      rewrite Hcs in *.
      rewrite (get_detection_unstable garbage' sensor app_config
                 avg_calib_amp avg_amp_factor Hcfg Hsvc (fun _ => Hnone)
                 (Hoff _)).
      reflexivity.
  - assert (Hon : forall l : list Z,
               delay app_config = true ->
               forall j, (1 <= j < List.length l)%nat ->
                 nth j l 0 <> nth (j - 1) l 0)
      by (intros l H; rewrite Hdelay in H; discriminate H).
    destruct (classifications app_config avg_calib_amp avg_amp_factor
                (replies sensor) (local_array garbage MAX_DATA_SIZE)
                MAX_DATA_SIZE) as [|c later] eqn:Ecs.
    + rewrite (get_detection_unstable garbage sensor app_config
                 avg_calib_amp avg_amp_factor Hcfg Hsvc (Hon _)
                 (fun _ => Ecs)).
      rewrite (get_detection_unstable garbage' sensor app_config
                 avg_calib_amp avg_amp_factor Hcfg Hsvc (Hon _)
                 (fun _ => eq_sym Hcs)).
      rewrite Ecs, <- Hcs. reflexivity.
    + rewrite (get_detection_once garbage sensor app_config avg_calib_amp
                 avg_amp_factor c later Hcfg Hsvc Hdelay Ecs).
      rewrite (get_detection_once garbage' sensor app_config avg_calib_amp
                 avg_amp_factor c later Hcfg Hsvc Hdelay (eq_sym Hcs)).
      reflexivity.
Qed.

(** X21. The indeterminate content of the local buffers never reaches a
    result: whatever the buffers hold to begin with, a calibration file in
    the written format with 1 to 3000 samples gives the same configuration
    and threshold model, a sensor that delivers sweeps of at most 3000
    16-bit samples gives the same detection, and a calibration run writes
    the same file. *)
Theorem indeterminate_cells_are_never_used
  (garbage garbage' : Z -> Z) (app_config : app_configuration_t) :
  (forall (e : endianness) (files : string -> option string)
          (start length : float) (samples : list Z),
      files (calibration_file_name app_config)
      = Some (calibration_text start length
                (Z.of_nat (List.length samples)) samples) ->
      survives_text start ->
      survives_text length ->
      Forall is_uint16 samples ->
      (1 <= List.length samples <= 3000)%nat ->
      read_and_calculate_threshold e files garbage app_config
      = read_and_calculate_threshold e files garbage' app_config)
  /\ (forall (avg_calib_amp avg_amp_factor : float)
             (sweeps : list (list Z)),
         Forall (fun samples =>
                   Forall is_uint16 samples
                   /\ (List.length samples <= 3000)%nat) sweeps ->
         get_detection garbage (sensor_of sweeps) app_config
           avg_calib_amp avg_amp_factor
         = get_detection garbage' (sensor_of sweeps) app_config
             avg_calib_amp avg_amp_factor)
  /\ (forall (files : string -> option string) (writable : string -> bool)
             (samples : list Z),
         writable (calibration_file_name app_config) = true ->
         Forall is_uint16 samples ->
         (List.length samples <= 3000)%nat ->
         write_calibration_data files writable garbage (sensor_of [samples])
           app_config
         = write_calibration_data files writable garbage'
             (sensor_of [samples]) app_config).
Proof.
  split; [|split].
  - intros e files start length samples Hfile Hstart Hlength Hu Hlen.
    pose proof (read_calibration_text files garbage app_config start length
                  samples Hfile Hstart Hlength Hu ltac:(lia)) as H.
    pose proof (read_calibration_text files garbage' app_config start length
                  samples Hfile Hstart Hlength Hu ltac:(lia)) as H'.
    pose proof (threshold_of_content e _ _ _ _ _ _ _ H
                  ltac:(unfold MAX_DATA_SIZE; lia)) as T.
    pose proof (threshold_of_content e _ _ _ _ _ _ _ H'
                  ltac:(unfold MAX_DATA_SIZE; lia)) as T'.
    cbv zeta in T, T'. rewrite T, T'.
    rewrite Nat2Z.id, !firstn_app, !firstn_all, Nat.sub_diag, !firstn_O.
    reflexivity.
  - intros avg_calib_amp avg_amp_factor sweeps Hs.
    apply get_detection_determined.
    cbn [sensor_of replies].
    change MAX_DATA_SIZE with (Z.of_nat 3000) at 2 4.
    rewrite !classifications_of_sweeps; try reflexivity; try lia;
      try (rewrite local_array_length; unfold MAX_DATA_SIZE; lia);
      (revert Hs; apply Forall_impl; intros s [Hu Hl]; split; [exact Hu|];
       rewrite local_array_length; unfold MAX_DATA_SIZE; lia).
  - intros files writable samples Hw Hu Hlen.
    rewrite !write_calibration_data_text by assumption. reflexivity.
Qed.

Lemma indeterminate_cells_are_never_used_witness :
  read_and_calculate_threshold LittleEndian
    (stored (calibration_text f32_0_1 f32_0_5 3 [10; 20; 30]))
    zero_garbage (example_config f32_0_1 f32_0_5 false)
  = read_and_calculate_threshold LittleEndian
      (stored (calibration_text f32_0_1 f32_0_5 3 [10; 20; 30]))
      (fun i => i mod 7) (example_config f32_0_1 f32_0_5 false).
Proof.
  apply (proj1 (indeterminate_cells_are_never_used zero_garbage
                  (fun i => i mod 7) (example_config f32_0_1 f32_0_5 false))
           LittleEndian
           (stored (calibration_text f32_0_1 f32_0_5 3 [10; 20; 30]))
           f32_0_1 f32_0_5 [10; 20; 30]).
  - reflexivity.
  - exact survives_text_0_1.
  - exact survives_text_0_5.
  - repeat constructor; unfold is_uint16; lia.
  - length_bounds.
Defined.

(** X22. Only the calibration file matters: a calibration run leaves every
    other file as it was, and the reader gives the same result in any two
    file systems that agree on the calibration file. *)
Theorem only_the_calibration_file_matters
  (app_config : app_configuration_t) :
  (forall (files files' : string -> option string)
          (writable : string -> bool) (garbage : Z -> Z) (sensor : sensor_t),
      write_calibration_data files writable garbage sensor app_config
      = Done files' ->
      forall name : string,
        name <> calibration_file_name app_config ->
        files' name = files name)
  /\ (forall (e : endianness) (files files' : string -> option string)
             (garbage : Z -> Z),
         files (calibration_file_name app_config)
         = files' (calibration_file_name app_config) ->
         read_and_calculate_threshold e files garbage app_config
         = read_and_calculate_threshold e files' garbage app_config).
Proof.
  split.
  - intros files files' writable garbage sensor H name Hname.
    unfold write_calibration_data in H.
    destruct (create_sensor_service sensor) as [h| | | |];
      cbn [bind] in H; try discriminate H.
    destruct (get_one_sweep h _ _) as [[[d data] h']| | | |];
      cbn [bind] in H; try discriminate H.
    destruct (negb _); [discriminate H|].
    injection H as <-. unfold update.
    destruct (String.eqb_spec name (calibration_file_name app_config));
      [contradiction|reflexivity].
  - intros e files files' garbage H.
    unfold read_and_calculate_threshold, read_calibration_file_content.
    rewrite H. reflexivity.
Qed.

Lemma only_the_calibration_file_matters_witness :
  read_and_calculate_threshold LittleEndian
    (stored (calibration_text f32_0_1 f32_0_5 3 [10; 20; 30]))
    zero_garbage (example_config f32_0_1 f32_0_5 false)
  = read_and_calculate_threshold LittleEndian
      (update (stored (calibration_text f32_0_1 f32_0_5 3 [10; 20; 30]))
         "other.cal" "n 0")
      zero_garbage (example_config f32_0_1 f32_0_5 false).
Proof.
  apply (proj2 (only_the_calibration_file_matters
                  (example_config f32_0_1 f32_0_5 false))).
  reflexivity.
Defined.
